(** * system-specs: the telemetry sampler, the push sessions and the control
      endpoints of [app.js]

    The development embeds the server side of [app.js] (the formatting
    helpers, the sampler [getSystemInfo] and its parts, the WebSocket
    connection handler and the two control routes) and proves the properties
    the specification states about them.

    JavaScript numbers are IEEE 754 binary64 values.  They are modelled by
    [spec_float] at precision 53 and maximal exponent 1024, with the
    arithmetic of the standard library's [SpecFloat] (round to nearest, ties
    to even), so that [/], [*], [+] and [-] below round exactly where the
    program's do. *)

From Stdlib Require Import ZArith QArith Qabs Qpower Qround Lia Lqa.
From Stdlib Require Import List String Ascii Bool.
From Stdlib Require Import Floats.SpecFloat DecimalString DecimalN DecimalPos.
From Stdlib Require Import Permutation.
Import ListNotations.

Open Scope string_scope.
Open Scope Z_scope.

(** ** JavaScript numbers *)

Definition number := spec_float.

Definition prec : Z := 53.
Definition emax : Z := 1024.

(** The number denoted by an integer literal or an integer the host reports. *)
Definition of_Z (z : Z) : number := binary_normalize prec emax z 0 false.

Definition js_add (x y : number) : number := SFadd prec emax x y.
Definition js_sub (x y : number) : number := SFsub prec emax x y.
Definition js_mul (x y : number) : number := SFmul prec emax x y.
Definition js_div (x y : number) : number := SFdiv prec emax x y.

(** [x >= y]: false as soon as one side is NaN. *)
Definition js_ge (x y : number) : bool := SFleb y x.

(** [x % y] (Number::remainder): the sign is the dividend's, the magnitude is
    the exact remainder of the truncating division, which is always
    representable. *)
Definition js_rem (x y : number) : number :=
  match x, y with
  | S754_nan, _ | _, S754_nan => S754_nan
  | S754_infinity _, _ => S754_nan
  | _, S754_zero _ => S754_nan
  | _, S754_infinity _ => x
  | S754_zero _, _ => x
  | S754_finite sx mx ex, S754_finite _ my ey =>
      let ez := Z.min ex ey in
      let r := Z.modulo (Zpos (fst (shl_align mx ex ez)))
                        (Zpos (fst (shl_align my ey ez))) in
      match r with
      | Z0 => S754_zero sx
      | _ => binary_normalize prec emax (cond_Zopp sx r) ez false
      end
  end.

(** [Math.floor]. *)
Definition Math_floor (x : number) : number :=
  match x with
  | S754_finite s m e =>
      if 0 <=? e then x
      else match Z.div (cond_Zopp s (Zpos m)) (2 ^ (- e)) with
           | Z0 => S754_zero s
           | q => binary_normalize prec emax q 0 false
           end
  | _ => x
  end.

(** ** Decimal text of numbers *)

Definition digits_of (n : Z) : string :=
  NilEmpty.string_of_uint (N.to_uint (Z.to_N n)).

Fixpoint zeros (k : nat) : string :=
  match k with
  | O => ""
  | S k' => String "0" (zeros k')
  end.

Definition pad_left (width : nat) (s : string) : string :=
  zeros (width - String.length s) ++ s.

(** The decimal text of [n / 10^f] with exactly [f] digits after the point. *)
Definition fixed_text (n : Z) (f : nat) : string :=
  match f with
  | O => digits_of n
  | _ => digits_of (n / 10 ^ Z.of_nat f) ++ "." ++
         pad_left f (digits_of (n mod 10 ^ Z.of_nat f))
  end.

(** For a finite positive [m * 2^e]: the integer [n] for which [n / 10^f] is
    nearest, the larger one on a tie (step 10 of Number.prototype.toFixed). *)
Definition fixed_scaled (m : positive) (e : Z) (f : nat) : Z :=
  if 0 <=? e then Zpos m * 2 ^ e * 10 ^ Z.of_nat f
  else (2 * Zpos m * 10 ^ Z.of_nat f + 2 ^ (- e)) / 2 ^ (- e + 1).

(** [m * 2^e < 10^21] *)
Definition below_1e21 (m : positive) (e : Z) : bool :=
  if 0 <=? e then Zpos m * 2 ^ e <? 10 ^ 21
  else Zpos m <? 10 ^ 21 * 2 ^ (- e).

(** [x.toFixed(f)].  At and above [1e21] the method falls back to the
    exponential notation of Number::toString, which is outside the modelled
    fragment: there the result is [None]. *)
Definition toFixed (x : number) (f : nat) : option string :=
  match x with
  | S754_nan => Some "NaN"
  | S754_infinity false => Some "Infinity"
  | S754_infinity true => Some "-Infinity"
  | S754_zero _ => Some (fixed_text 0 f)
  | S754_finite s m e =>
      if below_1e21 m e
      then Some ((if s then "-" else "") ++ fixed_text (fixed_scaled m e f) f)
      else None
  end.

(** The integer a finite number denotes, when it denotes one. *)
Definition integer_value (s : bool) (m : positive) (e : Z) : option Z :=
  if 0 <=? e then Some (cond_Zopp s (Zpos m * 2 ^ e))
  else if Zpos m mod 2 ^ (- e) =? 0
       then Some (cond_Zopp s (Zpos m / 2 ^ (- e)))
       else None.

(** [String(x)] as a template literal computes it, for the integers below
    [2^53] in magnitude, whose text is their exact decimal digits.  From
    [2^53] on the text is the shortest one that reads back to the same
    number, which need not be the exact integer; these numbers and the
    fractions are outside the modelled fragment ([None]). *)
Definition toString (x : number) : option string :=
  match x with
  | S754_nan => Some "NaN"
  | S754_infinity false => Some "Infinity"
  | S754_infinity true => Some "-Infinity"
  | S754_zero _ => Some "0"
  | S754_finite s m e =>
      match integer_value s m e with
      | Some n =>
          if Z.abs n <? 2 ^ 53
          then Some ((if s then "-" else "") ++ digits_of (Z.abs n))
          else None
      | None => None
      end
  end.

(** The value a decimal text such as ["12.34"] denotes (what [parseFloat]
    reads, kept exact). *)
Fixpoint split_dot (s : string) : string * option string :=
  match s with
  | "" => ("", None)
  | String c r =>
      if Ascii.eqb c "." then ("", Some r)
      else let '(a, b) := split_dot r in (String c a, b)
  end.

Definition natural_value (s : string) : option Z :=
  match s with
  | "" => None
  | _ => option_map (fun d => Z.of_N (N.of_uint d)) (NilEmpty.uint_of_string s)
  end.

Definition decimal_value (s : string) : option Q :=
  match split_dot s with
  | (a, None) => option_map inject_Z (natural_value a)
  | (a, Some b) =>
      match natural_value a, natural_value b with
      | Some ip, Some fp =>
          let scale := 10 ^ Z.of_nat (String.length b) in
          Some (Qmake (ip * scale + fp) (Z.to_pos scale))
      | _, _ => None
      end
  end.

(** A percentage text such as ["12.34%"] and the number of percent it
    denotes. *)
Fixpoint strip_percent (s : string) : option string :=
  match s with
  | "" => None
  | String c r =>
      match r with
      | "" => if Ascii.eqb c "%" then Some "" else None
      | _ => option_map (String c) (strip_percent r)
      end
  end.

Definition percent_value (s : string) : option Q :=
  match strip_percent s with
  | Some d => decimal_value d
  | None => None
  end.

(** ** Utility functions of [app.js] *)

Definition units : list string := ["B"; "KB"; "MB"; "GB"; "TB"].

(** The [while] loop of [formatBytes]; [gas] bounds the number of turns. *)
Fixpoint scale_loop (gas : nat) (size : number) (unitIndex : nat)
  : number * nat :=
  match gas with
  | O => (size, unitIndex)
  | S gas' =>
      if js_ge size (of_Z 1024) && (unitIndex <? List.length units - 1)%nat
      then scale_loop gas' (js_div size (of_Z 1024)) (S unitIndex)
      else (size, unitIndex)
  end.

Definition formatBytes (bytes : number) : option string :=
  let '(size, unitIndex) := scale_loop (List.length units) bytes 0 in
  match toFixed size 2 with
  | Some t => Some (t ++ " " ++ nth unitIndex units "undefined")
  | None => None
  end.

Definition formatUptime (seconds : number) : option string :=
  let days := Math_floor (js_div seconds (js_mul (of_Z 3600) (of_Z 24))) in
  let hours :=
    Math_floor (js_div (js_rem seconds (js_mul (of_Z 3600) (of_Z 24)))
                       (of_Z 3600)) in
  let minutes := Math_floor (js_div (js_rem seconds (of_Z 3600)) (of_Z 60)) in
  let secs := Math_floor (js_rem seconds (of_Z 60)) in
  match toString days, toString hours, toString minutes, toString secs with
  | Some d, Some h, Some m, Some s =>
      Some (d ++ "d " ++ h ++ "h " ++ m ++ "m " ++ s ++ "s")
  | _, _, _, _ => None
  end.

(** ** The host, as the sampler reads it

    What [os], [diskusage] and [child_process] return is the input of the
    server.  A JavaScript object whose keys are enumerated is a list of
    key/value pairs in enumeration order. *)

Record Cpu := {
  cpu_model : string;
  cpu_speed : number;
  cpu_times : list (string * number)
}.

Record Iface := {
  address : string;
  family : string;
  internal : bool
}.

Record DiskUsage := {
  disk_available : number;
  disk_free : number;
  disk_total : number
}.

(** [disk.check(path)] resolves with the usage or rejects with an error. *)
Inductive DiskCheck :=
| Resolved (info : DiskUsage)
| Rejected (err : string).

Record Host := {
  os_platform : string;
  os_type : string;
  os_release : string;
  os_arch : string;
  os_hostname : string;
  os_cpus : list Cpu;
  os_totalmem : number;
  os_freemem : number;
  os_networkInterfaces : list (string * list Iface);
  os_uptime : number;
  disk_check : string -> DiskCheck
}.

(** ** The sampler *)

Definition getPrivateIP (h : Host) : string :=
  fold_left
    (fun privateIP (entry : string * list Iface) =>
       fold_left
         (fun privateIP iface =>
            if String.eqb (family iface) "IPv4" && negb (internal iface)
            then address iface
            else privateIP)
         (snd entry) privateIP)
    (os_networkInterfaces h) "Not found".

Record UsageMetric := {
  total : string;
  free : string;
  used : string;
  usedPercentage : string;
  freePercentage : string;
  totalRaw : number;
  freeRaw : number;
  usedRaw : number
}.

(** [((a / b) * 100).toFixed(f)], to which the callers append ['%']. *)
Definition percentage (a b : number) (f : nat) : option string :=
  toFixed (js_mul (js_div a b) (of_Z 100)) f.

(** The record [getMemoryInfo] and the [try] branch of [getDiskInfo] both
    build from a total and a free byte count. *)
Definition usage (total_ free_ : number) : option UsageMetric :=
  let used_ := js_sub total_ free_ in
  match formatBytes total_, formatBytes free_, formatBytes used_,
        percentage used_ total_ 2, percentage free_ total_ 2 with
  | Some t, Some f, Some u, Some up, Some fp =>
      Some {| total := t; free := f; used := u;
              usedPercentage := up ++ "%"; freePercentage := fp ++ "%";
              totalRaw := total_; freeRaw := free_; usedRaw := used_ |}
  | _, _, _, _, _ => None
  end.

(** The record the [catch] branch of [getDiskInfo] returns. *)
Definition disk_unavailable : UsageMetric :=
  {| total := "N/A"; free := "N/A"; used := "N/A";
     usedPercentage := "0%"; freePercentage := "0%";
     totalRaw := of_Z 0; freeRaw := of_Z 0; usedRaw := of_Z 0 |}.

Definition getDiskInfo (h : Host) : option UsageMetric :=
  match disk_check h "/" with
  | Resolved info => usage (disk_total info) (disk_free info)
  | Rejected _ => Some disk_unavailable
  end.

Definition getMemoryInfo (h : Host) : option UsageMetric :=
  usage (os_totalmem h) (os_freemem h).

Record CoreTimes := {
  user : string;
  system : string;
  idle : string;
  rawTotal : number;
  rawUser : option number;
  rawSystem : option number;
  rawIdle : option number
}.

Record CoreMetric := {
  core : Z;
  model : string;
  speed : string;
  times : CoreTimes
}.

(** [o.k]: the value under key [k], [undefined] ([None]) without one. *)
Fixpoint property (k : string) (o : list (string * number)) : option number :=
  match o with
  | [] => None
  | (k', v) :: o' => if String.eqb k' k then Some v else property k o'
  end.

(** [undefined] is NaN in arithmetic. *)
Definition to_number (v : option number) : number :=
  match v with
  | Some x => x
  | None => S754_nan
  end.

Definition core_metric (index : nat) (cpu : Cpu) : option CoreMetric :=
  let total_ :=
    fold_left (fun acc time => js_add acc time)
              (map snd (cpu_times cpu)) (of_Z 0) in
  let pct k := percentage (to_number (property k (cpu_times cpu))) total_ 1 in
  match pct "user", pct "sys", pct "idle", toString (cpu_speed cpu) with
  | Some user_, Some system_, Some idle_, Some mhz =>
      Some {| core := Z.of_nat index + 1;
              model := cpu_model cpu;
              speed := mhz ++ " MHz";
              times := {| user := user_ ++ "%";
                          system := system_ ++ "%";
                          idle := idle_ ++ "%";
                          rawTotal := total_;
                          rawUser := property "user" (cpu_times cpu);
                          rawSystem := property "sys" (cpu_times cpu);
                          rawIdle := property "idle" (cpu_times cpu) |} |}
  | _, _, _, _ => None
  end.

(** [cpus.map((cpu, index) => ...)] *)
Fixpoint map_cores (index : nat) (cpus : list Cpu) : option (list CoreMetric) :=
  match cpus with
  | [] => Some []
  | cpu :: rest =>
      match core_metric index cpu, map_cores (S index) rest with
      | Some c, Some cs => Some (c :: cs)
      | _, _ => None
      end
  end.

Definition getCPUInfo (h : Host) : option (list CoreMetric) :=
  map_cores 0 (os_cpus h).

Record OsInfo := {
  platform : string;
  type : string;
  release : string;
  arch : string;
  hostname : string
}.

Record NetworkInfo := {
  privateIP : string;
  net_hostname : string;
  interfaces : list (string * list Iface)
}.

Record Snapshot := {
  os : OsInfo;
  cpu : list CoreMetric;
  memory : UsageMetric;
  disk : UsageMetric;
  network : NetworkInfo;
  uptime : string
}.

Definition getSystemInfo (h : Host) : option Snapshot :=
  match getCPUInfo h, getMemoryInfo h, getDiskInfo h,
        formatUptime (os_uptime h) with
  | Some cpuInfo, Some memInfo, Some diskInfo, Some up =>
      Some {| os := {| platform := os_platform h;
                       type := os_type h;
                       release := os_release h;
                       arch := os_arch h;
                       hostname := os_hostname h |};
              cpu := cpuInfo;
              memory := memInfo;
              disk := diskInfo;
              network := {| privateIP := getPrivateIP h;
                            net_hostname := os_hostname h;
                            interfaces := os_networkInterfaces h |};
              uptime := up |}
  | _, _, _, _ => None
  end.

(** ** Observer sessions

    One session is one run of the ['connection'] handler: the socket [ws], the
    timer [setInterval] returns and what has been pushed so far.  Time is a
    clock in milliseconds that the events move; a turn of the event loop (a
    handler with the sampling it awaits) is one step. *)

Inductive ReadyState := CONNECTING | OPEN | CLOSING | CLOSED.

Definition is_open (r : ReadyState) : bool :=
  match r with
  | OPEN => true
  | _ => false
  end.

Record Delivery := {
  at_ms : nat;
  payload : option Snapshot
}.

Record Session := {
  readyState : ReadyState;
  (** milliseconds until the interval fires next; [None] without a timer *)
  interval : option nat;
  now : nat;
  delivered : list Delivery
}.

Inductive Event :=
| Elapse (ms : nat)
| PeerClose
| TransportError.

Definition period : nat := 1000.

Section Sessions.

(** The host as it is at each instant. *)
Variable host_at : nat -> Host.

(** [ws.send(JSON.stringify(await getSystemInfo()))]: nothing leaves a
    socket that is not open. *)
Definition send_specs (s : Session) : Session :=
  if is_open (readyState s)
  then {| readyState := readyState s;
          interval := interval s;
          now := now s;
          delivered :=
            (delivered s ++
               [{| at_ms := now s;
                   payload := getSystemInfo (host_at (now s)) |}])%list |}
  else s.

(** The ['connection'] handler: the first push, then the timer. *)
Definition on_connection (ws : ReadyState) (t0 : nat) : Session :=
  let s := send_specs {| readyState := ws; interval := None;
                         now := t0; delivered := [] |} in
  {| readyState := readyState s;
     interval := Some period;
     now := now s;
     delivered := delivered s |}.

(** The callback of [setInterval]. *)
Definition on_interval (s : Session) : Session :=
  if is_open (readyState s) then send_specs s else s.

(** One millisecond passes; the timer fires when it is due and is armed
    again for the next period. *)
Definition millisecond (s : Session) : Session :=
  let s' := {| readyState := readyState s; interval := interval s;
               now := S (now s); delivered := delivered s |} in
  match interval s with
  | None => s'
  | Some (S (S rest)) =>
      {| readyState := readyState s; interval := Some (S rest);
         now := S (now s); delivered := delivered s |}
  | Some _ =>
      let fired := on_interval s' in
      {| readyState := readyState fired; interval := Some period;
         now := now fired; delivered := delivered fired |}
  end.

Fixpoint elapse (ms : nat) (s : Session) : Session :=
  match ms with
  | O => s
  | S ms' => elapse ms' (millisecond s)
  end.

(** [ws.on('close')]: the socket is closed, the handler clears the timer. *)
Definition on_close (s : Session) : Session :=
  {| readyState := CLOSED; interval := None;
     now := now s; delivered := delivered s |}.

(** [ws.on('error')]: the socket is closing, the handler clears the
    timer. *)
Definition on_error (s : Session) : Session :=
  {| readyState := CLOSING; interval := None;
     now := now s; delivered := delivered s |}.

Definition step (s : Session) (ev : Event) : Session :=
  match ev with
  | Elapse ms => elapse ms s
  | PeerClose => on_close s
  | TransportError => on_error s
  end.

Definition run (s : Session) (evs : list Event) : Session :=
  fold_left step evs s.

(** The push the handler makes on attach. *)
Definition first_push (t0 : nat) : Delivery :=
  {| at_ms := t0; payload := getSystemInfo (host_at t0) |}.

(** The instants [t0 + period], [t0 + 2 * period], ... of the first [k]
    ticks after [t0]. *)
Fixpoint ticks (t0 k : nat) : list Delivery :=
  match k with
  | O => []
  | S k' =>
      (ticks t0 k' ++
         [{| at_ms := t0 + k * period;
             payload := getSystemInfo (host_at (t0 + k * period)) |}])%list
  end.

End Sessions.

(** ** Control endpoints

    [exec(command, callback)] runs the command; the callback receives the
    error, [None] when the command succeeded. *)

Record Response := {
  status : Z;
  body : list (string * string)
}.

Record Handled := {
  response : Response;
  console : list string
}.

Definition post_system_restart (exec : string -> option string) : Handled :=
  match exec "sudo shutdown -r now" with
  | Some error =>
      {| response := {| status := 500;
                        body := [("error", "Failed to restart system")] |};
         console := ["Restart error: " ++ error] |}
  | None =>
      {| response := {| status := 200;
                        body := [("message", "System is restarting")] |};
         console := [] |}
  end.

Definition post_system_shutdown (exec : string -> option string) : Handled :=
  match exec "sudo shutdown -h now" with
  | Some error =>
      {| response := {| status := 500;
                        body := [("error", "Failed to shutdown system")] |};
         console := ["Shutdown error: " ++ error] |}
  | None =>
      {| response := {| status := 200;
                        body := [("message", "System is shutting down")] |};
         console := [] |}
  end.

(** [needle] occurs in [s]. *)
Fixpoint includes (needle s : string) : bool :=
  String.prefix needle s ||
  match s with
  | "" => false
  | String _ s' => includes needle s'
  end.

Definition field (k : string) (o : list (string * string)) : option string :=
  option_map snd (find (fun kv => String.eqb (fst kv) k) o).

(** * The page and what the browser runs

    [app.get('/')] sends a page with a script.  The built-ins the script and
    the template use, the document, the scripts and the page follow. *)

(** [Math.ceil] *)
Definition Math_ceil (x : number) : number :=
  match x with
  | S754_finite s m e =>
      if 0 <=? e then x
      else match - (- cond_Zopp s (Zpos m) / 2 ^ (- e)) with
           | Z0 => S754_zero s
           | q => binary_normalize prec emax q 0 false
           end
  | _ => x
  end.

(** [Math.max] and [Math.min] of two numbers. *)
Definition Math_max (x y : number) : number :=
  match x, y with
  | S754_nan, _ | _, S754_nan => S754_nan
  | S754_zero sx, S754_zero sy => S754_zero (sx && sy)
  | _, _ => if SFltb x y then y else x
  end.

Definition Math_min (x y : number) : number :=
  match x, y with
  | S754_nan, _ | _, S754_nan => S754_nan
  | S754_zero sx, S754_zero sy => S754_zero (sx || sy)
  | _, _ => if SFltb y x then y else x
  end.

(** [Array(x)] for a number [x]: the length of the array; [None] where
    [Array] throws a RangeError. *)
Definition array_length (x : number) : option nat :=
  match x with
  | S754_zero _ => Some 0%nat
  | S754_finite false m e =>
      match integer_value false m e with
      | Some n => if n <? 2 ^ 32 then Some (Z.to_nat n) else None
      | None => None
      end
  | _ => None
  end.

(** [Array(Math.ceil(initialSpecs.cpu.length / 3))]: one dot per page. *)
Definition indicator_count (cores : nat) : option nat :=
  array_length (Math_ceil (js_div (of_Z (Z.of_nat cores)) (of_Z 3))).

(** ** [parseFloat]

    The longest prefix of the trimmed text that is a decimal literal, as a
    number.  Modelled: ASCII white space, a sign, [Infinity], digits with an
    optional fraction, of at most 15 digits in all (the quotient of two
    exact numbers is then the number nearest to the literal).  Literals
    with an exponent part or more digits are outside the modelled fragment
    ([None]). *)

Definition is_digit (c : ascii) : bool :=
  let n := nat_of_ascii c in (48 <=? n)%nat && (n <=? 57)%nat.

Definition is_space (c : ascii) : bool :=
  let n := nat_of_ascii c in ((9 <=? n)%nat && (n <=? 13)%nat) || (n =? 32)%nat.

Fixpoint trim_start (s : string) : string :=
  match s with
  | String c r => if is_space c then trim_start r else s
  | "" => ""
  end.

(** The longest prefix of digits, and what follows it. *)
Fixpoint span_digits (s : string) : string * string :=
  match s with
  | String c r =>
      if is_digit c
      then let '(d, rest) := span_digits r in (String c d, rest)
      else ("", s)
  | "" => ("", "")
  end.

Definition digits_value (d : string) : Z :=
  match NilEmpty.uint_of_string d with
  | Some u => Z.of_N (N.of_uint u)
  | None => 0
  end.

Definition starts_exponent (s : string) : bool :=
  match s with
  | String c _ => Ascii.eqb c "e" || Ascii.eqb c "E"
  | "" => false
  end.

Definition unsigned_literal (s : string) : option number :=
  if String.prefix "Infinity" s then Some (S754_infinity false)
  else
    let '(ip, rest) := span_digits s in
    let '(fp, rest') :=
      match rest with
      | String "." r => span_digits r
      | _ => ("", rest)
      end in
    if (String.length ip + String.length fp =? 0)%nat then Some S754_nan
    else if starts_exponent rest' then None
    else if (15 <? String.length ip + String.length fp)%nat then None
    else Some (js_div (of_Z (digits_value (ip ++ fp)))
                      (of_Z (10 ^ Z.of_nat (String.length fp)))).

Definition parseFloat (s : string) : option number :=
  match trim_start s with
  | String "-" r => option_map SFopp (unsigned_literal r)
  | String "+" r => unsigned_literal r
  | String c r =>
      if (128 <=? nat_of_ascii c)%nat then None
      else unsigned_literal (String c r)
  | "" => Some S754_nan
  end.

(** ** The usage figure of a core

    [(100 - parseFloat(core.times.idle)).toFixed(f)]: with two decimals in
    the page the server renders, with one in [updateUI]. *)

Definition usage_figure (idle_ : string) (f : nat) : option string :=
  match parseFloat idle_ with
  | Some x => toFixed (js_sub (of_Z 100) x) f
  | None => None
  end.

(** ** The document of the page

    The tree the browser builds from the text [app.get('/')] sends:
    elements with their id (empty without one), classes and inline style,
    and text nodes.  White space between elements is left out, and so is
    the text of the [style] and [script] elements. *)

#[warnings="-register-all"]
Inductive Node :=
| Element (tag id : string) (classes : list string)
          (style : list (string * string)) (children : list Node)
| TextNode (data : string).

Definition text (t : string) : list Node :=
  match t with
  | "" => []
  | _ => [TextNode t]
  end.

Definition el (tag : string) (classes : list string) (children : list Node)
  : Node :=
  Element tag "" classes [] children.

(** The template splices the texts of the snapshot into the HTML it sends
    without escaping them.  A text of printable ASCII characters other than
    the two quotes, [&], [<], [>] and [;] is read back by the browser as
    that text, in the content of an element as in the single declaration of
    a [style] attribute.  Any other text may add elements to the document,
    change attributes or add declarations: the page of such a snapshot is
    outside the model. *)
Definition plain_char (c : ascii) : bool :=
  let n := nat_of_ascii c in
  ((32 <=? n) && (n <=? 126)
   && negb ((n =? 34) || (n =? 38) || (n =? 39) || (n =? 59) || (n =? 60)
            || (n =? 62)))%nat.

Fixpoint plain (t : string) : bool :=
  match t with
  | "" => true
  | String c r => plain_char c && plain r
  end.

(** [String(n)] for an integer. *)
Definition integer_text (n : Z) : string :=
  if n <? 0 then "-" ++ digits_of (- n) else digits_of n.

(** How a script finds an element. *)
Inductive Step :=
| ById (id : string)
| ByClass (class : string).

Definition matches (s : Step) (n : Node) : bool :=
  match n, s with
  | Element _ id _ _ _, ById i => negb (String.eqb i "") && String.eqb id i
  | Element _ _ classes _ _, ByClass c => existsb (String.eqb c) classes
  | TextNode _, _ => false
  end.

(** What a change of an element comes to: the changed element, an
    exception, or a case outside the model. *)
Inductive Change (A : Type) :=
| Changed (a : A)
| Throws
| NotModelled.

Arguments Changed {A} a.
Arguments Throws {A}.
Arguments NotModelled {A}.

Definition map_change {A B} (f : A -> B) (c : Change A) : Change B :=
  match c with
  | Changed a => Changed (f a)
  | Throws => Throws
  | NotModelled => NotModelled
  end.

(** The first node in document order that satisfies [p], changed by [g];
    [None] when no node satisfies [p]. *)
Fixpoint change_first (p : Node -> bool) (g : Node -> Change Node) (n : Node)
  {struct n} : option (Change Node) :=
  if p n then Some (g n)
  else match n with
       | Element tag id classes style_ children =>
           option_map
             (map_change (Element tag id classes style_))
             ((fix among (l : list Node) : option (Change (list Node)) :=
                 match l with
                 | [] => None
                 | x :: l' =>
                     match change_first p g x with
                     | Some r => Some (map_change (fun x' => x' :: l') r)
                     | None => option_map (map_change (cons x)) (among l')
                     end
                 end) children)
       | TextNode _ => None
       end.

Fixpoint change_among (p : Node -> bool) (g : Node -> Change Node)
  (l : list Node) : option (Change (list Node)) :=
  match l with
  | [] => None
  | x :: l' =>
      match change_first p g x with
      | Some r => Some (map_change (fun x' => x' :: l') r)
      | None => option_map (map_change (cons x)) (change_among p g l')
      end
  end.

(** [element.querySelector(...)...]: the change is made on the first
    descendant that each step finds in turn; a step that finds nothing
    yields [null], and the access to it throws. *)
Fixpoint into (steps : list Step) (f : Node -> Change Node) (n : Node)
  : Change Node :=
  match steps with
  | [] => f n
  | s :: steps' =>
      match n with
      | Element tag id classes style_ children =>
          match change_among (matches s) (into steps' f) children with
          | Some r => map_change (Element tag id classes style_) r
          | None => Throws
          end
      | TextNode _ => Throws
      end
  end.

(** The number of elements that satisfy [p]. *)
Fixpoint count (p : Node -> bool) (n : Node) {struct n} : nat :=
  ((if p n then 1 else 0)
   + match n with
     | Element _ _ _ _ children =>
         (fix among (l : list Node) : nat :=
            match l with
            | [] => 0
            | x :: l' => count p x + among l'
            end) children
     | TextNode _ => 0
     end)%nat.

Fixpoint count_among (p : Node -> bool) (l : list Node) : nat :=
  match l with
  | [] => 0%nat
  | x :: l' => (count p x + count_among p l')%nat
  end.

(** The first node in document order that satisfies [p]. *)
Fixpoint first_in (p : Node -> bool) (n : Node) {struct n} : option Node :=
  if p n then Some n
  else match n with
       | Element _ _ _ _ children =>
           (fix among (l : list Node) : option Node :=
              match l with
              | [] => None
              | x :: l' =>
                  match first_in p x with
                  | Some r => Some r
                  | None => among l'
                  end
              end) children
       | TextNode _ => None
       end.

Fixpoint first_among (p : Node -> bool) (l : list Node) : option Node :=
  match l with
  | [] => None
  | x :: l' =>
      match first_in p x with
      | Some r => Some r
      | None => first_among p l'
      end
  end.

(** [e.textContent], read: the texts below [e], in document order. *)
Fixpoint text_of (n : Node) {struct n} : string :=
  match n with
  | Element _ _ _ _ children =>
      (fix all (l : list Node) : string :=
         match l with
         | [] => ""
         | x :: l' => text_of x ++ all l'
         end) children
  | TextNode t => t
  end.

Fixpoint text_among (l : list Node) : string :=
  match l with
  | [] => ""
  | x :: l' => text_of x ++ text_among l'
  end.

Definition node_id (n : Node) : string :=
  match n with
  | Element _ id _ _ _ => id
  | TextNode _ => ""
  end.

Definition child_nodes (n : Node) : list Node :=
  match n with
  | Element _ _ _ _ children => children
  | TextNode _ => []
  end.

(** [e.querySelector('.class').textContent], read; [None] without such a
    descendant. *)
Definition shown (class : string) (n : Node) : option string :=
  option_map text_of (first_among (matches (ByClass class)) (child_nodes n)).

(** ** Scripts of the page

    A script runs on the document and either ends, or throws and leaves the
    document as it is then. *)

Inductive Outcome :=
| Done (doc : list Node)
| Thrown (doc : list Node)
| Unmodelled.

Definition Script := list Node -> Outcome.

Definition and_then (a b : Script) : Script :=
  fun doc =>
    match a doc with
    | Done doc' => b doc'
    | o => o
    end.

Notation "a ;; b" := (and_then a b) (at level 61, right associativity).

Definition skip : Script := Done.

(** [document.<first step>...<last step>.<property> = ...] *)
Definition on (s : Step) (steps : list Step) (f : Node -> Change Node)
  : Script :=
  fun doc =>
    match change_among (matches s) (into steps f) doc with
    | Some (Changed doc') => Done doc'
    | Some Throws | None => Thrown doc
    | Some NotModelled => Unmodelled
    end.

(** [e.textContent = t] *)
Definition textContent (t : string) (n : Node) : Change Node :=
  match n with
  | Element tag id classes style_ _ =>
      Changed (Element tag id classes style_ (text t))
  | TextNode _ => Changed (TextNode t)
  end.

(** The texts [d.d%] and [d%], which every browser takes as a width. *)
Definition is_percentage (v : string) : bool :=
  match strip_percent v with
  | Some d =>
      let '(ip, rest) := span_digits d in
      negb (String.eqb ip "")
      && match rest with
         | "" => true
         | String "." fp =>
             let '(fd, rest') := span_digits fp in
             negb (String.eqb fd "") && String.eqb rest' ""
         | _ => false
         end
  | None => false
  end.

Fixpoint set_property (k v : string) (st : list (string * string))
  : list (string * string) :=
  match st with
  | [] => [(k, v)]
  | (k', v') :: st' =>
      if String.eqb k' k then (k, v) :: st' else (k', v') :: set_property k v st'
  end.

(** [e.style.width = v]; what the style becomes for a text that is not a
    percentage depends on the CSS parser and is not modelled. *)
Definition style_width (v : string) (n : Node) : Change Node :=
  match n with
  | Element tag id classes style_ children =>
      if is_percentage v
      then Changed (Element tag id classes (set_property "width" v style_)
                            children)
      else NotModelled
  | TextNode _ => NotModelled
  end.

Fixpoint for_each {A} (l : list A) (body : A -> Script) : Script :=
  match l with
  | [] => skip
  | a :: l' => body a ;; for_each l' body
  end.

(** [if (document.getElementById(id)) { ... }] *)
Definition when_present (id : string) (body : Script) : Script :=
  fun doc =>
    match change_among (matches (ById id)) Changed doc with
    | Some _ => body doc
    | None => Done doc
    end.

Definition updateUI (specs : Snapshot) : Script :=
  on (ById "memory-used") [] (textContent (used (memory specs))) ;;
  on (ById "memory-free") [] (textContent (free (memory specs))) ;;
  on (ByClass "memory-fill") []
     (style_width (usedPercentage (memory specs))) ;;
  on (ByClass "memory-fill") [] (textContent (used (memory specs))) ;;
  on (ById "disk-used") [] (textContent (used (disk specs))) ;;
  on (ById "disk-free") [] (textContent (free (disk specs))) ;;
  on (ByClass "disk-fill") [] (style_width (usedPercentage (disk specs))) ;;
  on (ByClass "disk-fill") [] (textContent (used (disk specs))) ;;
  for_each (cpu specs)
    (fun core_ =>
       let id := "cpu-core-" ++ integer_text (core core_) in
       when_present id
         (fun doc =>
            match usage_figure (idle (times core_)) 1 with
            | Some totalUsage =>
                (on (ById id) [ByClass "metric-value"]
                    (textContent ("Total Usage: " ++ totalUsage ++ "%")) ;;
                 on (ById id) [ByClass "segment-user"]
                    (style_width (user (times core_))) ;;
                 on (ById id) [ByClass "segment-system"]
                    (style_width (system (times core_))) ;;
                 on (ById id) [ByClass "segment-idle"]
                    (style_width (idle (times core_))) ;;
                 on (ById id) [ByClass "user-percent"]
                    (textContent (user (times core_))) ;;
                 on (ById id) [ByClass "system-percent"]
                    (textContent (system (times core_))) ;;
                 on (ById id) [ByClass "idle-percent"]
                    (textContent (idle (times core_)))) doc
            | None => Unmodelled
            end)) ;;
  on (ById "uptime") [] (textContent (uptime specs)).

(** ** The page [app.get('/')] renders *)

(** The card of a core, with the usage figure computed for it. *)
Definition card_of (c : CoreMetric) (usage_ : string) : Node :=
  Element "div" ("cpu-core-" ++ integer_text (core c))
     ["cpu-core-card"] []
     [el "div" ["spec-item"]
        [el "div" ["usage-label"]
           [el "span" []
              [TextNode ("Core " ++ integer_text (core c)
                         ++ " (" ++ speed c ++ ")")];
            el "span" ["metric-value"]
              [TextNode ("Usage: " ++ usage_ ++ "%")]];
         el "div" ["usage-bar"]
           [el "div" ["segment-bar"]
              [Element "div" "" ["segment"; "segment-user"]
                 [("width", user (times c))] [];
               Element "div" "" ["segment"; "segment-system"]
                 [("width", system (times c))] [];
               Element "div" "" ["segment"; "segment-idle"]
                 [("width", idle (times c))] []]];
         el "div" ["legend"]
           [el "div" ["legend-item"]
              [Element "div" "" ["legend-color"]
                 [("background", "#2196F3")] [];
               el "span" []
                 [TextNode "User: ";
                  el "span" ["user-percent"]
                    (text (user (times c)))]];
            el "div" ["legend-item"]
              [Element "div" "" ["legend-color"]
                 [("background", "#FF9800")] [];
               el "span" []
                 [TextNode "System: ";
                  el "span" ["system-percent"]
                    (text (system (times c)))]];
            el "div" ["legend-item"]
              [Element "div" "" ["legend-color"]
                 [("background", "#E0E0E0")] [];
               el "span" []
                 [TextNode "Idle: ";
                  el "span" ["idle-percent"]
                    (text (idle (times c)))]]]]].

(** The texts of a core that its card splices in. *)
Definition plain_core (c : CoreMetric) : bool :=
  plain (speed c) && plain (user (times c)) && plain (system (times c))
  && plain (idle (times c)).

Definition core_card (c : CoreMetric) : option Node :=
  if plain_core c
  then option_map (card_of c) (usage_figure (idle (times c)) 2)
  else None.

Fixpoint core_cards (cores : list CoreMetric) : option (list Node) :=
  match cores with
  | [] => Some []
  | c :: cores' =>
      match core_card c, core_cards cores' with
      | Some n, Some ns => Some (n :: ns)
      | _, _ => None
      end
  end.

Definition indicator_dot (i : nat) : Node :=
  el "div" (if Nat.eqb i 0 then ["indicator-dot"; "active"]
            else ["indicator-dot"]) [].

(** The five sections of the page, for a snapshot whose texts are plain
    ([render] builds them for no other).  [memory_used] and [memory_free]
    are the texts of the two elements of these ids. *)
Definition cpu_section (cards : list Node) (dots : nat) : Node :=
  el "div" ["card"]
    [el "h2" [] [TextNode "CPU Usage"];
     el "div" ["cpu-carousel"]
       [el "button" ["carousel-button"; "prev"] [TextNode "←"];
        el "button" ["carousel-button"; "next"] [TextNode "→"];
        Element "div" "cpuContainer" ["cpu-container"] [] cards];
     Element "div" "carouselIndicator" ["carousel-indicator"] []
       (map indicator_dot (seq 0 dots))].

Definition memory_section (initialSpecs : Snapshot)
  (memory_used memory_free : string) : Node :=
  el "div" ["card"]
    [el "h2" [] [TextNode "Memory Usage"];
     el "div" ["spec-item"]
       [el "span" ["spec-label"] [TextNode "Total:"];
        TextNode (" " ++ total (memory initialSpecs))];
     el "div" ["spec-item"]
       [el "span" ["spec-label"] [TextNode "Used:"];
        Element "span" "memory-used" [] [] (text memory_used);
        el "div" ["usage-bar"]
          [Element "div" "" ["usage-fill"]
             [("width", usedPercentage (memory initialSpecs))]
             (text (used (memory initialSpecs)))]];
     el "div" ["spec-item"]
       [el "span" ["spec-label"] [TextNode "Free:"];
        Element "span" "memory-free" [] [] (text memory_free)]].

Definition disk_section (initialSpecs : Snapshot) : Node :=
  el "div" ["card"]
    [el "h2" [] [TextNode "Disk Usage"];
     el "div" ["spec-item"]
       [el "span" ["spec-label"] [TextNode "Total:"];
        TextNode (" " ++ total (disk initialSpecs))];
     el "div" ["spec-item"]
       [el "span" ["spec-label"] [TextNode "Used:"];
        Element "span" "disk-used" [] [] (text (used (disk initialSpecs)));
        el "div" ["usage-bar"]
          [Element "div" "" ["usage-fill"]
             [("width", usedPercentage (disk initialSpecs))]
             (text (used (disk initialSpecs)))]];
     el "div" ["spec-item"]
       [el "span" ["spec-label"] [TextNode "Free:"];
        Element "span" "disk-free" [] [] (text (free (disk initialSpecs)))]].

Definition network_section (initialSpecs : Snapshot) : Node :=
  el "div" ["card"]
    [el "h2" [] [TextNode "Network"];
     el "div" ["spec-item"]
       [el "span" ["spec-label"] [TextNode "Private IP:"];
        TextNode (" " ++ privateIP (network initialSpecs))];
     el "div" ["spec-item"]
       [el "span" ["spec-label"] [TextNode "Hostname:"];
        TextNode (" " ++ net_hostname (network initialSpecs))]].

Definition system_section (initialSpecs : Snapshot) : Node :=
  el "div" ["card"]
    [el "h2" [] [TextNode "System Information"];
     el "div" ["spec-item"]
       [el "span" ["spec-label"] [TextNode "OS:"];
        TextNode (" " ++ type (os initialSpecs) ++ " "
                  ++ release (os initialSpecs))];
     el "div" ["spec-item"]
       [el "span" ["spec-label"] [TextNode "Architecture:"];
        TextNode (" " ++ arch (os initialSpecs))];
     el "div" ["spec-item"]
       [el "span" ["spec-label"] [TextNode "Uptime:"];
        Element "span" "uptime" [] [] (text (uptime initialSpecs))];
     el "div" ["button-container"]
       [el "button" ["button"; "restart"] [TextNode "Restart System"];
        el "button" ["button"; "poweroff"] [TextNode "Power Off"]]].

(** The page of [initialSpecs], given its cards and the number of its
    dots. *)
Definition page (initialSpecs : Snapshot) (cards : list Node) (dots : nat)
  (memory_used memory_free : string) : list Node :=
  [el "html" []
     [el "head" []
        [el "title" [] [TextNode "System Monitor"];
         el "style" [] []];
      el "body" []
        [el "div" ["container"]
           [el "h1" [] [TextNode "System Monitor"];
            el "div" ["auto-update"] [TextNode "Auto-updating every second"];
            cpu_section cards dots;
            memory_section initialSpecs memory_used memory_free;
            disk_section initialSpecs;
            network_section initialSpecs;
            system_section initialSpecs];
         el "script" [] []]]].

(** The texts of the snapshot that the page splices in outside its
    cards. *)
Definition plain_page (initialSpecs : Snapshot) : bool :=
  plain (total (memory initialSpecs)) && plain (used (memory initialSpecs))
  && plain (free (memory initialSpecs))
  && plain (usedPercentage (memory initialSpecs))
  && plain (total (disk initialSpecs)) && plain (used (disk initialSpecs))
  && plain (free (disk initialSpecs))
  && plain (usedPercentage (disk initialSpecs))
  && plain (privateIP (network initialSpecs))
  && plain (net_hostname (network initialSpecs))
  && plain (type (os initialSpecs)) && plain (release (os initialSpecs))
  && plain (arch (os initialSpecs)) && plain (uptime initialSpecs).

(** [res.send] of the route: the page of the snapshot, with one card per
    core and one dot per three cores.  The page of a snapshot with a text
    that is not plain is outside the model ([None]). *)
Definition render (initialSpecs : Snapshot) : option (list Node) :=
  if plain_page initialSpecs
  then match core_cards (cpu initialSpecs),
             indicator_count (List.length (cpu initialSpecs)) with
       | Some cards, Some dots =>
           Some (page initialSpecs cards dots
                      (used (memory initialSpecs))
                      (free (memory initialSpecs)))
       | _, _ => None
       end
  else None.

(** [ws.onmessage]: the document once [updateUI] has run on the snapshot
    received, to its end or to the statement that throws. *)
Definition onmessage (doc : option (list Node)) (specs : Snapshot)
  : option (list Node) :=
  match doc with
  | Some d =>
      match updateUI specs d with
      | Done d' => Some d'
      | Thrown d' => Some d'
      | Unmodelled => None
      end
  | None => None
  end.

(** The handler of [app.get('/')]: the snapshot is sampled, and the page
    rendered from it is sent. *)
Definition get_root (h : Host) : option (list Node) :=
  match getSystemInfo h with
  | Some initialSpecs => render initialSpecs
  | None => None
  end.

(** ** The carousel of the page *)

Definition itemsPerPage : number := of_Z 3.

(** [moveCarousel(direction)]: the value it gives [currentPage], from the
    number of cards in the document.  [updateCarouselPosition], which then
    moves the container by a width the layout gives, is not modelled. *)
Definition moveCarousel (doc : list Node) (currentPage direction : number)
  : number :=
  let totalCores :=
    of_Z (Z.of_nat (count_among (matches (ByClass "cpu-core-card")) doc)) in
  let maxPages :=
    js_sub (Math_ceil (js_div totalCores itemsPerPage)) (of_Z 1) in
  Math_max (of_Z 0) (Math_min maxPages (js_add currentPage direction)).

Definition goToPage (page_ : number) : number := page_.

(** What the user can click: the two arrows, and the dot of index [i]. *)
Inductive Click :=
| Previous
| Next
| Dot (i : nat).

Definition click (doc : list Node) (currentPage : number) (c : Click)
  : number :=
  match c with
  | Previous => moveCarousel doc currentPage (of_Z (-1))
  | Next => moveCarousel doc currentPage (of_Z 1)
  | Dot i => goToPage (of_Z (Z.of_nat i))
  end.

(** The dot clicked is one of the dots of the document. *)
Definition on_page (doc : list Node) (c : Click) : Prop :=
  match c with
  | Dot i => (i < count_among (matches (ByClass "indicator-dot")) doc)%nat
  | _ => True
  end.

(** ** The control buttons of the page

    [confirmAction(action)]: the question put to the user, the request
    [fetch] sends when the answer is yes, and what [alert] shows.  [fetch]
    resolves with the response whatever its status, and rejects only when no
    response arrives. *)

Inductive Fetch :=
| Answered
| Unreachable (error : string).

(** The handlers the server registers for [POST]; there is none for another
    path, and what Express answers then is not modelled. *)
Definition post (path : string) (exec : string -> option string)
  : option Handled :=
  if String.eqb path "/system/restart" then Some (post_system_restart exec)
  else if String.eqb path "/system/shutdown"
       then Some (post_system_shutdown exec)
       else None.

Record Dialog := {
  asked : string;
  alerted : option string;
  served : option Handled
}.

(** [alert(v)] shows the text of [v]; a missing property is [undefined]. *)
Definition alert_text (v : option string) : string :=
  match v with
  | Some t => t
  | None => "undefined"
  end.

Definition confirmAction (action : string) (confirmed : bool) (net : Fetch)
  (exec : string -> option string) : option Dialog :=
  let message :=
    if String.eqb action "restart"
    then "Are you sure you want to restart the system?"
    else "Are you sure you want to shut down the system?" in
  if confirmed
  then match net with
       | Answered =>
           match post ("/system/" ++ action) exec with
           | Some handled =>
               Some {| asked := message;
                       alerted :=
                         Some (alert_text
                                 (field "message"
                                        (body (response handled))));
                       served := Some handled |}
           | None => None
           end
       | Unreachable error =>
           Some {| asked := message;
                   alerted := Some ("Error: " ++ error);
                   served := None |}
       end
  else Some {| asked := message; alerted := None; served := None |}.


(** * Vocabulary of the statements *)

(** The test [getPrivateIP] applies to an address. *)
Definition wanted (iface : Iface) : bool :=
  String.eqb (family iface) "IPv4" && negb (internal iface).

(** The non-loopback IPv4 addresses of the host, in enumeration order:
    interface by interface, and address by address within each. *)
Definition candidates (h : Host) : list Iface :=
  filter wanted
         (List.concat (map snd (os_networkInterfaces h))).

(** A session on which nothing can be pushed any more: its timer is cleared
    or its socket has left the open state. *)
Definition detached (s : Session) : Prop :=
  interval s = None \/ is_open (readyState s) = false.

(** A control handler that would hand the cause of a failure to its caller:
    the [error] text of the 500 response contains it. *)
Definition forwards_cause
  (handler : (string -> option string) -> Handled) (command : string) : Prop :=
  forall exec cause,
    exec command = Some cause ->
    status (response (handler exec)) = 500 /\
    exists text,
      field "error" (body (response (handler exec))) = Some text /\
      includes cause text = true.

(** ** Rounding to binary64, stated on integers and rationals *)

(** Where [N / D] lies between two integers, as the shift register of
    [SpecFloat] records it: the integer below, whether the rest reaches one
    half, and whether anything is left beside that half. *)
Definition locate (N D : Z) : shr_record :=
  {| shr_m := N / D;
     shr_r := D <=? 2 * (N mod D);
     shr_s := negb (N mod D =? 0) && negb (2 * (N mod D) =? D) |}.

(** The integer nearest to [N / D], the even one on a tie. *)
Definition rne (N D : Z) : Z :=
  match 2 * (N mod D) ?= D with
  | Lt => N / D
  | Eq => if Z.even (N / D) then N / D else N / D + 1
  | Gt => N / D + 1
  end.

(** The normal float of value [M * 2^E], for [M >= 0] whose digits fit. *)
Definition dyadic (M E : Z) : spec_float :=
  match M with
  | Z0 => S754_zero false
  | _ =>
      let d := Zdigits2 M in
      if d <=? 53
      then S754_finite false (Z.to_pos (M * 2 ^ (53 - d))) (E + d - 53)
      else S754_finite false (Z.to_pos (M / 2 ^ (d - 53))) (E + d - 53)
  end.

(** No digit of [M] is lost in 53 bits. *)
Definition representable (M : Z) : Prop :=
  M mod 2 ^ Z.max 0 (Zdigits2 M - 53) = 0.

(** A mantissa of exactly 53 bits. *)
Definition mantissa53 (m : positive) : Prop := 2 ^ 52 <= Zpos m < 2 ^ 53.

(** The float nearest to [N / D * 2^e], in the normal range. *)
Definition nearest (s : bool) (N D e : Z) : spec_float :=
  let n := Zdigits2 (N / D) - 53 in
  let m1 := rne N (D * 2 ^ n) in
  if m1 <? 2 ^ 53
  then S754_finite s (Z.to_pos m1) (e + n)
  else S754_finite s (Z.to_pos (2 ^ 52)) (e + n + 1).

(** The rational a finite number denotes. *)
Definition F2Q (x : spec_float) : Q :=
  match x with
  | S754_finite s m e => inject_Z (cond_Zopp s (Zpos m)) * 2 ^ e
  | _ => 0
  end.

(** ** Formatting *)

(** The fractional digits of [r], padded to [f] places, read back as [r]. *)
Definition fraction_ok (f : nat) (r : nat) : bool :=
  Nat.eqb (String.length (pad_left f (digits_of (Z.of_nat r)))) f
  && match natural_value (pad_left f (digits_of (Z.of_nat r))) with
     | Some v => v =? Z.of_nat r
     | None => false
     end.

(** The index in [units] of the unit of [b] bytes: the number of times
    [b] can be divided by 1024 and stay at least 1, at most 4. *)
Definition unit_index (b : Z) : nat :=
  if b <? 1024 then 0%nat
  else if b <? 1024 ^ 2 then 1%nat
  else if b <? 1024 ^ 3 then 2%nat
  else if b <? 1024 ^ 4 then 3%nat
  else 4%nat.

(** ** Sample hosts *)

Definition no_disk (_ : string) : DiskCheck := Rejected "ENOENT".

Definition some_disk (_ : string) : DiskCheck :=
  Resolved {| disk_available := of_Z 300000000000;
              disk_free := of_Z 350000000000;
              disk_total := of_Z 500000000000 |}.

Definition sample_cpu : Cpu :=
  {| cpu_model := "Synthetic";
     cpu_speed := of_Z 2400;
     cpu_times := [("user", of_Z 200); ("sys", of_Z 100);
                   ("idle", of_Z 700)] |}.

Definition sample_interfaces : list (string * list Iface) :=
  [("lo", [{| address := "127.0.0.1"; family := "IPv4"; internal := true |};
           {| address := "::1"; family := "IPv6"; internal := true |}]);
   ("eth0", [{| address := "192.168.1.20"; family := "IPv4";
                internal := false |};
             {| address := "fe80::1"; family := "IPv6"; internal := false |}]);
   ("wlan0", [{| address := "10.0.0.7"; family := "IPv4";
                 internal := false |}])].

Definition sample_host (check : string -> DiskCheck)
  (ifaces : list (string * list Iface)) : Host :=
  {| os_platform := "linux";
     os_type := "Linux";
     os_release := "6.1.0";
     os_arch := "x64";
     os_hostname := "probe";
     os_cpus := [sample_cpu];
     os_totalmem := of_Z 17179869184;
     os_freemem := of_Z 4294967296;
     os_networkInterfaces := ifaces;
     os_uptime := of_Z 90061;
     disk_check := check |}.

(** A host with a core that has not counted anything yet. *)
Definition booting_host : Host :=
  {| os_platform := "linux";
     os_type := "Linux";
     os_release := "6.1.0";
     os_arch := "x64";
     os_hostname := "probe";
     os_cpus := [sample_cpu;
                 {| cpu_model := "Synthetic";
                    cpu_speed := of_Z 2400;
                    cpu_times := [("user", of_Z 0); ("sys", of_Z 0);
                                  ("idle", of_Z 0)] |}];
     os_totalmem := of_Z 17179869184;
     os_freemem := of_Z 4294967296;
     os_networkInterfaces := sample_interfaces;
     os_uptime := of_Z 90061;
     disk_check := some_disk |}.

(** A host with seven cores, each busier than the one before. *)
Definition seven_core_host : Host :=
  {| os_platform := "linux";
     os_type := "Linux";
     os_release := "6.1.0";
     os_arch := "x64";
     os_hostname := "probe";
     os_cpus :=
       map (fun k =>
              {| cpu_model := "Synthetic";
                 cpu_speed := of_Z 2400;
                 cpu_times := [("user", of_Z (100 * k)); ("sys", of_Z 100);
                               ("idle", of_Z (900 - 100 * k))] |})
           [0; 1; 2; 3; 4; 5; 6];
     os_totalmem := of_Z 17179869184;
     os_freemem := of_Z 4294967296;
     os_networkInterfaces := sample_interfaces;
     os_uptime := of_Z 90061;
     disk_check := some_disk |}.

(** ** Invariants of the records *)

(** What the specification asks of a usage record: the raw byte counts add
    up, and the two percentages read back to numbers that sum to 100 within
    0.01. *)
Definition usage_invariant (um : UsageMetric) : Prop :=
  js_add (usedRaw um) (freeRaw um) = totalRaw um
  /\ exists pu pf : Q,
      percent_value (usedPercentage um) = Some pu
      /\ percent_value (freePercentage um) = Some pf
      /\ (Qabs (pu + pf - 100) <= 1 # 100)%Q.

(** Integer counters of a core, state by state, and the [times] object that
    holds them. *)
Definition total_of (counters : list (string * Z)) : Z :=
  fold_right Z.add 0 (map snd counters).

Definition as_times (counters : list (string * Z)) : list (string * number) :=
  map (fun kv => (fst kv, of_Z (snd kv))) counters.

(** Distinct states, non-negative counts, a sum that is still an exact
    number. *)
Definition well_counted (counters : list (string * Z)) : Prop :=
  NoDup (map fst counters)
  /\ Forall (fun kv => 0 <= snd kv) counters
  /\ total_of counters < 2 ^ 53.

(** [n / 10] is the tenth nearest to the percentage of [c] in [T], up to
    the rounding of the two floating-point operations. *)
Definition nearest_tenth (n c T : Z) : Prop :=
  (Qabs ((n # 10) - 100 * (inject_Z c / inject_Z T))
   <= (1 # 20) + (1 # 10000000000))%Q.

(** The claim on cores with the three states only, as the specification
    words it. *)
Definition three_state_claim : Prop :=
  forall (index : nat) (cpu : Cpu) (u s i : number) (m : CoreMetric),
    cpu_times cpu = [("user", u); ("sys", s); ("idle", i)] ->
    core_metric index cpu = Some m ->
    exists pu ps pi : Q,
      percent_value (user (times m)) = Some pu
      /\ percent_value (system (times m)) = Some ps
      /\ percent_value (idle (times m)) = Some pi
      /\ (Qabs (pu + ps + pi - 100) <= 1 # 10)%Q.

(** The claim on sessions, as the specification words it: every session
    gets one delivery at once and one more at each tick, in whatever state
    the handler finds its socket. *)
Definition lifecycle_claim : Prop :=
  forall (host_at : nat -> Host) (ws : ReadyState) (t0 ms : nat),
    List.length
      (delivered (elapse host_at ms (on_connection host_at ws t0)))
    = (1 + ms / 1000)%nat.

(** The claim on usage records, as the specification words it. *)
Definition usage_claim : Prop :=
  forall (h : Host) (um : UsageMetric),
    getMemoryInfo h = Some um \/ getDiskInfo h = Some um ->
    usage_invariant um.

Definition idle_cpu : Cpu :=
  {| cpu_model := "Synthetic";
     cpu_speed := of_Z 2400;
     cpu_times := [("user", of_Z 0); ("sys", of_Z 0); ("idle", of_Z 0)] |}.

(** ** Runs of events *)

(** The milliseconds a run of events lets pass before its first close or
    error, the milliseconds it lets pass in all, and whether it holds a close
    or an error. *)
Fixpoint attached_ms (evs : list Event) : nat :=
  match evs with
  | Elapse ms :: rest => ms + attached_ms rest
  | _ => 0
  end.

Fixpoint elapsed_ms (evs : list Event) : nat :=
  match evs with
  | [] => 0
  | Elapse ms :: rest => ms + elapsed_ms rest
  | _ :: rest => elapsed_ms rest
  end.

Definition ends_session (ev : Event) : bool :=
  match ev with
  | Elapse _ => false
  | _ => true
  end.

(** ** Hosts with the readings of an operating system *)

(** A core whose counters and clock speed are integers, with the three
    states the sampler reads among its states. *)
Definition integer_cpu (cpu : Cpu) : Prop :=
  exists (counters : list (string * Z)) (mhz u s i : Z),
    cpu_times cpu = as_times counters /\ well_counted counters
    /\ cpu_speed cpu = of_Z mhz /\ 0 <= mhz < 2 ^ 53
    /\ In ("user", u) counters /\ In ("sys", s) counters
    /\ In ("idle", i) counters.

(** A total and a free byte count that are integers, the free one within
    the total. *)
Definition integer_usage (total_ free_ : number) : Prop :=
  exists t f : Z,
    0 <= f <= t /\ 0 < t < 2 ^ 53 /\ total_ = of_Z t /\ free_ = of_Z f.

(** A host whose readings are the ones an operating system gives: integer
    counters and byte counts, an uptime with a binary fraction, a disk that
    is either measured or unavailable. *)
Definition integer_host (h : Host) : Prop :=
  Forall integer_cpu (os_cpus h)
  /\ integer_usage (os_totalmem h) (os_freemem h)
  /\ match disk_check h "/" with
     | Resolved info => integer_usage (disk_total info) (disk_free info)
     | Rejected _ => True
     end
  /\ exists M e : Z,
       0 <= M < 2 ^ 53 /\ -948 <= e <= 0 /\ os_uptime h = dyadic M e.



(** ** The page *)

(** The usage figures complement every idle text from 0.0% to 100.0%. *)
Definition complements (n : nat) : bool :=
  let idle_ := fixed_text (Z.of_nat n) 1 ++ "%" in
  match usage_figure idle_ 1, usage_figure idle_ 2 with
  | Some t1, Some t2 =>
      String.eqb t1 (fixed_text (1000 - Z.of_nat n) 1)
      && String.eqb t2 (fixed_text (10 * (1000 - Z.of_nat n)) 2)
  | _, _ => false
  end.

(** No element of a card has one of the ids or classes the first statements
    of [updateUI] look for. *)
Definition outside_cards (s : Step) : Prop :=
  s = ById "memory-used" \/ s = ById "memory-free"
  \/ s = ByClass "memory-fill".

(** The command behind each button. *)
Definition command_of (action : string) : string :=
  if String.eqb action "restart" then "sudo shutdown -r now"
  else "sudo shutdown -h now".

(** What the card of a core shows: its id, the usage figure computed from
    the idle text, and the three percentages. *)
Definition shows_core (m : CoreMetric) (card : Node) : Prop :=
  node_id card = "cpu-core-" ++ integer_text (core m)
  /\ (exists fig,
        usage_figure (idle (times m)) 2 = Some fig
        /\ shown "metric-value" card = Some ("Usage: " ++ fig ++ "%"))
  /\ shown "user-percent" card = Some (user (times m))
  /\ shown "system-percent" card = Some (system (times m))
  /\ shown "idle-percent" card = Some (idle (times m)).

(** A core that has not counted anything yet. *)
Definition zero_core (cpu : Cpu) : Prop :=
  Forall (fun kv : string * number => snd kv = of_Z 0) (cpu_times cpu).

(** The texts of the host that reach the page are plain. *)
Definition plain_host (h : Host) : Prop :=
  plain (os_type h) = true /\ plain (os_release h) = true
  /\ plain (os_arch h) = true /\ plain (os_hostname h) = true
  /\ plain (getPrivateIP h) = true.

(** The snapshot of the host with seven cores. *)
Definition seven_core_specs : Snapshot :=
  Eval vm_compute in
    match getSystemInfo seven_core_host with
    | Some initialSpecs => initialSpecs
    | None =>
        {| os := {| platform := ""; type := ""; release := ""; arch := "";
                    hostname := "" |};
           cpu := [];
           memory := disk_unavailable;
           disk := disk_unavailable;
           network := {| privateIP := ""; net_hostname := "";
                         interfaces := [] |};
           uptime := "" |}
    end.

(** The snapshot of the sample host whose disk is measured. *)
Definition sample_specs : Snapshot :=
  {| os := {| platform := "linux"; type := "Linux"; release := "6.1.0";
              arch := "x64"; hostname := "probe" |};
     cpu := [{| core := 1; model := "Synthetic"; speed := "2400 MHz";
                times := {| user := "20.0%"; system := "10.0%";
                            idle := "70.0%"; rawTotal := of_Z 1000;
                            rawUser := Some (of_Z 200);
                            rawSystem := Some (of_Z 100);
                            rawIdle := Some (of_Z 700) |} |}];
     memory := {| total := "16.00 GB"; free := "4.00 GB"; used := "12.00 GB";
                  usedPercentage := "75.00%"; freePercentage := "25.00%";
                  totalRaw := of_Z 17179869184; freeRaw := of_Z 4294967296;
                  usedRaw := of_Z 12884901888 |};
     disk := {| total := "465.66 GB"; free := "325.96 GB";
                used := "139.70 GB";
                usedPercentage := "30.00%"; freePercentage := "70.00%";
                totalRaw := of_Z 500000000000; freeRaw := of_Z 350000000000;
                usedRaw := of_Z 150000000000 |};
     network := {| privateIP := "10.0.0.7"; net_hostname := "probe";
                   interfaces := sample_interfaces |};
     uptime := "1d 1h 1m 1s" |}.

(** A later snapshot of the same host. *)
Definition later_specs : Snapshot :=
  {| os := os sample_specs;
     cpu := [{| core := 1; model := "Synthetic"; speed := "2400 MHz";
                times := {| user := "55.5%"; system := "4.5%";
                            idle := "40.0%"; rawTotal := of_Z 2000;
                            rawUser := Some (of_Z 1110);
                            rawSystem := Some (of_Z 90);
                            rawIdle := Some (of_Z 800) |} |}];
     memory := {| total := "16.00 GB"; free := "2.00 GB"; used := "14.00 GB";
                  usedPercentage := "87.50%"; freePercentage := "12.50%";
                  totalRaw := of_Z 17179869184; freeRaw := of_Z 2147483648;
                  usedRaw := of_Z 15032385536 |};
     disk := {| total := "465.66 GB"; free := "325.00 GB";
                used := "140.66 GB";
                usedPercentage := "30.21%"; freePercentage := "69.79%";
                totalRaw := of_Z 500000000000; freeRaw := of_Z 348966092800;
                usedRaw := of_Z 151033907200 |};
     network := network sample_specs;
     uptime := "1d 1h 1m 2s" |}.

(** * Properties *)

(** ** Binary64 arithmetic *)

Lemma shr_1_halves (m : Z) (r s : bool) :
  0 <= m ->
  shr_1 {| shr_m := m; shr_r := r; shr_s := s |}
  = {| shr_m := m / 2; shr_r := Z.odd m; shr_s := r || s |}.
Proof.
  intros Hm. destruct m as [|p|p]; [reflexivity| |lia].
  destruct p as [p|p|]; cbn [shr_1].
  - f_equal. rewrite Pos2Z.inj_xI. apply Z.div_unique with 1; lia.
  - f_equal. rewrite Pos2Z.inj_xO. apply Z.div_unique with 0; lia.
  - reflexivity.
Qed.

Lemma locate_double (N D : Z) :
  0 <= N -> 0 < D -> shr_1 (locate N D) = locate N (2 * D).
Proof.
  intros HN HD. unfold locate.
  rewrite shr_1_halves by (apply Z.div_pos; lia).
  pose proof (Z.div_mod N D ltac:(lia)) as E1.
  pose proof (Z.mod_pos_bound N D HD) as B1.
  pose proof (Z.div_mod (N / D) 2 ltac:(lia)) as E2.
  pose proof (Z.mod_pos_bound (N / D) 2 ltac:(lia)) as B2.
  assert (Hq : N / (2 * D) = N / D / 2).
  { rewrite (Z.mul_comm 2 D), Z.div_div by lia. reflexivity. }
  assert (Hr : N mod (2 * D) = N mod D + D * ((N / D) mod 2)).
  { rewrite (Z.mul_comm 2 D). rewrite Z.rem_mul_r by lia. reflexivity. }
  rewrite Hq, Hr, Zmod_odd.
  destruct (Z.odd (N / D)); f_equal;
    repeat match goal with
    | |- context [Z.leb ?a ?b] => destruct (Z.leb_spec a b)
    | |- context [Z.eqb ?a ?b] => destruct (Z.eqb_spec a b)
    end; cbn; try reflexivity; try lia.
Qed.

Lemma pow2_xO (p : positive) : 2 ^ Z.pos p~0 = 2 ^ Z.pos p * 2 ^ Z.pos p.
Proof. rewrite Pos2Z.inj_xO, <- Z.pow_add_r by lia. f_equal. lia. Qed.

Lemma pow2_xI (p : positive) : 2 ^ Z.pos p~1 = 2 * (2 ^ Z.pos p * 2 ^ Z.pos p).
Proof.
  rewrite Pos2Z.inj_xI, <- Z.pow_add_r, <- Z.pow_succ_r by lia. f_equal. lia.
Qed.

Lemma locate_iter (p : positive) (N D : Z) :
  0 <= N -> 0 < D ->
  iter_pos shr_1 p (locate N D) = locate N (D * 2 ^ Zpos p).
Proof.
  intros HN. revert D.
  induction p as [p IH|p IH|]; intros D HD; cbn [iter_pos].
  - assert (0 < 2 ^ Z.pos p) by (apply Z.pow_pos_nonneg; lia).
    rewrite locate_double, !IH by nia.
    f_equal. rewrite pow2_xI. ring.
  - assert (0 < 2 ^ Z.pos p) by (apply Z.pow_pos_nonneg; lia).
    rewrite !IH by nia.
    f_equal. rewrite pow2_xO. ring.
  - rewrite locate_double by assumption. f_equal. change (2 ^ 1) with 2. ring.
Qed.

Lemma locate_shr (N D e n : Z) :
  0 <= N -> 0 < D ->
  shr (locate N D) e n = (locate N (D * 2 ^ Z.max 0 n), e + Z.max 0 n).
Proof.
  intros HN HD. destruct n as [|p|p]; cbn [shr].
  - change (Z.max 0 0) with 0. rewrite Z.mul_1_r, Z.add_0_r. reflexivity.
  - rewrite locate_iter by assumption. rewrite Z.max_r by lia. reflexivity.
  - rewrite Z.max_l by lia. rewrite Z.mul_1_r, Z.add_0_r. reflexivity.
Qed.

Lemma locate_round (N D : Z) :
  0 < D ->
  round_nearest_even (shr_m (locate N D)) (loc_of_shr_record (locate N D))
  = rne N D.
Proof.
  intros HD. unfold locate, rne, loc_of_shr_record, round_nearest_even.
  cbn [shr_m].
  pose proof (Z.mod_pos_bound N D HD) as B.
  destruct (Z.compare_spec (2 * (N mod D)) D) as [E|E|E];
    repeat match goal with
    | |- context [Z.leb ?a ?b] => destruct (Z.leb_spec a b)
    | |- context [Z.eqb ?a ?b] => destruct (Z.eqb_spec a b)
    end; cbn; try reflexivity; try lia.
Qed.

Lemma locate_exact (m : Z) : shr_record_of_loc m loc_Exact = locate m 1.
Proof.
  unfold locate. rewrite Z.mod_1_r, Z.div_1_r. reflexivity.
Qed.

Ltac split_tests :=
  repeat match goal with
    | |- context [Z.leb ?a ?b] => destruct (Z.leb_spec a b)
    | |- context [Z.eqb ?a ?b] => destruct (Z.eqb_spec a b)
    end; cbn; try reflexivity; try lia.

Lemma locate_division (N D : Z) :
  0 < D ->
  shr_record_of_loc (N / D) (new_location D (N mod D)) = locate N D.
Proof.
  intros HD. unfold locate, new_location, new_location_even, new_location_odd.
  pose proof (Z.mod_pos_bound N D HD) as B.
  destruct (Z.even D) eqn:Ev.
  - destruct (Z.compare_spec (2 * (N mod D)) D) as [C|C|C]; split_tests.
  - assert (Hodd : 2 * (N mod D) <> D).
    { intros C. rewrite <- C, Z.even_mul in Ev. discriminate Ev. }
    destruct (Z.compare_spec (2 * (N mod D) + 1) D) as [C|C|C]; split_tests.
Qed.

Lemma rne_floor_ceil (N D : Z) :
  0 < D -> N / D <= rne N D <= N / D + 1.
Proof.
  intros HD. unfold rne.
  destruct (2 * (N mod D) ?= D); [destruct (Z.even (N / D))| |]; lia.
Qed.

Lemma rne_nonneg (N D : Z) : 0 <= N -> 0 < D -> 0 <= rne N D.
Proof.
  intros HN HD. pose proof (rne_floor_ceil N D HD).
  pose proof (Z.div_pos N D HN HD). lia.
Qed.

(** What [binary_round_aux] computes, once the position of the exact value
    is known. *)
Lemma binary_round_aux_locate (sx : bool) (mx ex : Z) (lx : location)
  (N D : Z) :
  0 <= N -> 0 < D ->
  shr_record_of_loc mx lx = locate N D ->
  binary_round_aux prec emax sx mx ex lx
  = let n := Z.max 0 (fexp prec emax (Zdigits2 mx + ex) - ex) in
    let m1 := rne N (D * 2 ^ n) in
    let n2 := Z.max 0 (fexp prec emax (Zdigits2 m1 + (ex + n)) - (ex + n)) in
    match m1 / 2 ^ n2 with
    | Z0 => S754_zero sx
    | Zpos m =>
        if ex + n + n2 <=? emax - prec
        then S754_finite sx m (ex + n + n2)
        else S754_infinity sx
    | Zneg _ => S754_nan
    end.
Proof.
  intros HN HD Hloc.
  unfold binary_round_aux, shr_fexp.
  rewrite Hloc, locate_shr by assumption.
  assert (HD' : 0 < D * 2 ^ Z.max 0 (fexp prec emax (Zdigits2 mx + ex) - ex)).
  { apply Z.mul_pos_pos; [assumption|]. apply Z.pow_pos_nonneg; lia. }
  rewrite locate_round by assumption.
  rewrite locate_exact, locate_shr by (try lia; apply rne_nonneg; lia).
  cbn [shr_m locate]. rewrite Z.mul_1_l. reflexivity.
Qed.

Lemma fexp_binary64 (e : Z) : fexp prec emax e = Z.max (e - 53) (-1074).
Proof. reflexivity. Qed.

Lemma digits2_size (p : positive) : digits2_pos p = Pos.size p.
Proof. induction p; cbn; congruence. Qed.

Lemma Zdigits2_bounds (m : Z) :
  0 < m -> 2 ^ (Zdigits2 m - 1) <= m < 2 ^ Zdigits2 m.
Proof.
  intros Hm. destruct m as [|p|p]; try lia.
  cbn [Zdigits2]. rewrite digits2_size.
  pose proof (Pos.size_gt p) as G. pose proof (Pos.size_le p) as L.
  apply Pos2Z.pos_lt_pos in G. apply Pos2Z.pos_le_pos in L.
  rewrite Pos2Z.inj_pow in G, L. change (Z.pos p~0) with (2 * Z.pos p) in L.
  split; [|exact G].
  replace (Z.pos (Pos.size p)) with (Z.succ (Z.pos (Pos.size p) - 1)) in L by lia.
  rewrite Z.pow_succ_r in L by lia. lia.
Qed.

Lemma Zdigits2_unique (m d : Z) :
  2 ^ (d - 1) <= m < 2 ^ d -> 0 < m -> Zdigits2 m = d.
Proof.
  intros [L U] Hm. pose proof (Zdigits2_bounds m Hm) as [L' U'].
  assert (Hd : 0 < Zdigits2 m) by (destruct m; cbn; lia).
  assert (0 <= d).
  { destruct (Z.le_gt_cases 0 d); [assumption|].
    rewrite Z.pow_neg_r in U by assumption. lia. }
  destruct (Z.lt_trichotomy (Zdigits2 m) d) as [C|[C|C]]; [|assumption|].
  - assert (2 ^ Zdigits2 m <= 2 ^ (d - 1)) by (apply Z.pow_le_mono_r; lia). lia.
  - assert (2 ^ d <= 2 ^ (Zdigits2 m - 1)) by (apply Z.pow_le_mono_r; lia). lia.
Qed.

Lemma rne_exact (N D : Z) : 0 < D -> N mod D = 0 -> rne N D = N / D.
Proof.
  intros HD E. unfold rne. rewrite E.
  destruct (Z.compare_spec (2 * 0) D); lia.
Qed.

(** [rne N D] is within one half of [N / D]. *)
Lemma rne_nearest (N D : Z) : 0 < D -> Z.abs (2 * (rne N D * D - N)) <= D.
Proof.
  intros HD. unfold rne.
  pose proof (Z.div_mod N D ltac:(lia)) as E.
  pose proof (Z.mod_pos_bound N D HD) as B.
  apply Z.abs_le.
  destruct (Z.compare_spec (2 * (N mod D)) D) as [C|C|C];
    [destruct (Z.even (N / D))| |]; lia.
Qed.

(** Rounding does not cross an integer. *)
Lemma rne_ge (N D K : Z) : 0 < D -> K * D <= N -> K <= rne N D.
Proof.
  intros HD H. pose proof (rne_floor_ceil N D HD).
  assert (K <= N / D) by (apply Z.div_le_lower_bound; lia). lia.
Qed.

Lemma rne_lt (N D K : Z) : 0 < D -> D < 2 * (K * D - N) -> rne N D < K.
Proof.
  intros HD H. unfold rne.
  pose proof (Z.div_mod N D ltac:(lia)) as E.
  pose proof (Z.mod_pos_bound N D HD) as B.
  assert (N / D < K) by nia.
  destruct (Z.compare_spec (2 * (N mod D)) D) as [C|C|C];
    [destruct (Z.even (N / D))| |]; nia.
Qed.

(** Rounding in the normal range: the quotient has at least 53 digits and
    the result neither underflows nor overflows. *)
Lemma binary_round_aux_normal (sx : bool) (mx ex : Z) (lx : location)
  (N D : Z) :
  0 <= N -> 0 < D ->
  shr_record_of_loc mx lx = locate N D ->
  53 <= Zdigits2 mx ->
  -1074 <= ex + Zdigits2 mx - 53 <= 970 ->
  binary_round_aux prec emax sx mx ex lx
  = let n := Zdigits2 mx - 53 in
    let m1 := rne N (D * 2 ^ n) in
    if m1 <? 2 ^ 53
    then S754_finite sx (Z.to_pos m1) (ex + n)
    else S754_finite sx (Z.to_pos (2 ^ 52)) (ex + n + 1).
Proof.
  intros HN HD Hloc Hd He.
  rewrite (binary_round_aux_locate sx mx ex lx N D HN HD Hloc).
  assert (Hmx : mx = N / D).
  { apply (f_equal shr_m) in Hloc. destruct lx as [|[]]; exact Hloc. }
  assert (Hmxpos : 0 < mx).
  { assert (0 <= mx) by (rewrite Hmx; apply Z.div_pos; lia).
    destruct (Z.eq_dec mx 0) as [E|E]; [rewrite E in Hd; cbn in Hd|]; lia. }
  set (d := Zdigits2 mx) in *.
  rewrite fexp_binary64.
  replace (Z.max 0 (Z.max (d + ex - 53) (-1074) - ex)) with (d - 53) by lia.
  cbv zeta.
  set (n := d - 53). set (m1 := rne N (D * 2 ^ n)).
  assert (Hpn : 0 < 2 ^ n) by (apply Z.pow_pos_nonneg; lia).
  pose proof (Zdigits2_bounds mx Hmxpos) as [Lo Hi]. fold d in Lo, Hi.
  assert (Hq : 2 ^ 52 <= N / (D * 2 ^ n) < 2 ^ 53).
  { rewrite <- Z.div_div, <- Hmx by lia.
    replace d with (53 + n) in Hi by lia.
    replace (d - 1) with (52 + n) in Lo by lia.
    rewrite Z.pow_add_r in Lo, Hi by lia.
    split.
    - apply Z.div_le_lower_bound; lia.
    - apply Z.div_lt_upper_bound; lia. }
  pose proof (rne_floor_ceil N (D * 2 ^ n) ltac:(nia)) as Hm1. fold m1 in Hm1.
  destruct (Z.ltb_spec m1 (2 ^ 53)) as [Hlt|Hge].
  - rewrite (Zdigits2_unique m1 53) by (change (53 - 1) with 52; lia).
    rewrite !fexp_binary64.
    replace (Z.max 0 (Z.max (53 + (ex + n) - 53) (-1074) - (ex + n))) with 0
      by lia.
    change (2 ^ 0) with 1. rewrite Z.div_1_r, Z.add_0_r.
    destruct m1 as [|p|p] eqn:E; try lia.
    replace (ex + n <=? emax - prec) with true
      by (symmetry; apply Z.leb_le; unfold emax, prec; lia).
    reflexivity.
  - assert (E : m1 = 2 ^ 53) by lia. rewrite E.
    replace (Zdigits2 (2 ^ 53)) with 54 by reflexivity.
    rewrite !fexp_binary64.
    replace (Z.max 0 (Z.max (54 + (ex + n) - 53) (-1074) - (ex + n))) with 1
      by lia.
    replace (ex + n + 1 <=? emax - prec) with true
      by (symmetry; apply Z.leb_le; unfold emax, prec; lia).
    reflexivity.
Qed.

(** ** Canonical floats of dyadic numbers *)

Lemma iter_xO (m d : positive) :
  Zpos (Pos.iter xO m d) = Zpos m * 2 ^ Zpos d.
Proof.
  induction d as [|d IH] using Pos.peano_ind.
  - cbn. lia.
  - rewrite Pos.iter_succ, Pos2Z.inj_xO, IH, Pos2Z.inj_succ, Z.pow_succ_r by lia.
    ring.
Qed.

Lemma shl_align_spec (m : positive) (e e' : Z) :
  shl_align m e e'
  = if e' <? e then (Z.to_pos (Zpos m * 2 ^ (e - e')), e') else (m, e).
Proof.
  unfold shl_align.
  destruct (Z.ltb_spec e' e) as [L|L].
  - destruct (e' - e) as [|p|p] eqn:E; try lia.
    f_equal. apply Pos2Z.inj. rewrite iter_xO.
    replace (e - e') with (Z.pos p) by lia.
    assert (0 < 2 ^ Z.pos p) by (apply Z.pow_pos_nonneg; lia).
    rewrite Z2Pos.id by nia. reflexivity.
  - destruct (e' - e) as [|p|p] eqn:E; try lia; reflexivity.
Qed.

Lemma Zdigits2_shift (M k : Z) :
  0 < M -> 0 <= k -> Zdigits2 (M * 2 ^ k) = Zdigits2 M + k.
Proof.
  intros HM Hk. pose proof (Zdigits2_bounds M HM) as [Lo Hi].
  assert (Hp : 0 < 2 ^ k) by (apply Z.pow_pos_nonneg; lia).
  assert (Hd : 0 < Zdigits2 M) by (destruct M; cbn; lia).
  apply Zdigits2_unique; [|nia].
  replace (Zdigits2 M + k - 1) with (Zdigits2 M - 1 + k) by lia.
  rewrite !Z.pow_add_r by lia. nia.
Qed.

Lemma dyadic_scale (M E k : Z) :
  0 <= M -> 0 <= k ->
  dyadic (M * 2 ^ k) E = dyadic M (E + k).
Proof.
  intros HM Hk.
  assert (Hp : 0 < 2 ^ k) by (apply Z.pow_pos_nonneg; lia).
  destruct (Z.eq_dec M 0) as [->|Hnz]; [reflexivity|].
  unfold dyadic.
  destruct M as [|p|p] eqn:EM; try lia. rewrite <- EM in *.
  destruct (M * 2 ^ k) as [|q|q] eqn:EMk; try nia. rewrite <- EMk.
  rewrite Zdigits2_shift by lia.
  set (d := Zdigits2 M) in *.
  destruct (Z.leb_spec (d + k) 53) as [L1|L1];
    destruct (Z.leb_spec d 53) as [L2|L2]; try lia.
  - f_equal; [|lia]. f_equal.
    replace (53 - d) with (k + (53 - (d + k))) by lia.
    rewrite Z.pow_add_r by lia. ring.
  - f_equal; [|lia]. f_equal.
    replace (d + k - 53) with (k - (53 - d)) by lia.
    replace k with ((k - (53 - d)) + (53 - d)) at 1 by lia.
    rewrite Z.pow_add_r by lia.
    rewrite Z.mul_assoc, (Z.mul_comm _ (2 ^ (k - (53 - d)))), <- Z.mul_assoc.
    rewrite Z.mul_comm, Z.div_mul; [reflexivity|].
    apply Z.pow_nonzero; lia.
  - f_equal; [|lia]. f_equal.
    replace (d + k - 53) with ((d - 53) + k) by lia.
    rewrite Z.pow_add_r by lia.
    rewrite Z.div_mul_cancel_r; try reflexivity; apply Z.pow_nonzero; lia.
Qed.

Lemma binary_normalize_dyadic (M E : Z) :
  0 <= M -> representable M ->
  -1074 <= E + Zdigits2 M - 53 <= 970 ->
  binary_normalize prec emax M E false = dyadic M E.
Proof.
  intros HM HR He.
  destruct M as [|p|p]; [reflexivity| |lia].
  pose proof (Zdigits2_bounds (Z.pos p) ltac:(lia)) as [Lo Hi].
  unfold representable in HR.
  cbn [binary_normalize]. unfold binary_round, dyadic.
  change (Z.pos (digits2_pos p)) with (Zdigits2 (Z.pos p)).
  set (d := Zdigits2 (Z.pos p)) in *.
  assert (Hd : 0 < d) by (subst d; cbn; lia).
  rewrite fexp_binary64, shl_align_spec.
  replace (Z.max (d + E - 53) (-1074)) with (E + d - 53) by lia.
  replace (E - (E + d - 53)) with (53 - d) by lia.
  destruct (Z.ltb_spec (E + d - 53) E) as [L|L].
  - assert (Hp : 0 < 2 ^ (53 - d)) by (apply Z.pow_pos_nonneg; lia).
    assert (Hdig : Zdigits2 (Z.pos p * 2 ^ (53 - d)) = 53).
    { rewrite Zdigits2_shift by lia. fold d. lia. }
    rewrite (binary_round_aux_normal false _ _ loc_Exact
               (Z.pos p * 2 ^ (53 - d)) 1);
      rewrite ?Z2Pos.id by nia; rewrite ?Hdig; try lia.
    + cbv zeta. change (53 - 53) with 0. change (2 ^ 0) with 1.
      rewrite Z.mul_1_r, rne_exact, Z.div_1_r by (try lia; apply Z.mod_1_r).
      replace (Z.pos p * 2 ^ (53 - d) <? 2 ^ 53) with true.
      * destruct (Z.leb_spec d 53); [|lia]. f_equal. lia.
      * symmetry. apply Z.ltb_lt.
        pose proof (Zdigits2_bounds (Z.pos p * 2 ^ (53 - d)) ltac:(nia))
          as [_ U].
        rewrite Hdig in U. exact U.
    + apply locate_exact.
  - rewrite (binary_round_aux_normal false _ _ loc_Exact (Z.pos p) 1);
      fold d; try lia.
    + cbv zeta. rewrite Z.mul_1_l.
      assert (Hp : 0 < 2 ^ (d - 53)) by (apply Z.pow_pos_nonneg; lia).
      rewrite Z.max_r in HR by lia.
      rewrite rne_exact by assumption.
      replace (Z.pos p / 2 ^ (d - 53) <? 2 ^ 53) with true.
      * destruct (Z.leb_spec d 53).
        -- replace d with 53 by lia. change (2 ^ (53 - 53)) with 1.
           rewrite Z.mul_1_r, Z.div_1_r. f_equal. lia.
        -- f_equal. lia.
      * symmetry. apply Z.ltb_lt. apply Z.div_lt_upper_bound; [lia|].
        rewrite <- Z.pow_add_r by lia. replace (d - 53 + 53) with d by lia.
        exact Hi.
    + apply locate_exact.
Qed.

Lemma Zdigits2_le (M d : Z) : 0 <= d -> 0 <= M < 2 ^ d -> Zdigits2 M <= d.
Proof.
  intros Hd [L U]. destruct (Z.eq_dec M 0) as [->|Hnz]; [cbn; lia|].
  pose proof (Zdigits2_bounds M ltac:(lia)) as [Lo _].
  destruct (Z.le_gt_cases (Zdigits2 M) d) as [C|C]; [assumption|].
  assert (2 ^ d <= 2 ^ (Zdigits2 M - 1)) by (apply Z.pow_le_mono_r; lia). lia.
Qed.

Lemma Zdigits2_pos (M : Z) : 0 < M -> 0 < Zdigits2 M.
Proof. destruct M; cbn; lia. Qed.

Lemma representable_small (M : Z) : 0 <= M < 2 ^ 53 -> representable M.
Proof.
  intros H. unfold representable.
  pose proof (Zdigits2_le M 53 ltac:(lia) H).
  rewrite Z.max_l by lia. apply Z.mod_1_r.
Qed.

Lemma representable_scale (M k : Z) :
  0 <= M -> 0 <= k -> representable M -> representable (M * 2 ^ k).
Proof.
  intros HM Hk HR. destruct (Z.eq_dec M 0) as [->|Hnz]; [reflexivity|].
  unfold representable in *. rewrite Zdigits2_shift by lia.
  set (d := Zdigits2 M) in *.
  destruct (Z.le_gt_cases d 53) as [C|C].
  - rewrite Z.max_l in HR by lia.
    destruct (Z.le_gt_cases (d + k) 53) as [C'|C'].
    + rewrite Z.max_l by lia. apply Z.mod_1_r.
    + rewrite Z.max_r by lia.
      replace k with ((53 - d) + (d + k - 53)) at 1 by lia.
      rewrite Z.pow_add_r, Z.mul_assoc by lia. apply Z.mod_mul.
      apply Z.pow_nonzero; lia.
  - rewrite Z.max_r in HR |- * by lia.
    replace (d + k - 53) with ((d - 53) + k) by lia.
    rewrite Z.pow_add_r by lia.
    apply Z.mod_divide in HR; [|apply Z.pow_nonzero; lia].
    apply Z.mod_divide.
    + apply Z.neq_mul_0; split; apply Z.pow_nonzero; lia.
    + apply Z.mul_divide_mono_r. exact HR.
Qed.

Lemma of_Z_dyadic (z : Z) : 0 <= z < 2 ^ 53 -> of_Z z = dyadic z 0.
Proof.
  intros H. apply binary_normalize_dyadic; [lia|apply representable_small, H|].
  pose proof (Zdigits2_le z 53 ltac:(lia) H).
  destruct (Z.eq_dec z 0) as [->|Hnz]; [cbn; lia|].
  pose proof (Zdigits2_pos z ltac:(lia)). lia.
Qed.

(** The shape of the float of a positive integer below [2^53]. *)
Lemma dyadic_integer (z : Z) :
  0 < z < 2 ^ 53 ->
  dyadic z 0
  = S754_finite false (Z.to_pos (z * 2 ^ (53 - Zdigits2 z))) (Zdigits2 z - 53).
Proof.
  intros H. unfold dyadic. destruct z as [|p|p]; try lia.
  pose proof (Zdigits2_le (Z.pos p) 53 ltac:(lia) ltac:(lia)) as L.
  apply Z.leb_le in L. rewrite L. reflexivity.
Qed.

Lemma aligned_mantissa (m : positive) (e ez : Z) :
  ez <= e -> Zpos (fst (shl_align m e ez)) = Zpos m * 2 ^ (e - ez).
Proof.
  intros H. rewrite shl_align_spec.
  destruct (Z.ltb_spec ez e) as [L|L]; cbn [fst].
  - assert (0 < 2 ^ (e - ez)) by (apply Z.pow_pos_nonneg; lia).
    rewrite Z2Pos.id by nia. reflexivity.
  - replace (e - ez) with 0 by lia. cbn. lia.
Qed.

(** Mantissa and exponent of the float of a positive integer. *)
Lemma integer_mantissa (z : Z) (ez : Z) :
  0 < z < 2 ^ 53 -> ez <= Zdigits2 z - 53 ->
  Zpos (Z.to_pos (z * 2 ^ (53 - Zdigits2 z))) * 2 ^ (Zdigits2 z - 53 - ez)
  = z * 2 ^ (- ez).
Proof.
  intros H Hez.
  pose proof (Zdigits2_le z 53 ltac:(lia) ltac:(lia)) as L.
  assert (0 < 2 ^ (53 - Zdigits2 z)) by (apply Z.pow_pos_nonneg; lia).
  rewrite Z2Pos.id by nia.
  rewrite <- Z.mul_assoc, <- Z.pow_add_r by lia.
  f_equal. f_equal. lia.
Qed.

Lemma integer_sum_range (c ez : Z) :
  0 < c < 2 ^ 53 -> -52 <= ez <= 0 ->
  -1074 <= ez + Zdigits2 (c * 2 ^ (- ez)) - 53 <= 970.
Proof.
  intros H Hez. rewrite Zdigits2_shift by lia.
  pose proof (Zdigits2_le c 53 ltac:(lia) ltac:(lia)).
  pose proof (Zdigits2_pos c ltac:(lia)). lia.
Qed.

Lemma js_add_integers (a b : Z) :
  0 <= a -> 0 <= b -> a + b < 2 ^ 53 ->
  js_add (dyadic a 0) (dyadic b 0) = dyadic (a + b) 0.
Proof.
  intros Ha Hb Hab.
  destruct (Z.eq_dec a 0) as [->|Hna].
  { cbn [dyadic]. rewrite Z.add_0_l.
    destruct (Z.eq_dec b 0) as [->|Hnb]; [reflexivity|].
    rewrite dyadic_integer by lia. reflexivity. }
  destruct (Z.eq_dec b 0) as [->|Hnb].
  { cbn [dyadic]. rewrite Z.add_0_r.
    rewrite dyadic_integer by lia. reflexivity. }
  rewrite (dyadic_integer a), (dyadic_integer b) by lia.
  unfold js_add, SFadd. cbn [cond_Zopp].
  pose proof (Zdigits2_le a 53 ltac:(lia) ltac:(lia)).
  pose proof (Zdigits2_le b 53 ltac:(lia) ltac:(lia)).
  pose proof (Zdigits2_pos a ltac:(lia)).
  pose proof (Zdigits2_pos b ltac:(lia)).
  set (ez := Z.min (Zdigits2 a - 53) (Zdigits2 b - 53)).
  rewrite !aligned_mantissa by lia.
  rewrite !integer_mantissa by lia.
  rewrite <- Z.mul_add_distr_r.
  rewrite binary_normalize_dyadic.
  - rewrite dyadic_scale by lia. f_equal. lia.
  - assert (0 < 2 ^ (- ez)) by (apply Z.pow_pos_nonneg; lia). nia.
  - apply representable_scale; [lia|lia|]. apply representable_small. lia.
  - apply integer_sum_range; lia.
Qed.

Lemma js_sub_integers (a b : Z) :
  0 <= b <= a -> a < 2 ^ 53 ->
  js_sub (dyadic a 0) (dyadic b 0) = dyadic (a - b) 0.
Proof.
  intros Hb Ha.
  destruct (Z.eq_dec b 0) as [->|Hnb].
  { cbn [dyadic]. rewrite Z.sub_0_r.
    destruct (Z.eq_dec a 0) as [->|Hna]; [reflexivity|].
    rewrite dyadic_integer by lia. reflexivity. }
  rewrite (dyadic_integer a), (dyadic_integer b) by lia.
  unfold js_sub, SFsub. cbn [cond_Zopp].
  pose proof (Zdigits2_le a 53 ltac:(lia) ltac:(lia)).
  pose proof (Zdigits2_le b 53 ltac:(lia) ltac:(lia)).
  pose proof (Zdigits2_pos a ltac:(lia)).
  pose proof (Zdigits2_pos b ltac:(lia)).
  set (ez := Z.min (Zdigits2 a - 53) (Zdigits2 b - 53)).
  rewrite !aligned_mantissa by lia.
  rewrite !integer_mantissa by lia.
  rewrite <- Z.mul_sub_distr_r.
  destruct (Z.eq_dec a b) as [->|Hne].
  { rewrite Z.sub_diag. reflexivity. }
  rewrite binary_normalize_dyadic.
  - rewrite dyadic_scale by lia. f_equal. lia.
  - assert (0 < 2 ^ (- ez)) by (apply Z.pow_pos_nonneg; lia). nia.
  - apply representable_scale; [lia|lia|]. apply representable_small. lia.
  - apply integer_sum_range; lia.
Qed.

(** ** Division and multiplication of normal numbers *)

Lemma mantissa53_digits (m : positive) : mantissa53 m -> Zdigits2 (Zpos m) = 53.
Proof. intros H. apply Zdigits2_unique; [exact H|lia]. Qed.

Lemma js_div_normal (sx sy : bool) (mx my : positive) (ex ey : Z) :
  mantissa53 mx -> mantissa53 my ->
  -1021 <= ex - ey <= 1022 ->
  js_div (S754_finite sx mx ex) (S754_finite sy my ey)
  = nearest (xorb sx sy) (Zpos mx * 2 ^ 53) (Zpos my) (ex - ey - 53).
Proof.
  intros Hx Hy He. unfold js_div, SFdiv, SFdiv_core_binary.
  rewrite (mantissa53_digits mx Hx), (mantissa53_digits my Hy).
  rewrite fexp_binary64.
  replace (Z.min (Z.max (53 + ex - (53 + ey) - 53) (-1074)) (ex - ey))
    with (ex - ey - 53) by lia.
  replace (ex - ey - (ex - ey - 53)) with 53 by lia.
  lazy beta iota zeta.
  rewrite Z.shiftl_mul_pow2 by lia.
  set (N := Z.pos mx * 2 ^ 53). set (D := Z.pos my).
  assert (HD : 0 < D) by (subst D; lia).
  assert (HN : 0 <= N) by (subst N; lia).
  assert (Hq : 2 ^ 52 <= N / D < 2 ^ 54).
  { unfold mantissa53 in *. split.
    - apply Z.div_le_lower_bound; [lia|]. subst N D. nia.
    - apply Z.div_lt_upper_bound; [lia|]. subst N D. nia. }
  assert (Hdig : 53 <= Zdigits2 (N / D) <= 54).
  { pose proof (Zdigits2_le (N / D) 54 ltac:(lia) ltac:(lia)).
    pose proof (Zdigits2_bounds (N / D) ltac:(lia)) as [_ U].
    split; [|assumption].
    destruct (Z.le_gt_cases 53 (Zdigits2 (N / D))) as [C|C]; [assumption|].
    assert (2 ^ Zdigits2 (N / D) <= 2 ^ 52) by (apply Z.pow_le_mono_r; lia).
    lia. }
  pose proof (locate_division N D HD) as Hloc.
  destruct (Z.div_eucl N D) as [q r] eqn:E.
  assert (Eq : q = N / D) by (unfold Z.div; rewrite E; reflexivity).
  assert (Er : r = N mod D) by (unfold Z.modulo; rewrite E; reflexivity).
  subst q r. unfold nearest.
  apply (binary_round_aux_normal _ _ _ _ N D HN HD Hloc); lia.
Qed.

Lemma js_mul_normal (sx sy : bool) (mx my : positive) (ex ey : Z) :
  mantissa53 mx -> mantissa53 my ->
  -1126 <= ex + ey <= 917 ->
  js_mul (S754_finite sx mx ex) (S754_finite sy my ey)
  = nearest (xorb sx sy) (Zpos mx * Zpos my) 1 (ex + ey).
Proof.
  intros Hx Hy He. unfold js_mul, SFmul.
  change (Z.pos (mx * my)) with (Z.pos mx * Z.pos my).
  set (N := Z.pos mx * Z.pos my).
  assert (Hq : 2 ^ 104 <= N < 2 ^ 106).
  { unfold mantissa53 in *. subst N.
    change (2 ^ 104) with (2 ^ 52 * 2 ^ 52).
    change (2 ^ 106) with (2 ^ 53 * 2 ^ 53). nia. }
  assert (Hdig : 105 <= Zdigits2 N <= 106).
  { pose proof (Zdigits2_le N 106 ltac:(lia) ltac:(lia)).
    pose proof (Zdigits2_bounds N ltac:(lia)) as [_ U].
    split; [|assumption].
    destruct (Z.le_gt_cases 105 (Zdigits2 N)) as [C|C]; [assumption|].
    assert (2 ^ Zdigits2 N <= 2 ^ 104) by (apply Z.pow_le_mono_r; lia).
    lia. }
  unfold nearest. rewrite Z.div_1_r.
  apply (binary_round_aux_normal _ N _ _ N 1); try lia.
  apply locate_exact.
Qed.

Lemma pow2_pos (e : Z) : (0 < 2 ^ e)%Q.
Proof. apply Qpower_0_lt. reflexivity. Qed.

Lemma pow2_add (a b : Z) : (2 ^ (a + b) == 2 ^ a * 2 ^ b)%Q.
Proof. apply Qpower_plus. discriminate. Qed.

Lemma pow2_inject (n : Z) : 0 <= n -> (inject_Z (2 ^ n) == 2 ^ n)%Q.
Proof. intros H. apply Zpower_Qpower, H. Qed.

(** The value of [nearest] is within a relative [2^-53] of its target. *)
Lemma nearest_value (N D e : Z) :
  0 < D -> 2 ^ 52 * D <= N ->
  exists m e',
    nearest false N D e = S754_finite false m e'
    /\ mantissa53 m
    /\ e + Zdigits2 (N / D) - 53 <= e' <= e + Zdigits2 (N / D) - 52
    /\ (inject_Z N / inject_Z D * 2 ^ e * (1 - 1 / 2 ^ 53)
        <= inject_Z (Zpos m) * 2 ^ e'
        <= inject_Z N / inject_Z D * 2 ^ e * (1 + 1 / 2 ^ 53))%Q.
Proof.
  intros HD HN.
  assert (Hq : 2 ^ 52 <= N / D) by (apply Z.div_le_lower_bound; lia).
  pose proof (Zdigits2_bounds (N / D) ltac:(lia)) as [Lo Hi].
  assert (Hn : 0 <= Zdigits2 (N / D) - 53).
  { destruct (Z.le_gt_cases 53 (Zdigits2 (N / D))) as [C|C]; [lia|].
    assert (2 ^ Zdigits2 (N / D) <= 2 ^ 52) by (apply Z.pow_le_mono_r; lia).
    lia. }
  unfold nearest.
  set (n := Zdigits2 (N / D) - 53) in *.
  assert (Hpn : 0 < 2 ^ n) by (apply Z.pow_pos_nonneg; lia).
  set (D1 := D * 2 ^ n).
  assert (HD1 : 0 < D1) by (subst D1; nia).
  assert (HN1 : 2 ^ 52 * D1 <= N < 2 ^ 53 * D1).
  { replace (Zdigits2 (N / D)) with (53 + n) in Hi by lia.
    replace (Zdigits2 (N / D) - 1) with (52 + n) in Lo by lia.
    rewrite Z.pow_add_r in Lo, Hi by lia.
    pose proof (Z.div_mod N D ltac:(lia)).
    pose proof (Z.mod_pos_bound N D HD).
    subst D1. split; nia. }
  pose proof (rne_nearest N D1 HD1) as Hnear.
  pose proof (rne_floor_ceil N D1 HD1) as Hfc.
  assert (Hfl : 2 ^ 52 <= N / D1 < 2 ^ 53).
  { split; [apply Z.div_le_lower_bound|apply Z.div_lt_upper_bound]; lia. }
  set (m1 := rne N D1) in *.
  (* the value of the result is m1 * 2^(e+n) in both cases *)
  assert (Hval : exists m e',
             (if m1 <? 2 ^ 53
              then S754_finite false (Z.to_pos m1) (e + n)
              else S754_finite false (Z.to_pos (2 ^ 52)) (e + n + 1))
             = S754_finite false m e'
             /\ mantissa53 m
             /\ e + n <= e' <= e + n + 1
             /\ (inject_Z (Zpos m) * 2 ^ e' == inject_Z m1 * 2 ^ (e + n))%Q).
  { destruct (Z.ltb_spec m1 (2 ^ 53)) as [C|C].
    - exists (Z.to_pos m1), (e + n). split; [reflexivity|].
      split; [unfold mantissa53; rewrite Z2Pos.id by lia; lia|].
      split; [lia|].
      rewrite Z2Pos.id by lia. reflexivity.
    - exists (Z.to_pos (2 ^ 52)), (e + n + 1). split; [reflexivity|].
      split; [unfold mantissa53; cbn; lia|].
      split; [lia|].
      assert (E : m1 = 2 ^ 53) by lia. rewrite E.
      rewrite (pow2_add (e + n) 1).
      change (inject_Z (Z.pos (Z.to_pos (2 ^ 52)))) with (inject_Z (2 ^ 52)).
      change (2 ^ 53) with (2 ^ 52 * 2). rewrite inject_Z_mult.
      change (2 ^ 1)%Q with 2%Q. change (inject_Z 2) with 2%Q. ring. }
  destruct Hval as (m & e' & Heq & Hm & He' & Hv).
  exists m, e'. split; [exact Heq|]. split; [exact Hm|].
  split; [subst n; lia|].
  rewrite Hv. clear Hv Heq.
  rewrite (pow2_add e n).
  apply Z.abs_le in Hnear.
  assert (QD : (0 < inject_Z D)%Q) by (rewrite <- (Zlt_Qlt 0); lia).
  assert (Q2n : (0 < 2 ^ n)%Q) by apply pow2_pos.
  assert (Q2e : (0 < 2 ^ e)%Q) by apply pow2_pos.
  assert (A1 : (2 * (inject_Z m1 * (inject_Z D * 2 ^ n) - inject_Z N)
                <= inject_Z D * 2 ^ n)%Q).
  { rewrite <- pow2_inject by lia.
    rewrite <- !inject_Z_mult.
    change 2%Q with (inject_Z 2).
    unfold Qminus. rewrite <- inject_Z_opp, <- inject_Z_plus, <- inject_Z_mult.
    rewrite <- Zle_Qle. fold D1. lia. }
  assert (A2 : (- (inject_Z D * 2 ^ n)
                <= 2 * (inject_Z m1 * (inject_Z D * 2 ^ n) - inject_Z N))%Q).
  { rewrite <- pow2_inject by lia.
    rewrite <- !inject_Z_mult.
    change 2%Q with (inject_Z 2).
    unfold Qminus. rewrite <- !inject_Z_opp, <- inject_Z_plus, <- inject_Z_mult.
    rewrite <- Zle_Qle. fold D1. lia. }
  assert (A3 : (2 ^ 52 * (inject_Z D * 2 ^ n) <= inject_Z N)%Q).
  { rewrite <- (pow2_inject n) by lia.
    rewrite <- (pow2_inject 52) by lia.
    rewrite <- !inject_Z_mult. rewrite <- Zle_Qle. fold D1. lia. }
  set (qN := inject_Z N) in *. set (qD := inject_Z D) in *.
  set (qm := inject_Z m1) in *. set (pn := (2 ^ n)%Q) in *.
  set (pe := (2 ^ e)%Q) in *.
  assert (Hdiv : (qN / qD * qD == qN)%Q) by (field; lra).
  set (v := (qN / qD)%Q) in *.
  setoid_replace (1 / 2 ^ 53)%Q with (1 # 9007199254740992)%Q by reflexivity.
  change (2 ^ 52)%Q with (4503599627370496 # 1)%Q in A3.
  assert (B1 : (v * (1 - (1 # 9007199254740992)) <= qm * pn)%Q).
  { apply Qmult_le_r with qD; [assumption|].
    setoid_replace (v * (1 - (1 # 9007199254740992)) * qD)%Q
      with ((v * qD) * (1 - (1 # 9007199254740992)))%Q by ring.
    rewrite Hdiv. 
    setoid_replace (qm * pn * qD)%Q with (qm * (qD * pn))%Q by ring.
    set (x := (qm * (qD * pn))%Q) in *. set (y := (qD * pn)%Q) in *. lra. }
  assert (B2 : (qm * pn <= v * (1 + (1 # 9007199254740992)))%Q).
  { apply Qmult_le_r with qD; [assumption|].
    setoid_replace (v * (1 + (1 # 9007199254740992)) * qD)%Q
      with ((v * qD) * (1 + (1 # 9007199254740992)))%Q by ring.
    rewrite Hdiv. 
    setoid_replace (qm * pn * qD)%Q with (qm * (qD * pn))%Q by ring.
    set (x := (qm * (qD * pn))%Q) in *. set (y := (qD * pn)%Q) in *. lra. }
  split.
  - setoid_replace (v * pe * (1 - (1 # 9007199254740992)))%Q
      with (pe * (v * (1 - (1 # 9007199254740992))))%Q by ring.
    setoid_replace (qm * (pe * pn))%Q with (pe * (qm * pn))%Q by ring.
    apply Qmult_le_l; assumption.
  - setoid_replace (v * pe * (1 + (1 # 9007199254740992)))%Q
      with (pe * (v * (1 + (1 # 9007199254740992))))%Q by ring.
    setoid_replace (qm * (pe * pn))%Q with (pe * (qm * pn))%Q by ring.
    apply Qmult_le_l; assumption.
Qed.

Lemma pow2_sub (a b : Z) : (2 ^ (a - b) == 2 ^ a / 2 ^ b)%Q.
Proof. apply Qpower_minus. discriminate. Qed.

Lemma pow2_nonzero (e : Z) : ~ (2 ^ e == 0)%Q.
Proof. pose proof (pow2_pos e). lra. Qed.

Lemma inject_pos (p : positive) : (0 < inject_Z (Zpos p))%Q.
Proof. rewrite <- (Zlt_Qlt 0). lia. Qed.

(** Quotient of two positive normal numbers: correctly rounded. *)
Lemma js_div_value (mx my : positive) (ex ey : Z) :
  mantissa53 mx -> mantissa53 my -> -1021 <= ex - ey <= 1022 ->
  exists m e,
    js_div (S754_finite false mx ex) (S754_finite false my ey)
    = S754_finite false m e
    /\ mantissa53 m
    /\ ex - ey - 53 <= e <= ex - ey - 51
    /\ (F2Q (S754_finite false mx ex) / F2Q (S754_finite false my ey)
          * (1 - 1 / 2 ^ 53)
        <= F2Q (S754_finite false m e)
        <= F2Q (S754_finite false mx ex) / F2Q (S754_finite false my ey)
             * (1 + 1 / 2 ^ 53))%Q.
Proof.
  intros Hx Hy He.
  rewrite js_div_normal by assumption. cbn [xorb].
  destruct (nearest_value (Zpos mx * 2 ^ 53) (Zpos my) (ex - ey - 53))
    as (m & e & Heq & Hm & Hexp & Hv).
  { lia. }
  { unfold mantissa53 in *. nia. }
  exists m, e. split; [exact Heq|]. split; [exact Hm|].
  split.
  { assert (Hq : 2 ^ 52 <= Z.pos mx * 2 ^ 53 / Z.pos my < 2 ^ 54).
    { unfold mantissa53 in *. split.
      - apply Z.div_le_lower_bound; [lia|]. nia.
      - apply Z.div_lt_upper_bound; [lia|]. nia. }
    assert (Zdigits2 (Z.pos mx * 2 ^ 53 / Z.pos my) <= 54)
      by (apply Zdigits2_le; lia).
    pose proof (Zdigits2_bounds (Z.pos mx * 2 ^ 53 / Z.pos my) ltac:(lia))
      as [_ U].
    destruct (Z.le_gt_cases 53 (Zdigits2 (Z.pos mx * 2 ^ 53 / Z.pos my)))
      as [C|C]; [lia|].
    assert (2 ^ Zdigits2 (Z.pos mx * 2 ^ 53 / Z.pos my) <= 2 ^ 52)
      by (apply Z.pow_le_mono_r; lia).
    lia. }
  cbn [F2Q cond_Zopp].
  assert (E : (inject_Z (Z.pos mx * 2 ^ 53) / inject_Z (Z.pos my)
                 * 2 ^ (ex - ey - 53)
               == inject_Z (Z.pos mx) * 2 ^ ex
                    / (inject_Z (Z.pos my) * 2 ^ ey))%Q).
  { rewrite inject_Z_mult, pow2_inject by lia.
    rewrite !pow2_sub.
    pose proof (pow2_nonzero ex). pose proof (pow2_nonzero ey).
    pose proof (pow2_nonzero 53). pose proof (inject_pos my).
    field. repeat split; try assumption; lra. }
  rewrite <- E. exact Hv.
Qed.

(** Product of two positive normal numbers: correctly rounded. *)
Lemma js_mul_value (mx my : positive) (ex ey : Z) :
  mantissa53 mx -> mantissa53 my -> -1126 <= ex + ey <= 917 ->
  exists m e,
    js_mul (S754_finite false mx ex) (S754_finite false my ey)
    = S754_finite false m e
    /\ mantissa53 m
    /\ ex + ey + 52 <= e <= ex + ey + 54
    /\ (F2Q (S754_finite false mx ex) * F2Q (S754_finite false my ey)
          * (1 - 1 / 2 ^ 53)
        <= F2Q (S754_finite false m e)
        <= F2Q (S754_finite false mx ex) * F2Q (S754_finite false my ey)
             * (1 + 1 / 2 ^ 53))%Q.
Proof.
  intros Hx Hy He.
  rewrite js_mul_normal by assumption. cbn [xorb].
  destruct (nearest_value (Zpos mx * Zpos my) 1 (ex + ey))
    as (m & e & Heq & Hm & Hexp & Hv).
  { lia. }
  { unfold mantissa53 in *. nia. }
  exists m, e. split; [exact Heq|]. split; [exact Hm|].
  split.
  { rewrite Z.div_1_r in Hexp.
    assert (Hq : 2 ^ 104 <= Z.pos mx * Z.pos my < 2 ^ 106).
    { unfold mantissa53 in *.
      change (2 ^ 104) with (2 ^ 52 * 2 ^ 52).
      change (2 ^ 106) with (2 ^ 53 * 2 ^ 53). nia. }
    assert (Zdigits2 (Z.pos mx * Z.pos my) <= 106)
      by (apply Zdigits2_le; lia).
    pose proof (Zdigits2_bounds (Z.pos mx * Z.pos my) ltac:(lia)) as [_ U].
    destruct (Z.le_gt_cases 105 (Zdigits2 (Z.pos mx * Z.pos my)))
      as [C|C]; [lia|].
    assert (2 ^ Zdigits2 (Z.pos mx * Z.pos my) <= 2 ^ 104)
      by (apply Z.pow_le_mono_r; lia).
    lia. }
  cbn [F2Q cond_Zopp].
  assert (E : (inject_Z (Z.pos mx * Z.pos my) / inject_Z 1 * 2 ^ (ex + ey)
               == inject_Z (Z.pos mx) * 2 ^ ex
                    * (inject_Z (Z.pos my) * 2 ^ ey))%Q).
  { rewrite inject_Z_mult, pow2_add. change (inject_Z 1) with 1%Q. field. }
  rewrite <- E. exact Hv.
Qed.

(** ** Formatting byte counts and uptimes *)

Lemma of_Z_1024 : of_Z 1024 = S754_finite false 4503599627370496 (-42).
Proof. reflexivity. Qed.

Lemma js_div_1024 (m : positive) (e : Z) :
  mantissa53 m -> -1000 <= e <= 900 ->
  js_div (S754_finite false m e) (of_Z 1024) = S754_finite false m (e - 10).
Proof.
  intros Hm He. rewrite of_Z_1024. rewrite js_div_normal;
    [| assumption | unfold mantissa53; lia | lia].
  unfold nearest. cbn [xorb].
  assert (Hq : Z.pos m * 2 ^ 53 / 4503599627370496 = 2 * Z.pos m).
  { change (2 ^ 53) with (2 * 4503599627370496).
    rewrite Z.mul_assoc, Z.div_mul by lia. lia. }
  rewrite Hq.
  assert (Hd : Zdigits2 (2 * Z.pos m) = 54).
  { unfold mantissa53 in Hm. apply Zdigits2_unique; lia. }
  rewrite Hd. change (54 - 53) with 1.
  change (4503599627370496 * 2 ^ 1) with (2 ^ 53).
  rewrite rne_exact by (try lia; apply Z.mod_mul; lia).
  rewrite Z.div_mul by lia.
  unfold mantissa53 in Hm.
  destruct (Z.ltb_spec (Z.pos m) (2 ^ 53)); [|lia].
  f_equal. lia.
Qed.

Lemma js_ge_1024 (m : positive) (e : Z) :
  mantissa53 m ->
  js_ge (S754_finite false m e) (of_Z 1024) = (-42 <=? e).
Proof.
  intros Hm. rewrite of_Z_1024. unfold js_ge, SFleb, SFcompare.
  unfold mantissa53 in Hm. change (2 ^ 52) with 4503599627370496 in Hm.
  change (Pos.compare_cont Eq 4503599627370496 m)
    with (Pos.compare 4503599627370496 m).
  rewrite Pos2Z.inj_compare.
  destruct (Z.compare_spec (-42) e) as [E|E|E];
    [destruct (Z.compare_spec 4503599627370496 (Z.pos m)) as [C|C|C]| |];
    destruct (Z.leb_spec (-42) e); try reflexivity; lia.
Qed.

(** ** Decimal texts read back *)

Lemma split_dot_digits (d : Decimal.uint) (rest : string) :
  split_dot (NilEmpty.string_of_uint d ++ String "." rest)
  = (NilEmpty.string_of_uint d, Some rest).
Proof.
  induction d; cbn [NilEmpty.string_of_uint append split_dot Ascii.eqb Bool.eqb];
    try rewrite IHd; reflexivity.
Qed.

Lemma natural_value_digits (n : Z) :
  0 <= n -> natural_value (digits_of n) = Some n.
Proof.
  intros Hn. unfold natural_value, digits_of.
  rewrite NilEmpty.usu. cbn [option_map].
  rewrite DecimalN.Unsigned.of_to, Z2N.id by assumption.
  destruct (NilEmpty.string_of_uint (N.to_uint (Z.to_N n))) eqn:E;
    [|reflexivity].
  exfalso. destruct (Z.to_N n) as [|p]; [discriminate E|].
  cbn [N.to_uint] in E.
  pose proof (DecimalPos.Unsigned.to_uint_nonnil p) as Hnil.
  destruct (Pos.to_uint p); try discriminate E. apply Hnil. reflexivity.
Qed.

Lemma fraction_text (f : nat) (r : Z) :
  (f = 1 \/ f = 2)%nat -> 0 <= r < 10 ^ Z.of_nat f ->
  String.length (pad_left f (digits_of r)) = f
  /\ natural_value (pad_left f (digits_of r)) = Some r.
Proof.
  intros Hf Hr.
  assert (Hall : forallb (fraction_ok f) (seq 0 (Z.to_nat (10 ^ Z.of_nat f)))
                 = true).
  { destruct Hf as [-> | ->]; vm_compute; reflexivity. }
  rewrite forallb_forall in Hall.
  specialize (Hall (Z.to_nat r)).
  rewrite in_seq in Hall. specialize (Hall ltac:(lia)).
  unfold fraction_ok in Hall. rewrite Z2Nat.id in Hall by lia.
  apply andb_true_iff in Hall as [H1 H2].
  apply Nat.eqb_eq in H1. split; [exact H1|].
  destruct (natural_value (pad_left f (digits_of r))) as [v|];
    [|discriminate H2].
  apply Z.eqb_eq in H2. congruence.
Qed.

Lemma decimal_value_fixed (n : Z) (f : nat) :
  (f = 1 \/ f = 2)%nat -> 0 <= n ->
  decimal_value (fixed_text n f)
  = Some (Qmake n (Z.to_pos (10 ^ Z.of_nat f))).
Proof.
  intros Hf Hn.
  assert (Hp : 0 < 10 ^ Z.of_nat f) by (apply Z.pow_pos_nonneg; lia).
  pose proof (Z.div_mod n (10 ^ Z.of_nat f) ltac:(lia)) as Hdm.
  pose proof (Z.mod_pos_bound n (10 ^ Z.of_nat f) Hp) as Hmod.
  destruct (fraction_text f (n mod 10 ^ Z.of_nat f) Hf Hmod) as [Hlen Hval].
  unfold decimal_value, fixed_text.
  assert (Hfix :
    match f with
    | O => digits_of n
    | S _ => digits_of (n / 10 ^ Z.of_nat f) ++ "." ++
             pad_left f (digits_of (n mod 10 ^ Z.of_nat f))
    end
    = digits_of (n / 10 ^ Z.of_nat f) ++
        String "." (pad_left f (digits_of (n mod 10 ^ Z.of_nat f)))).
  { destruct Hf as [-> | ->]; reflexivity. }
  rewrite Hfix. unfold digits_of at 1. rewrite split_dot_digits.
  fold (digits_of (n / 10 ^ Z.of_nat f)).
  rewrite natural_value_digits by (apply Z.div_pos; lia).
  rewrite Hval, Hlen. cbv zeta.
  f_equal. f_equal. lia.
Qed.

Lemma strip_percent_append (s : string) : strip_percent (s ++ "%") = Some s.
Proof.
  induction s as [|c s IH]; [reflexivity|].
  cbn [append strip_percent]. rewrite IH.
  destruct s; reflexivity.
Qed.

Lemma percent_value_fixed (n : Z) (f : nat) :
  (f = 1 \/ f = 2)%nat -> 0 <= n ->
  percent_value (fixed_text n f ++ "%")
  = Some (Qmake n (Z.to_pos (10 ^ Z.of_nat f))).
Proof.
  intros Hf Hn. unfold percent_value.
  rewrite strip_percent_append. apply decimal_value_fixed; assumption.
Qed.

Lemma Zdigits2_ge (b D : Z) :
  0 < b -> 1 <= D -> (D <= Zdigits2 b <-> 2 ^ (D - 1) <= b).
Proof.
  intros Hb HD. pose proof (Zdigits2_bounds b Hb) as [Lo Hi]. split; intros H.
  - assert (2 ^ (D - 1) <= 2 ^ (Zdigits2 b - 1)) by (apply Z.pow_le_mono_r; lia).
    lia.
  - destruct (Z.le_gt_cases D (Zdigits2 b)) as [C|C]; [assumption|].
    assert (2 ^ Zdigits2 b <= 2 ^ (D - 1)) by (apply Z.pow_le_mono_r; lia).
    lia.
Qed.

Lemma scale_step (gas : nat) (m : positive) (e : Z) (j : nat) :
  mantissa53 m -> -1000 <= e <= 900 ->
  scale_loop (S gas) (S754_finite false m e) j
  = if (-42 <=? e) && (j <? 4)%nat
    then scale_loop gas (S754_finite false m (e - 10)) (S j)
    else (S754_finite false m e, j).
Proof.
  intros Hm He. cbn [scale_loop].
  rewrite js_ge_1024, js_div_1024 by assumption. reflexivity.
Qed.

Lemma integer_mantissa53 (z : Z) :
  0 < z < 2 ^ 53 -> mantissa53 (Z.to_pos (z * 2 ^ (53 - Zdigits2 z))).
Proof.
  intros H. unfold mantissa53.
  pose proof (Zdigits2_le z 53 ltac:(lia) ltac:(lia)).
  assert (0 < 2 ^ (53 - Zdigits2 z)) by (apply Z.pow_pos_nonneg; lia).
  rewrite Z2Pos.id by nia.
  pose proof (Zdigits2_bounds (z * 2 ^ (53 - Zdigits2 z)) ltac:(nia)) as B.
  rewrite Zdigits2_shift in B by lia.
  replace (Zdigits2 z + (53 - Zdigits2 z)) with 53 in B by lia.
  exact B.
Qed.

Lemma scale_loop_integer (b : Z) :
  0 < b < 2 ^ 53 ->
  scale_loop 5 (of_Z b) 0
  = (S754_finite false (Z.to_pos (b * 2 ^ (53 - Zdigits2 b)))
       (Zdigits2 b - 53 - 10 * Z.of_nat (unit_index b)),
     unit_index b).
Proof.
  intros Hb. rewrite of_Z_dyadic, dyadic_integer by lia.
  pose proof (integer_mantissa53 b Hb) as Hm.
  pose proof (Zdigits2_le b 53 ltac:(lia) ltac:(lia)) as Hd.
  pose proof (Zdigits2_pos b ltac:(lia)) as Hd0.
  pose proof (Zdigits2_ge b 11 ltac:(lia) ltac:(lia)) as G1.
  pose proof (Zdigits2_ge b 21 ltac:(lia) ltac:(lia)) as G2.
  pose proof (Zdigits2_ge b 31 ltac:(lia) ltac:(lia)) as G3.
  pose proof (Zdigits2_ge b 41 ltac:(lia) ltac:(lia)) as G4.
  change (2 ^ (11 - 1)) with 1024 in G1.
  change (2 ^ (21 - 1)) with (1024 ^ 2) in G2.
  change (2 ^ (31 - 1)) with (1024 ^ 3) in G3.
  change (2 ^ (41 - 1)) with (1024 ^ 4) in G4.
  set (d := Zdigits2 b) in *.
  set (m := Z.to_pos (b * 2 ^ (53 - d))) in *.
  unfold unit_index.
  rewrite scale_step by (assumption || lia).
  destruct (Z.ltb_spec b 1024) as [B1|B1];
    destruct (Z.leb_spec (-42) (d - 53)) as [L1|L1]; try lia;
    cbn [andb Nat.ltb Nat.leb].
  { f_equal; f_equal; lia. }
  rewrite scale_step by (assumption || lia).
  destruct (Z.ltb_spec b (1024 ^ 2)) as [B2|B2];
    destruct (Z.leb_spec (-42) (d - 53 - 10)) as [L2|L2]; try lia;
    cbn [andb Nat.ltb Nat.leb].
  { f_equal; f_equal; lia. }
  rewrite scale_step by (assumption || lia).
  destruct (Z.ltb_spec b (1024 ^ 3)) as [B3|B3];
    destruct (Z.leb_spec (-42) (d - 53 - 10 - 10)) as [L3|L3]; try lia;
    cbn [andb Nat.ltb Nat.leb].
  { f_equal; f_equal; lia. }
  rewrite scale_step by (assumption || lia).
  destruct (Z.ltb_spec b (1024 ^ 4)) as [B4|B4];
    destruct (Z.leb_spec (-42) (d - 53 - 10 - 10 - 10)) as [L4|L4]; try lia;
    cbn [andb Nat.ltb Nat.leb].
  { f_equal; f_equal; lia. }
  rewrite scale_step by (assumption || lia).
  rewrite andb_false_r. f_equal; f_equal; lia.
Qed.

(** The loop of [formatBytes] never runs out of gas: from [units.length]
    turns on, more gas changes nothing. *)
Lemma scale_loop_gas (gas : nat) (size : number) (j : nat) :
  (List.length units - 1 - j < gas)%nat ->
  scale_loop (S gas) size j = scale_loop gas size j.
Proof.
  revert size j. induction gas as [|gas IH]; intros size j Hgas; [lia|].
  cbn [scale_loop] in *.
  destruct (js_ge size (of_Z 1024)); cbn [andb]; [|reflexivity].
  destruct (Nat.ltb_spec j (List.length units - 1)) as [L|L]; [|reflexivity].
  apply IH. lia.
Qed.

Lemma scale_loop_enough (extra : nat) (size : number) :
  scale_loop (List.length units + extra) size 0
  = scale_loop (List.length units) size 0.
Proof.
  induction extra as [|extra IH]; [rewrite Nat.add_0_r; reflexivity|].
  rewrite Nat.add_succ_r, scale_loop_gas; [exact IH|]. cbn. lia.
Qed.

Lemma below_1e21_small (m : positive) (e : Z) :
  mantissa53 m -> e < 0 -> below_1e21 m e = true.
Proof.
  intros Hm He. unfold below_1e21, mantissa53 in *.
  destruct (Z.leb_spec 0 e); [lia|].
  apply Z.ltb_lt.
  assert (0 < 2 ^ (- e)) by (apply Z.pow_pos_nonneg; lia).
  change (2 ^ 53) with 9007199254740992 in Hm.
  change (10 ^ 21) with 1000000000000000000000. nia.
Qed.

(** [toFixed] of the float of [b / 2^t], [b] an integer. *)
Lemma toFixed_scaled_integer (b t : Z) (f : nat) :
  0 < b < 2 ^ 53 -> 0 <= t -> Zdigits2 b - 53 - t < 0 ->
  toFixed (S754_finite false (Z.to_pos (b * 2 ^ (53 - Zdigits2 b)))
             (Zdigits2 b - 53 - t)) f
  = Some (fixed_text ((2 * b * 10 ^ Z.of_nat f + 2 ^ t) / (2 * 2 ^ t)) f).
Proof.
  intros Hb Ht He. cbn [toFixed].
  rewrite below_1e21_small by (try apply integer_mantissa53; assumption).
  cbn [append]. f_equal. f_equal.
  unfold fixed_scaled.
  destruct (Z.leb_spec 0 (Zdigits2 b - 53 - t)); [lia|].
  pose proof (Zdigits2_le b 53 ltac:(lia) ltac:(lia)) as Hd.
  set (d := Zdigits2 b) in *.
  assert (Hp : 0 < 2 ^ (53 - d)) by (apply Z.pow_pos_nonneg; lia).
  assert (Hpt : 0 < 2 ^ t) by (apply Z.pow_pos_nonneg; lia).
  rewrite Z2Pos.id by nia.
  replace (- (d - 53 - t)) with ((53 - d) + t) by lia.
  replace (53 - d + t + 1) with ((53 - d) + (t + 1)) by lia.
  rewrite !Z.pow_add_r by lia. change (2 ^ 1) with 2.
  replace (2 * (b * 2 ^ (53 - d)) * 10 ^ Z.of_nat f + 2 ^ (53 - d) * 2 ^ t)
    with (2 ^ (53 - d) * (2 * b * 10 ^ Z.of_nat f + 2 ^ t)) by ring.
  rewrite Z.div_mul_cancel_l by lia.
  f_equal. ring.
Qed.

(** The integer [toFixed] settles on is the nearest to the scaled value,
    the larger one on a tie. *)
Lemma half_up_bounds (a K : Z) :
  0 < K ->
  2 * K * ((2 * a + K) / (2 * K)) <= 2 * a + K
  < 2 * K * ((2 * a + K) / (2 * K)) + 2 * K.
Proof.
  intros HK.
  pose proof (Z.div_mod (2 * a + K) (2 * K) ltac:(lia)).
  pose proof (Z.mod_pos_bound (2 * a + K) (2 * K) ltac:(lia)).
  lia.
Qed.

Lemma formatBytes_integer (b : Z) :
  0 <= b < 2 ^ 53 ->
  let k := unit_index b in
  let n := (200 * b + 1024 ^ Z.of_nat k) / (2 * 1024 ^ Z.of_nat k) in
  formatBytes (of_Z b)
  = Some (fixed_text n 2 ++ " " ++ nth k units "undefined")
  /\ In (nth k units "undefined") units
  /\ (k = 4%nat \/ b < 1024 * 1024 ^ Z.of_nat k)
  /\ (k = 0%nat \/ 1024 ^ Z.of_nat k <= b)
  /\ decimal_value (fixed_text n 2) = Some (n # 100)
  /\ Z.abs (n * 1024 ^ Z.of_nat k - 100 * b) <= b.
Proof.
  intros Hb k n.

  assert (Hk : (k <= 4)%nat /\ (k = 4%nat \/ b < 1024 * 1024 ^ Z.of_nat k)
               /\ (k = 0%nat \/ 1024 ^ Z.of_nat k <= b)).
  { subst k. unfold unit_index.
    destruct (Z.ltb_spec b 1024); [cbn; lia|].
    destruct (Z.ltb_spec b (1024 ^ 2)); [cbn in *; lia|].
    destruct (Z.ltb_spec b (1024 ^ 3)); [cbn in *; lia|].
    destruct (Z.ltb_spec b (1024 ^ 4)); cbn in *; lia. }
  destruct Hk as (Hk4 & Hlt & Hge).
  assert (Hpk : 0 < 1024 ^ Z.of_nat k) by (apply Z.pow_pos_nonneg; lia).
  assert (Hn : 0 <= n) by (subst n; apply Z.div_pos; lia).
  repeat apply conj.
  - unfold formatBytes. change (List.length units) with 5%nat.
    destruct (Z.eq_dec b 0) as [->|Hnz].
    + reflexivity.
    + rewrite scale_loop_integer by lia. fold k.
      replace (Zdigits2 b - 53 - 10 * Z.of_nat k)
        with (Zdigits2 b - 53 - (10 * Z.of_nat k)) by lia.
      assert (Hneg : Zdigits2 b - 53 - 10 * Z.of_nat k < 0).
      { pose proof (Zdigits2_le b 53 ltac:(lia) ltac:(lia)).
        destruct (Nat.eq_dec k 0) as [K0|K0]; [|lia].
        rewrite K0 in Hlt |- *. change (1024 ^ Z.of_nat 0) with 1 in Hlt.
        pose proof (Zdigits2_le b 10 ltac:(lia)
                      ltac:(change (2 ^ 10) with 1024; lia)).
        lia. }
      rewrite toFixed_scaled_integer by lia.
      change (10 ^ Z.of_nat 2) with 100.
      replace (2 ^ (10 * Z.of_nat k)) with (1024 ^ Z.of_nat k)
        by (rewrite Z.pow_mul_r by lia; reflexivity).
      replace (2 * b * 100) with (200 * b) by ring.
      reflexivity.
  - apply nth_In. cbn. lia.
  - exact Hlt.
  - exact Hge.
  - rewrite decimal_value_fixed by (auto || lia). reflexivity.
  - pose proof (half_up_bounds (100 * b) (1024 ^ Z.of_nat k) Hpk) as Hh.
    replace (2 * (100 * b)) with (200 * b) in Hh by ring. fold n in Hh.
    apply Z.abs_le.
    destruct Hge as [Hk0 | Hge].
    + rewrite Hk0 in *. change (1024 ^ Z.of_nat 0) with 1 in *. lia.
    + lia.
Qed.

(** C2. For an integer byte count [b] below [2^53], [formatBytes] picks
    the unit of index [k] in [B, KB, MB, GB, TB] for which the scaled value
    [b / 1024^k] is below 1024 (unless the unit is already TB) and at least 1
    (unless it is B); it renders the scaled value with two decimals, as the
    nearest hundredth [n / 100]; and the rendered value scaled back,
    [n / 100 * 1024^k], is within 1% of [b].  In particular
    [formatBytes(1073741824)] is ["1.00 GB"]. *)
Theorem formatBytes_scales :
  (forall b : Z,
      0 <= b < 2 ^ 53 ->
      let k := unit_index b in
      let n := (200 * b + 1024 ^ Z.of_nat k) / (2 * 1024 ^ Z.of_nat k) in
      formatBytes (of_Z b)
      = Some (fixed_text n 2 ++ " " ++ nth k units "undefined")
      /\ In (nth k units "undefined") units
      /\ (k = 4%nat \/ b < 1024 * 1024 ^ Z.of_nat k)
      /\ (k = 0%nat \/ 1024 ^ Z.of_nat k <= b)
      /\ decimal_value (fixed_text n 2) = Some (n # 100)
      /\ Z.abs (n * 1024 ^ Z.of_nat k - 100 * b) <= b)
  /\ formatBytes (of_Z 1073741824) = Some "1.00 GB".
Proof.
  split; [exact formatBytes_integer | vm_compute; reflexivity].
Qed.

Lemma dyadic_positive (M E : Z) :
  0 < M < 2 ^ 53 ->
  dyadic M E
  = S754_finite false (Z.to_pos (M * 2 ^ (53 - Zdigits2 M)))
      (E + Zdigits2 M - 53).
Proof.
  intros H. unfold dyadic. destruct M as [|p|p]; try lia.
  pose proof (Zdigits2_le (Z.pos p) 53 ltac:(lia) ltac:(lia)) as L.
  apply Z.leb_le in L. rewrite L. reflexivity.
Qed.

Lemma Math_floor_dyadic (M e : Z) :
  0 <= M < 2 ^ 53 -> e <= 0 ->
  Math_floor (dyadic M e) = of_Z (M / 2 ^ (- e)).
Proof.
  intros HM He.
  assert (Hpe : 0 < 2 ^ (- e)) by (apply Z.pow_pos_nonneg; lia).
  destruct (Z.eq_dec M 0) as [->|Hnz]; [rewrite Z.div_0_l by lia; reflexivity|].
  rewrite dyadic_positive by lia.
  pose proof (Zdigits2_le M 53 ltac:(lia) ltac:(lia)) as Hd.
  set (d := Zdigits2 M) in *.
  assert (Hp : 0 < 2 ^ (53 - d)) by (apply Z.pow_pos_nonneg; lia).
  cbn [Math_floor cond_Zopp].
  destruct (Z.leb_spec 0 (e + d - 53)) as [L|L].
  - assert (e = 0) by lia. assert (d = 53) by lia. subst e.
    change (2 ^ (- 0)) with 1. rewrite Z.div_1_r.
    rewrite of_Z_dyadic, dyadic_positive by lia. fold d. f_equal; lia.
  - rewrite Z2Pos.id by nia.
    replace (- (e + d - 53)) with ((53 - d) + (- e)) by lia.
    rewrite Z.pow_add_r by lia.
    rewrite (Z.mul_comm M), Z.div_mul_cancel_l by lia.
    unfold of_Z. destruct (M / 2 ^ (- e)); reflexivity.
Qed.

Lemma toString_integer (K : Z) :
  0 <= K < 2 ^ 53 -> toString (of_Z K) = Some (digits_of K).
Proof.
  intros HK. rewrite of_Z_dyadic by lia.
  destruct (Z.eq_dec K 0) as [->|Hnz]; [reflexivity|].
  rewrite dyadic_positive by lia.
  pose proof (Zdigits2_le K 53 ltac:(lia) ltac:(lia)) as Hd.
  set (d := Zdigits2 K) in *.
  assert (Hp : 0 < 2 ^ (53 - d)) by (apply Z.pow_pos_nonneg; lia).
  cbn [toString]. unfold integer_value. rewrite Z2Pos.id by nia.
  assert (Hv : (if 0 <=? 0 + d - 53
                then Some (cond_Zopp false (K * 2 ^ (53 - d) * 2 ^ (0 + d - 53)))
                else if K * 2 ^ (53 - d) mod 2 ^ (- (0 + d - 53)) =? 0
                     then Some (cond_Zopp false
                                  (K * 2 ^ (53 - d) / 2 ^ (- (0 + d - 53))))
                     else None) = Some K).
  { destruct (Z.leb_spec 0 (0 + d - 53)).
    - replace d with 53 by lia. cbn. f_equal; lia.
    - replace (- (0 + d - 53)) with (53 - d) by lia.
      rewrite Z.mod_mul, Z.div_mul by lia. reflexivity. }
  rewrite Hv.
  rewrite Z.abs_eq by lia.
  destruct (Z.ltb_spec K (2 ^ 53)) as [C|C]; [reflexivity|lia].
Qed.

Lemma div_between (a b q : Z) : 0 < b -> q * b <= a < (q + 1) * b -> a / b = q.
Proof.
  intros Hb [L U]. symmetry. apply Z.div_unique with (a - q * b); lia.
Qed.

(** Flooring a quotient by an integer constant gives the exact integer
    quotient: the rounding of the division never reaches the next
    integer. *)
Lemma floor_div_normal (m : positive) (e c : Z) :
  mantissa53 m -> -1021 <= e <= 0 -> 4 <= c < 2 ^ 52 ->
  Math_floor (js_div (S754_finite false m e) (of_Z c))
  = of_Z (Zpos m / (c * 2 ^ (- e))).
Proof.
  intros Hm He Hc.
  assert (Hc53 : 0 < c < 2 ^ 53).
  { change (2 ^ 52) with 4503599627370496 in Hc.
    change (2 ^ 53) with 9007199254740992. lia. }
  rewrite (of_Z_dyadic c), (dyadic_integer c) by lia.
  pose proof (integer_mantissa53 c Hc53) as Hmc.
  assert (Hdc : 3 <= Zdigits2 c <= 52).
  { split.
    - apply Zdigits2_ge; [lia|lia|]. change (2 ^ (3 - 1)) with 4. lia.
    - apply Zdigits2_le; lia. }
  set (dc := Zdigits2 c) in *.
  rewrite js_div_normal by (assumption || lia).
  cbn [xorb]. unfold nearest.
  assert (Hpc : 0 < 2 ^ (53 - dc)) by (apply Z.pow_pos_nonneg; lia).
  rewrite Z2Pos.id in * by nia.
  set (N := Z.pos m * 2 ^ 53). set (D := c * 2 ^ (53 - dc)).
  unfold mantissa53 in Hm, Hmc. rewrite Z2Pos.id in Hmc by nia. fold D in Hmc.
  assert (Hq : 2 ^ 52 <= N / D < 2 ^ 54).
  { split.
    - apply Z.div_le_lower_bound; [lia|]. subst N. nia.
    - apply Z.div_lt_upper_bound; [lia|]. subst N. nia. }
  assert (Hn : 0 <= Zdigits2 (N / D) - 53 <= 1).
  { assert (Zdigits2 (N / D) <= 54) by (apply Zdigits2_le; lia).
    assert (53 <= Zdigits2 (N / D)).
    { apply Zdigits2_ge; [lia|lia|]. change (2 ^ (53 - 1)) with (2 ^ 52). lia. }
    lia. }
  set (n := Zdigits2 (N / D) - 53) in *.
  set (k := - e).
  set (A := k + dc - n).
  replace (e - (dc - 53) - 53 + n) with (- A) by (subst A k; lia).
  assert (HA : 2 <= A) by (subst A k; lia).
  assert (Hpk : 0 < 2 ^ k) by (apply Z.pow_pos_nonneg; subst k; lia).
  assert (Hpn : 0 < 2 ^ n) by (apply Z.pow_pos_nonneg; lia).
  assert (HpA : 0 < 2 ^ A) by (apply Z.pow_pos_nonneg; lia).
  assert (Hn2 : 2 ^ n <= 2).
  { change 2 with (2 ^ 1) at 2. apply Z.pow_le_mono_r; lia. }
  assert (Hrel : 2 ^ A * 2 ^ (53 - dc) * 2 ^ n = 2 ^ k * 2 ^ 53).
  { rewrite <- !Z.pow_add_r by (subst A k; lia). f_equal. subst A. lia. }
  set (K := Z.pos m / (c * 2 ^ k)).
  assert (HK : K * (c * 2 ^ k) <= Z.pos m < (K + 1) * (c * 2 ^ k)).
  { pose proof (Z.div_mod (Z.pos m) (c * 2 ^ k) ltac:(nia)).
    pose proof (Z.mod_pos_bound (Z.pos m) (c * 2 ^ k) ltac:(nia)).
    subst K. nia. }
  assert (HK0 : 0 <= K) by (subst K; apply Z.div_pos; nia).
  set (m1 := rne N (D * 2 ^ n)).
  assert (Hlo : K * 2 ^ A <= m1).
  { apply rne_ge; [nia|].
    replace (K * 2 ^ A * (D * 2 ^ n))
      with (K * c * (2 ^ A * 2 ^ (53 - dc) * 2 ^ n)) by (subst D; ring).
    rewrite Hrel. subst N. nia. }
  assert (Hhi : m1 < (K + 1) * 2 ^ A).
  { apply rne_lt; [nia|].
    replace ((K + 1) * 2 ^ A * (D * 2 ^ n))
      with ((K + 1) * c * (2 ^ A * 2 ^ (53 - dc) * 2 ^ n)) by (subst D; ring).
    rewrite Hrel. subst N.
    assert (D * 2 ^ n < 2 * 2 ^ 53) by nia.
    assert (Z.pos m + 1 <= (K + 1) * c * 2 ^ k) by nia.
    nia. }
  assert (Hfloor : m1 / 2 ^ A = K) by (apply div_between; lia).
  assert (Hm1 : m1 <= 2 ^ 53).
  { pose proof (rne_floor_ceil N (D * 2 ^ n) ltac:(nia)) as [_ U]. fold m1 in U.
    assert (N / (D * 2 ^ n) < 2 ^ 53); [|lia].
    apply Z.div_lt_upper_bound; [nia|].
    pose proof (Zdigits2_bounds (N / D) ltac:(lia)) as [_ Ud].
    replace (Zdigits2 (N / D)) with (53 + n) in Ud by (subst n; lia).
    rewrite Z.pow_add_r in Ud by lia.
    pose proof (Z.div_mod N D ltac:(lia)).
    pose proof (Z.mod_pos_bound N D ltac:(lia)).
    nia. }
  assert (Hm1pos : 2 ^ 52 <= m1).
  { pose proof (rne_floor_ceil N (D * 2 ^ n) ltac:(nia)) as [L _]. fold m1 in L.
    assert (2 ^ 52 <= N / (D * 2 ^ n)); [|lia].
    apply Z.div_le_lower_bound; [nia|].
    pose proof (Zdigits2_bounds (N / D) ltac:(lia)) as [Ld _].
    replace (Zdigits2 (N / D) - 1) with (52 + n) in Ld by (subst n; lia).
    rewrite Z.pow_add_r in Ld by lia.
    pose proof (Z.div_mod N D ltac:(lia)).
    pose proof (Z.mod_pos_bound N D ltac:(lia)).
    nia. }
  destruct (Z.ltb_spec m1 (2 ^ 53)) as [C|C].
  - cbn [Math_floor cond_Zopp].
    destruct (Z.leb_spec 0 (- A)); [lia|].
    rewrite Z2Pos.id by lia. rewrite Z.opp_involutive, Hfloor.
    unfold of_Z. destruct K; reflexivity.
  - assert (E : m1 = 2 ^ 53) by lia.
    cbn [Math_floor cond_Zopp].
    destruct (Z.leb_spec 0 (- A + 1)); [lia|].
    replace (- (- A + 1)) with (A - 1) by lia.
    assert (Hfl2 : Z.pos (Z.to_pos (2 ^ 52)) / 2 ^ (A - 1) = K).
    { rewrite <- Hfloor, E.
      replace A with (1 + (A - 1)) at 2 by lia.
      rewrite Z.pow_add_r by lia.
      change (2 ^ 53) with (2 ^ 1 * 2 ^ 52).
      rewrite Z.div_mul_cancel_l by lia. reflexivity. }
    rewrite Hfl2. unfold of_Z. destruct K; reflexivity.
Qed.

Lemma floor_div_dyadic (r e c : Z) :
  0 <= r < 2 ^ 53 -> -960 <= e <= 0 -> 4 <= c < 2 ^ 52 ->
  Math_floor (js_div (dyadic r e) (of_Z c)) = of_Z (r / 2 ^ (- e) / c).
Proof.
  intros Hr He Hc.
  assert (Hc53 : 0 < c < 2 ^ 53).
  { change (2 ^ 52) with 4503599627370496 in Hc.
    change (2 ^ 53) with 9007199254740992. lia. }
  assert (Hpe : 0 < 2 ^ (- e)) by (apply Z.pow_pos_nonneg; lia).
  destruct (Z.eq_dec r 0) as [->|Hnz].
  { rewrite (of_Z_dyadic c), (dyadic_integer c) by lia.
    rewrite !Zdiv_0_l. reflexivity. }
  rewrite dyadic_positive by lia.
  pose proof (Zdigits2_le r 53 ltac:(lia) ltac:(lia)) as Hd.
  pose proof (Zdigits2_pos r ltac:(lia)) as Hd0.
  set (d := Zdigits2 r) in *.
  assert (Hp : 0 < 2 ^ (53 - d)) by (apply Z.pow_pos_nonneg; lia).
  rewrite floor_div_normal; [| apply integer_mantissa53; lia | lia | lia].
  f_equal. rewrite Z2Pos.id by nia.
  replace (- (e + d - 53)) with ((- e) + (53 - d)) by lia.
  rewrite Z.pow_add_r by lia.
  rewrite Z.mul_assoc, Z.div_mul_cancel_r by lia.
  rewrite Z.div_div by lia. f_equal. ring.
Qed.

Lemma dyadic_normal (m : positive) (e : Z) :
  mantissa53 m -> dyadic (Zpos m) e = S754_finite false m e.
Proof.
  intros Hm. unfold dyadic. rewrite (mantissa53_digits m Hm).
  cbn. f_equal; lia.
Qed.

(** The remainder by an integer is exact. *)
Lemma js_rem_normal (m : positive) (e c : Z) :
  mantissa53 m -> -1000 <= e <= 0 -> 0 < c < 2 ^ 53 ->
  js_rem (S754_finite false m e) (of_Z c)
  = dyadic (Zpos m mod (c * 2 ^ (- e))) e.
Proof.
  intros Hm He Hc.
  rewrite (of_Z_dyadic c), (dyadic_integer c) by lia.
  pose proof (Zdigits2_le c 53 ltac:(lia) ltac:(lia)) as Hdc.
  pose proof (Zdigits2_pos c ltac:(lia)) as Hdc0.
  cbn [js_rem].
  set (ez := Z.min e (Zdigits2 c - 53)).
  rewrite !aligned_mantissa by lia.
  rewrite (integer_mantissa c ez) by lia.
  assert (Hpe : 0 < 2 ^ (- e)) by (apply Z.pow_pos_nonneg; lia).
  assert (Hps : 0 < 2 ^ (e - ez)) by (apply Z.pow_pos_nonneg; lia).
  assert (Hsplit : c * 2 ^ (- ez) = c * 2 ^ (- e) * 2 ^ (e - ez)).
  { rewrite <- Z.mul_assoc, <- Z.pow_add_r by lia. do 2 f_equal. lia. }
  rewrite Hsplit, Z.mul_mod_distr_r by nia.
  set (r := Z.pos m mod (c * 2 ^ (- e))).
  assert (Hr : 0 <= r < c * 2 ^ (- e)) by (apply Z.mod_pos_bound; nia).
  assert (Hrm : r <= Z.pos m) by (apply Z.mod_le; nia).
  unfold mantissa53 in Hm.
  destruct (Z.eq_dec r 0) as [E|E].
  { rewrite E. reflexivity. }
  destruct (r * 2 ^ (e - ez)) as [|p|p] eqn:Er; [nia| |nia].
  cbn [cond_Zopp]. rewrite <- Er.
  rewrite binary_normalize_dyadic.
  - rewrite dyadic_scale by lia. f_equal. lia.
  - nia.
  - apply representable_scale; [lia|lia|]. apply representable_small. lia.
  - rewrite Zdigits2_shift by lia.
    pose proof (Zdigits2_le r 53 ltac:(lia) ltac:(lia)).
    pose proof (Zdigits2_pos r ltac:(lia)). lia.
Qed.

Lemma js_rem_dyadic (M e c : Z) :
  0 <= M < 2 ^ 53 -> -948 <= e <= 0 -> 0 < c < 2 ^ 53 ->
  js_rem (dyadic M e) (of_Z c) = dyadic (M mod (c * 2 ^ (- e))) e.
Proof.
  intros HM He Hc.
  assert (Hpe : 0 < 2 ^ (- e)) by (apply Z.pow_pos_nonneg; lia).
  destruct (Z.eq_dec M 0) as [->|Hnz].
  { rewrite Z.mod_0_l by nia.
    rewrite (of_Z_dyadic c), (dyadic_integer c) by lia. reflexivity. }
  rewrite dyadic_positive by lia.
  pose proof (Zdigits2_le M 53 ltac:(lia) ltac:(lia)) as Hd.
  pose proof (Zdigits2_pos M ltac:(lia)) as Hd0.
  set (d := Zdigits2 M) in *.
  assert (Hp : 0 < 2 ^ (53 - d)) by (apply Z.pow_pos_nonneg; lia).
  rewrite js_rem_normal; [| apply integer_mantissa53; lia | lia | lia].
  rewrite Z2Pos.id by nia.
  replace (- (e + d - 53)) with ((- e) + (53 - d)) by lia.
  rewrite Z.pow_add_r, Z.mul_assoc, Z.mul_mod_distr_r by nia.
  rewrite dyadic_scale; [f_equal; lia| |lia].
  apply Z.mod_pos_bound. nia.
Qed.

Lemma mod_div_scale (M c P : Z) :
  0 < c -> 0 < P -> M mod (c * P) / P = (M / P) mod c.
Proof.
  intros Hc HP. rewrite (Z.mul_comm c P), Z.rem_mul_r by lia.
  rewrite (Z.mul_comm P), Z.div_add by lia.
  rewrite Z.div_small by (apply Z.mod_pos_bound; lia). reflexivity.
Qed.

Lemma F2Q_dyadic (M e : Z) :
  0 <= M < 2 ^ 53 -> (F2Q (dyadic M e) == inject_Z M * 2 ^ e)%Q.
Proof.
  intros HM. destruct (Z.eq_dec M 0) as [->|Hnz].
  { cbn. ring. }
  rewrite dyadic_positive by lia.
  pose proof (Zdigits2_le M 53 ltac:(lia) ltac:(lia)) as Hd.
  set (d := Zdigits2 M) in *.
  assert (Hp : 0 < 2 ^ (53 - d)) by (apply Z.pow_pos_nonneg; lia).
  cbn [F2Q cond_Zopp]. rewrite Z2Pos.id by nia.
  rewrite inject_Z_mult, pow2_inject by lia.
  replace (e + d - 53) with (e - (53 - d)) by lia.
  rewrite (pow2_sub e (53 - d)). pose proof (pow2_nonzero (53 - d)).
  field. assumption.
Qed.

Lemma Qfloor_dyadic (M e : Z) :
  e <= 0 -> Qfloor (inject_Z M * 2 ^ e) = M / 2 ^ (- e).
Proof.
  intros He.
  assert (Hp : 0 < 2 ^ (- e)) by (apply Z.pow_pos_nonneg; lia).
  assert (E : (inject_Z M * 2 ^ e == M # Z.to_pos (2 ^ (- e)))%Q).
  { rewrite (Qmake_Qdiv M), Z2Pos.id, pow2_inject by lia.
    replace e with (- (- e)) at 1 by lia. rewrite Qpower_opp. reflexivity. }
  rewrite E. cbn [Qfloor]. rewrite Z2Pos.id by lia. reflexivity.
Qed.

Lemma seconds_86400 : js_mul (of_Z 3600) (of_Z 24) = of_Z 86400.
Proof. vm_compute. reflexivity. Qed.

(** C9. For a number of seconds that is a multiple of [2^-948] below
    [2^53] (the value [M * 2^e]), [formatUptime] prints the days, hours,
    minutes and seconds of its integer part [T]: each is a floor, nothing is
    rounded up, and together they make up [T] exactly.  In particular
    [formatUptime(90061)] is ["1d 1h 1m 1s"]. *)
Theorem formatUptime_floors :
  (forall M e : Z,
      0 <= M < 2 ^ 53 -> -948 <= e <= 0 ->
      let T := M / 2 ^ (- e) in
      Qfloor (F2Q (dyadic M e)) = T
      /\ formatUptime (dyadic M e)
         = Some (digits_of (T / 86400) ++ "d " ++
                 digits_of (T mod 86400 / 3600) ++ "h " ++
                 digits_of (T mod 3600 / 60) ++ "m " ++
                 digits_of (T mod 60) ++ "s")
      /\ T = 86400 * (T / 86400) + 3600 * (T mod 86400 / 3600)
             + 60 * (T mod 3600 / 60) + T mod 60
      /\ 0 <= T mod 86400 / 3600 < 24
      /\ 0 <= T mod 3600 / 60 < 60
      /\ 0 <= T mod 60 < 60)
  /\ formatUptime (of_Z 90061) = Some "1d 1h 1m 1s".
Proof.
  split; [|vm_compute; reflexivity].
  intros M e HM He T.
  assert (Hpe : 0 < 2 ^ (- e)) by (apply Z.pow_pos_nonneg; lia).
  assert (HT : 0 <= T < 2 ^ 53).
  { subst T. split; [apply Z.div_pos; lia|].
    apply Z.div_lt_upper_bound; [lia|]. nia. }
  pose proof (Z.mod_pos_bound T 86400 ltac:(lia)) as B1.
  pose proof (Z.mod_pos_bound T 3600 ltac:(lia)) as B2.
  pose proof (Z.mod_pos_bound T 60 ltac:(lia)) as B3.
  pose proof (Z.div_mod T 86400 ltac:(lia)) as E1.
  pose proof (Z.div_mod (T mod 86400) 3600 ltac:(lia)) as E2.
  pose proof (Z.mod_pos_bound (T mod 86400) 3600 ltac:(lia)) as B4.
  pose proof (Z.div_mod (T mod 3600) 60 ltac:(lia)) as E3.
  pose proof (Z.mod_pos_bound (T mod 3600) 60 ltac:(lia)) as B5.
  assert (M1 : (T mod 86400) mod 3600 = T mod 3600).
  { change 86400 with (3600 * 24). rewrite Z.rem_mul_r by lia.
    rewrite Z.mul_comm, Z.mod_add by lia. apply Z.mod_mod. lia. }
  assert (M2 : (T mod 3600) mod 60 = T mod 60).
  { change 3600 with (60 * 60). rewrite Z.rem_mul_r by lia.
    rewrite Z.mul_comm, Z.mod_add by lia. apply Z.mod_mod. lia. }
  assert (HD : 0 <= T / 86400 < 2 ^ 53).
  { split; [apply Z.div_pos; lia|].
    apply Z.div_lt_upper_bound; lia. }
  change (2 ^ 53) with 9007199254740992 in *.
  repeat apply conj.
  - rewrite (Qfloor_comp _ _ (F2Q_dyadic M e HM)). apply Qfloor_dyadic. lia.
  - unfold formatUptime. rewrite seconds_86400.
    rewrite !js_rem_dyadic by lia.
    rewrite !floor_div_dyadic, Math_floor_dyadic;
      try lia;
      try (split; [apply Z.mod_pos_bound; nia|];
           eapply Z.le_lt_trans; [apply Z.mod_le; nia|lia]).
    rewrite !mod_div_scale by lia. fold T.
    rewrite !toString_integer by lia.
    reflexivity.
  - lia.
  - lia.
  - lia.
  - lia.
  - lia.
  - lia.
  - lia.
Qed.

(** ** Percentages *)

Lemma of_Z_value (z : Z) :
  0 < z < 2 ^ 53 ->
  exists m e,
    of_Z z = S754_finite false m e
    /\ mantissa53 m /\ -52 <= e <= 0
    /\ (F2Q (S754_finite false m e) == inject_Z z)%Q.
Proof.
  intros Hz.
  pose proof (Zdigits2_le z 53 ltac:(lia) ltac:(lia)) as Hd.
  pose proof (Zdigits2_pos z ltac:(lia)) as Hd0.
  exists (Z.to_pos (z * 2 ^ (53 - Zdigits2 z))), (Zdigits2 z - 53).
  split; [rewrite of_Z_dyadic, dyadic_integer by lia; reflexivity|].
  split; [apply integer_mantissa53; assumption|].
  split; [lia|].
  rewrite <- (dyadic_integer z) by lia.
  rewrite F2Q_dyadic by lia. change (2 ^ 0)%Q with 1%Q. ring.
Qed.

(** [toFixed] takes the nearest multiple of [10^-f], the larger on a tie. *)
Lemma fixed_scaled_value (m : positive) (e : Z) (f : nat) :
  e < 0 ->
  (inject_Z (fixed_scaled m e f)
   <= inject_Z (10 ^ Z.of_nat f) * F2Q (S754_finite false m e) + (1 # 2)
   /\ inject_Z (10 ^ Z.of_nat f) * F2Q (S754_finite false m e) + (1 # 2)
      < inject_Z (fixed_scaled m e f) + 1)%Q.
Proof.
  intros He. unfold fixed_scaled.
  destruct (Z.leb_spec 0 e); [lia|].
  set (a := Z.pos m * 10 ^ Z.of_nat f).
  set (K := 2 ^ (- e)).
  assert (HK : 0 < K) by (apply Z.pow_pos_nonneg; lia).
  replace (2 * Z.pos m * 10 ^ Z.of_nat f) with (2 * a) by (subst a; ring).
  replace (2 ^ (- e + 1)) with (2 * K)
    by (subst K; rewrite Z.pow_add_r by lia; change (2 ^ 1) with 2; ring).
  pose proof (half_up_bounds a K HK) as [L U].
  set (n := (2 * a + K) / (2 * K)) in *.
  cbn [F2Q cond_Zopp].
  assert (EK : (2 ^ e == / inject_Z K)%Q).
  { subst K. rewrite pow2_inject by lia.
    replace e with (- (- e)) at 1 by lia. apply Qpower_opp. }
  assert (QK : (0 < inject_Z K)%Q) by (rewrite <- (Zlt_Qlt 0); lia).
  assert (Ea : (inject_Z (10 ^ Z.of_nat f) * (inject_Z (Z.pos m) * 2 ^ e)
                == inject_Z a / inject_Z K)%Q).
  { rewrite EK. subst a. rewrite inject_Z_mult. field. lra. }
  rewrite Ea.
  assert (QL : (2 * inject_Z K * inject_Z n <= 2 * inject_Z a + inject_Z K)%Q).
  { change 2%Q with (inject_Z 2).
    rewrite <- !inject_Z_mult, <- inject_Z_plus, <- Zle_Qle. exact L. }
  assert (QU : (2 * inject_Z a + inject_Z K
                < 2 * inject_Z K * inject_Z n + 2 * inject_Z K)%Q).
  { change 2%Q with (inject_Z 2).
    rewrite <- !inject_Z_mult, <- !inject_Z_plus, <- Zlt_Qlt. exact U. }
  set (qa := inject_Z a) in *. set (qK := inject_Z K) in *.
  set (qn := inject_Z n) in *.
  clearbody qa qK qn.
  assert (Ediv : (qa / qK * qK == qa)%Q) by (field; lra).
  set (v := (qa / qK)%Q) in *. clearbody v.
  split.
  - apply Qmult_le_r with (2 * qK)%Q; [lra|].
    setoid_replace ((v + (1 # 2)) * (2 * qK))%Q with (2 * (v * qK) + qK)%Q
      by ring.
    rewrite Ediv. lra.
  - apply Qmult_lt_r with (2 * qK)%Q; [lra|].
    setoid_replace ((v + (1 # 2)) * (2 * qK))%Q with (2 * (v * qK) + qK)%Q
      by ring.
    rewrite Ediv. lra.
Qed.

Lemma of_Z_100 : of_Z 100 = S754_finite false 7036874417766400 (-46).
Proof. reflexivity. Qed.

Lemma F2Q_100 : (F2Q (S754_finite false 7036874417766400 (-46)) == 100)%Q.
Proof. reflexivity. Qed.

Lemma finite_exponent_negative (m : positive) (e : Z) :
  mantissa53 m -> (F2Q (S754_finite false m e) < 2 ^ 52)%Q -> e < 0.
Proof.
  intros Hm Hv. destruct (Z.lt_ge_cases e 0) as [C|C]; [assumption|].
  exfalso. cbn [F2Q cond_Zopp] in Hv.
  assert (H1 : (1 <= 2 ^ e)%Q) by (apply Qpower_1_le; [lra|lia]).
  assert (H2 : (2 ^ 52 <= inject_Z (Z.pos m))%Q).
  { change (2 ^ 52)%Q with (inject_Z (2 ^ 52)). rewrite <- Zle_Qle. apply Hm. }
  set (a := inject_Z (Z.pos m)) in *. set (b := (2 ^ e)%Q) in *.
  clearbody a b. change (2 ^ 52)%Q with (4503599627370496 # 1)%Q in *.
  nra.
Qed.

(** The percentage of [u] in [t] as the program computes and prints it:
    the printed number is the multiple of [10^-f] nearest to the exact
    percentage, up to the rounding of the two floating-point operations. *)
Lemma percentage_integer (u t : Z) (f : nat) :
  0 <= u <= t -> 0 < t < 2 ^ 53 -> (f = 1 \/ f = 2)%nat ->
  exists n,
    percentage (of_Z u) (of_Z t) f = Some (fixed_text n f)
    /\ 0 <= n
    /\ (inject_Z n - (1 # 2) - (1 # 1000000000)
        <= inject_Z (10 ^ Z.of_nat f) * (100 * (inject_Z u / inject_Z t))
        <= inject_Z n + (1 # 2) + (1 # 1000000000))%Q.
Proof.
  intros Hu Ht Hf. unfold percentage.
  destruct (of_Z_value t Ht) as (mt & et & Et & Hmt & Het & Vt).
  assert (Qt : (0 < inject_Z t)%Q) by (rewrite <- (Zlt_Qlt 0); lia).
  destruct (Z.eq_dec u 0) as [->|Hnz].
  { exists 0. rewrite Et, of_Z_100. split; [reflexivity|]. split; [lia|].
    setoid_replace (inject_Z 0 / inject_Z t)%Q with 0%Q by (field; lra).
    change (inject_Z 0) with 0%Q.
    destruct Hf as [-> | ->].
    - change (inject_Z (10 ^ Z.of_nat 1)) with (10 # 1)%Q. split; lra.
    - change (inject_Z (10 ^ Z.of_nat 2)) with (100 # 1)%Q. split; lra. }
  assert (Hu' : 0 < u < 2 ^ 53) by lia.
  destruct (of_Z_value u Hu') as (mu & eu & Eu & Hmu & Heu & Vu).
  rewrite Eu, Et, of_Z_100.
  destruct (js_div_value mu mt eu et Hmu Hmt ltac:(lia))
    as (mq & eq & Eq & Hmq & Heq & Vq).
  rewrite Eq.
  destruct (js_mul_value mq 7036874417766400 eq (-46) Hmq
              ltac:(unfold mantissa53; lia) ltac:(lia))
    as (mp & ep & Ep & Hmp & Hep & Vp).
  rewrite Ep. rewrite F2Q_100 in Vp. rewrite Vu, Vt in Vq.
  set (r := (inject_Z u / inject_Z t)%Q) in *.
  assert (Hr : (0 < r <= 1)%Q).
  { assert (Qu : (0 < inject_Z u)%Q) by (rewrite <- (Zlt_Qlt 0); lia).
    assert (Qut : (inject_Z u <= inject_Z t)%Q) by (rewrite <- Zle_Qle; lia).
    subst r. split.
    - apply Qlt_shift_div_l; lra.
    - apply Qle_shift_div_r; lra. }
  set (vq := F2Q (S754_finite false mq eq)) in *.
  set (vp := F2Q (S754_finite false mp ep)) in *.
  change (1 / 2 ^ 53)%Q with (1 # 9007199254740992)%Q in Vq, Vp.
  assert (Hneg : ep < 0).
  { apply (finite_exponent_negative mp ep Hmp). fold vp.
    change (2 ^ 52)%Q with (4503599627370496 # 1)%Q.
    clearbody r vq vp. lra. }
  cbn [toFixed]. rewrite below_1e21_small by assumption.
  exists (fixed_scaled mp ep f). cbn [append].
  split; [reflexivity|].
  split.
  { unfold fixed_scaled. destruct (Z.leb_spec 0 ep); [lia|].
    apply Z.div_pos; [|apply Z.pow_pos_nonneg; lia].
    assert (0 < 2 ^ (- ep)) by (apply Z.pow_pos_nonneg; lia).
    assert (0 < 10 ^ Z.of_nat f) by (apply Z.pow_pos_nonneg; lia).
    nia. }
  pose proof (fixed_scaled_value mp ep f Hneg) as [L U]. fold vp in L, U.
  set (qn := inject_Z (fixed_scaled mp ep f)) in *.
  clearbody r vq vp qn.
  destruct Hf as [-> | ->].
  - change (inject_Z (10 ^ Z.of_nat 1)) with (10 # 1)%Q in *. split; lra.
  - change (inject_Z (10 ^ Z.of_nat 2)) with (100 # 1)%Q in *. split; lra.
Qed.

Lemma formatBytes_some (b : Z) :
  0 <= b < 2 ^ 53 -> exists text, formatBytes (of_Z b) = Some text.
Proof.
  intros Hb. destruct (formatBytes_integer b Hb) as [E _].
  eexists. exact E.
Qed.

Lemma two_percentages_sum (nu nf : Z) (ru rf : Q) :
  (ru + rf == 1)%Q ->
  (inject_Z nu - (1 # 2) - (1 # 1000000000)
   <= inject_Z (10 ^ Z.of_nat 2) * (100 * ru)
   <= inject_Z nu + (1 # 2) + (1 # 1000000000))%Q ->
  (inject_Z nf - (1 # 2) - (1 # 1000000000)
   <= inject_Z (10 ^ Z.of_nat 2) * (100 * rf)
   <= inject_Z nf + (1 # 2) + (1 # 1000000000))%Q ->
  (Qabs ((nu # 100) + (nf # 100) - 100) <= 1 # 100)%Q.
Proof.
  intros Hsum [Lu Uu] [Lf Uf].
  change (inject_Z (10 ^ Z.of_nat 2)) with (100 # 1)%Q in *.
  assert (Hlt : (inject_Z (nu + nf) < inject_Z 10002)%Q).
  { rewrite inject_Z_plus. change (inject_Z 10002) with (10002 # 1)%Q. lra. }
  assert (Hgt : (inject_Z 9998 < inject_Z (nu + nf))%Q).
  { rewrite inject_Z_plus. change (inject_Z 9998) with (9998 # 1)%Q. lra. }
  rewrite <- Zlt_Qlt in Hlt, Hgt.
  apply Qabs_Qle_condition.
  unfold Qle, Qplus, Qminus, Qopp; cbn. lia.
Qed.

(** A usage record built from integer byte counts keeps the invariant. *)
Lemma usage_integer (t f : Z) :
  0 <= f <= t -> 0 < t < 2 ^ 53 ->
  exists um, usage (of_Z t) (of_Z f) = Some um /\ usage_invariant um
             /\ totalRaw um = of_Z t /\ freeRaw um = of_Z f
             /\ usedRaw um = of_Z (t - f).
Proof.
  intros Hf Ht. unfold usage.
  assert (Hsub : js_sub (of_Z t) (of_Z f) = of_Z (t - f)).
  { rewrite !of_Z_dyadic by lia. apply js_sub_integers; lia. }
  rewrite Hsub.
  destruct (formatBytes_some t ltac:(lia)) as [bt ->].
  destruct (formatBytes_some f ltac:(lia)) as [bf ->].
  destruct (formatBytes_some (t - f) ltac:(lia)) as [bu ->].
  destruct (percentage_integer (t - f) t 2 ltac:(lia) Ht ltac:(auto))
    as (nu & -> & Hnu & Bu).
  destruct (percentage_integer f t 2 ltac:(lia) Ht ltac:(auto))
    as (nf & -> & Hnf & Bf).
  eexists. split; [reflexivity|]. cbn [totalRaw freeRaw usedRaw].
  split; [|auto].
  unfold usage_invariant.
  cbn [totalRaw freeRaw usedRaw usedPercentage freePercentage].
  split.
  - rewrite !of_Z_dyadic by lia.
    rewrite js_add_integers by lia. f_equal. lia.
  - exists (nu # 100)%Q, (nf # 100)%Q.
    rewrite !percent_value_fixed by (auto || lia).
    repeat split.
    apply (two_percentages_sum nu nf (inject_Z (t - f) / inject_Z t)
             (inject_Z f / inject_Z t)); try assumption.
    unfold Zminus. rewrite inject_Z_plus, inject_Z_opp.
    assert (Qt : (0 < inject_Z t)%Q) by (rewrite <- (Zlt_Qlt 0); lia).
    field. lra.
Qed.

Lemma total_of_nonneg (counters : list (string * Z)) :
  Forall (fun kv => 0 <= snd kv) counters -> 0 <= total_of counters.
Proof.
  induction 1 as [|kv l H _ IH]; cbn; [lia|]. unfold total_of in IH. lia.
Qed.

Lemma counter_le_total (counters : list (string * Z)) (k : string) (v : Z) :
  Forall (fun kv => 0 <= snd kv) counters -> In (k, v) counters ->
  0 <= v <= total_of counters.
Proof.
  induction 1 as [|kv l H Hl IH]; intros Hin; [contradiction|].
  pose proof (total_of_nonneg l Hl) as Hn.
  change (total_of (kv :: l)) with (snd kv + total_of l).
  destruct Hin as [-> | Hin]; cbn in *; [lia|].
  specialize (IH Hin). lia.
Qed.

Lemma sum_counters (counters : list (string * Z)) (acc : Z) :
  0 <= acc -> Forall (fun kv => 0 <= snd kv) counters ->
  acc + total_of counters < 2 ^ 53 ->
  fold_left (fun a time => js_add a time) (map snd (as_times counters))
            (of_Z acc)
  = of_Z (acc + total_of counters).
Proof.
  intros Hacc Hall. revert acc Hacc.
  induction Hall as [|kv l H Hl IH]; intros acc Hacc Hsum.
  - cbn. rewrite Z.add_0_r. reflexivity.
  - pose proof (total_of_nonneg l Hl) as Hn.
    change (total_of (kv :: l)) with (snd kv + total_of l) in *.
    cbn [as_times map fold_left snd fst].
    rewrite (of_Z_dyadic acc), (of_Z_dyadic (snd kv)) by lia.
    rewrite js_add_integers by lia.
    rewrite <- of_Z_dyadic by lia.
    fold (as_times l). rewrite IH by lia. f_equal. lia.
Qed.

Lemma property_as_times (counters : list (string * Z)) (k : string) (v : Z) :
  NoDup (map fst counters) -> In (k, v) counters ->
  property k (as_times counters) = Some (of_Z v).
Proof.
  induction counters as [|[k' v'] l IH]; intros Hnd Hin; [contradiction|].
  cbn in Hnd. inversion Hnd as [|? ? Hnotin Hnd']; subst.
  cbn [as_times map property fst snd].
  destruct Hin as [E | Hin].
  - injection E as -> ->. rewrite String.eqb_refl. reflexivity.
  - destruct (String.eqb_spec k' k) as [-> | Hne].
    + exfalso. apply Hnotin. apply (in_map fst) in Hin. exact Hin.
    + apply IH; assumption.
Qed.

Lemma percentage_tenth (c T : Z) :
  0 <= c <= T -> 0 < T < 2 ^ 53 ->
  exists n,
    percentage (of_Z c) (of_Z T) 1 = Some (fixed_text n 1)
    /\ 0 <= n
    /\ nearest_tenth n c T
    /\ (inject_Z n - (1 # 2) - (1 # 1000000000)
        <= 1000 * (inject_Z c / inject_Z T)
        <= inject_Z n + (1 # 2) + (1 # 1000000000))%Q.
Proof.
  intros Hc HT.
  destruct (percentage_integer c T 1 Hc HT ltac:(auto)) as (n & E & Hn & B).
  exists n. split; [exact E|]. split; [exact Hn|].
  change (inject_Z (10 ^ Z.of_nat 1)) with (10 # 1)%Q in B.
  unfold nearest_tenth.
  set (r := (inject_Z c / inject_Z T)%Q) in *. clearbody r.
  destruct B as [L U].
  split; [|split; lra].
  rewrite (Qmake_Qdiv n 10). change (inject_Z (Z.pos 10)) with (10 # 1)%Q.
  apply Qabs_Qle_condition.
  setoid_replace (inject_Z n / (10 # 1))%Q with ((1 # 10) * inject_Z n)%Q
    by (field; discriminate).
  split; lra.
Qed.

Lemma percentage_some (c T : Z) :
  0 <= c <= T -> T < 2 ^ 53 ->
  exists text, percentage (of_Z c) (of_Z T) 1 = Some text.
Proof.
  intros Hc HT. destruct (Z.eq_dec T 0) as [E|E].
  - assert (c = 0) by lia. subst. exists "NaN". reflexivity.
  - destruct (percentage_tenth c T Hc ltac:(lia)) as (n & En & _).
    eexists. exact En.
Qed.

(** The record [getCPUInfo] builds for a core with integer counters. *)
Lemma core_metric_integer (index : nat) (cpu : Cpu)
  (counters : list (string * Z)) (mhz u s i : Z) :
  cpu_times cpu = as_times counters -> well_counted counters ->
  cpu_speed cpu = of_Z mhz -> 0 <= mhz < 2 ^ 53 ->
  In ("user", u) counters -> In ("sys", s) counters ->
  In ("idle", i) counters ->
  exists tu ts ti,
    percentage (of_Z u) (of_Z (total_of counters)) 1 = Some tu
    /\ percentage (of_Z s) (of_Z (total_of counters)) 1 = Some ts
    /\ percentage (of_Z i) (of_Z (total_of counters)) 1 = Some ti
    /\ core_metric index cpu
       = Some {| core := Z.of_nat index + 1;
                 model := cpu_model cpu;
                 speed := digits_of mhz ++ " MHz";
                 times := {| user := tu ++ "%";
                             system := ts ++ "%";
                             idle := ti ++ "%";
                             rawTotal := of_Z (total_of counters);
                             rawUser := Some (of_Z u);
                             rawSystem := Some (of_Z s);
                             rawIdle := Some (of_Z i) |} |}.
Proof.
  intros Htimes (Hnd & Hall & Hsum) Hspeed Hmhz Hu Hs Hi.
  pose proof (total_of_nonneg counters Hall) as HT.
  pose proof (counter_le_total counters _ _ Hall Hu) as Bu.
  pose proof (counter_le_total counters _ _ Hall Hs) as Bs.
  pose proof (counter_le_total counters _ _ Hall Hi) as Bi.
  destruct (percentage_some u _ Bu Hsum) as [tu Etu].
  destruct (percentage_some s _ Bs Hsum) as [ts Ets].
  destruct (percentage_some i _ Bi Hsum) as [ti Eti].
  exists tu, ts, ti. repeat (split; [assumption|]).
  unfold core_metric. rewrite Htimes, Hspeed.
  rewrite (sum_counters counters 0) by (assumption || lia).
  rewrite Z.add_0_l.
  rewrite !(property_as_times counters _ _ Hnd) by eassumption.
  cbn [to_number]. rewrite Etu, Ets, Eti.
  rewrite toString_integer by assumption. reflexivity.
Qed.

Lemma map_cores_nth (cpus : list Cpu) (k : nat) (cores : list CoreMetric) :
  map_cores k cpus = Some cores ->
  forall j cpu, nth_error cpus j = Some cpu ->
  exists m, nth_error cores j = Some m /\ core_metric (k + j) cpu = Some m.
Proof.
  revert k cores. induction cpus as [|c cpus IH]; intros k cores E j cpu Hj.
  - destruct j; discriminate Hj.
  - cbn [map_cores] in E.
    destruct (core_metric k c) as [m0|] eqn:E0; [|discriminate E].
    destruct (map_cores (S k) cpus) as [ms|] eqn:E1; [|discriminate E].
    injection E as <-.
    destruct j as [|j]; cbn [nth_error] in *.
    + injection Hj as <-. exists m0. rewrite Nat.add_0_r. auto.
    + destruct (IH _ _ E1 j cpu Hj) as (m & Hm & Hc).
      exists m. split; [exact Hm|].
      rewrite Nat.add_succ_r. exact Hc.
Qed.

Lemma map_cores_total (cpus : list Cpu) (k : nat) :
  (forall j cpu, nth_error cpus j = Some cpu ->
                 exists m, core_metric (k + j) cpu = Some m) ->
  exists cores,
    map_cores k cpus = Some cores /\ List.length cores = List.length cpus.
Proof.
  revert k. induction cpus as [|c cpus IH]; intros k Hall.
  - exists []. split; reflexivity.
  - destruct (Hall 0%nat c eq_refl) as [m0 E0].
    rewrite Nat.add_0_r in E0.
    destruct (IH (S k)) as (ms & E1 & Hlen).
    { intros j cpu Hj. rewrite Nat.add_succ_l, <- Nat.add_succ_r.
      apply Hall. exact Hj. }
    exists (m0 :: ms). cbn [map_cores]. rewrite E0, E1.
    split; [reflexivity | cbn; congruence].
Qed.

Lemma total_of_permutation (l l' : list (string * Z)) :
  Permutation l l' -> total_of l = total_of l'.
Proof.
  unfold total_of. induction 1; cbn in *; lia.
Qed.

Lemma three_percentages_sum (nu ns ni : Z) (ru rs ri : Q) :
  (ru + rs + ri == 1)%Q ->
  (inject_Z nu - (1 # 2) - (1 # 1000000000) <= 1000 * ru
   <= inject_Z nu + (1 # 2) + (1 # 1000000000))%Q ->
  (inject_Z ns - (1 # 2) - (1 # 1000000000) <= 1000 * rs
   <= inject_Z ns + (1 # 2) + (1 # 1000000000))%Q ->
  (inject_Z ni - (1 # 2) - (1 # 1000000000) <= 1000 * ri
   <= inject_Z ni + (1 # 2) + (1 # 1000000000))%Q ->
  (Qabs ((nu # 10) + (ns # 10) + (ni # 10) - 100) <= 1 # 10)%Q.
Proof.
  intros Hsum [Lu Uu] [Ls Us] [Li Ui].
  assert (Hlt : (inject_Z (nu + ns + ni) < inject_Z 1002)%Q).
  { rewrite !inject_Z_plus. change (inject_Z 1002) with (1002 # 1)%Q. lra. }
  assert (Hgt : (inject_Z 998 < inject_Z (nu + ns + ni))%Q).
  { rewrite !inject_Z_plus. change (inject_Z 998) with (998 # 1)%Q. lra. }
  rewrite <- Zlt_Qlt in Hlt, Hgt.
  apply Qabs_Qle_condition.
  unfold Qle, Qplus, Qminus, Qopp; cbn. lia.
Qed.

(** C1. [getCPUInfo] returns one record per core, the one [core_metric]
    builds for it.  For a core with integer counters, the total is the exact sum of the
    counters of all its states, and each of the three percentages is the
    text [toFixed(1)] gives for counter / total * 100 computed in binary64;
    when the total is positive that text is a number of tenths [n / 10]
    nearest to the exact percentage (within 0.05, up to the rounding of the
    division and the multiplication).  In particular the counters user=200,
    sys=100, idle=700 (total 1000) give 20.0%, 10.0% and 70.0%. *)
Theorem cpu_percentages :
  (forall h : Host,
      (forall j cpu, nth_error (os_cpus h) j = Some cpu ->
                     exists m, core_metric j cpu = Some m) ->
      exists cores,
        getCPUInfo h = Some cores
        /\ List.length cores = List.length (os_cpus h))
  /\ (forall (h : Host) (cores : list CoreMetric) (j : nat) (cpu : Cpu),
      getCPUInfo h = Some cores -> nth_error (os_cpus h) j = Some cpu ->
      exists m, nth_error cores j = Some m /\ core_metric j cpu = Some m)
  /\ (forall (index : nat) (cpu : Cpu) (counters : list (string * Z))
        (mhz u s i : Z),
         cpu_times cpu = as_times counters -> well_counted counters ->
         cpu_speed cpu = of_Z mhz -> 0 <= mhz < 2 ^ 53 ->
         In ("user", u) counters -> In ("sys", s) counters ->
         In ("idle", i) counters ->
         let T := total_of counters in
         exists tu ts ti,
           core_metric index cpu
           = Some {| core := Z.of_nat index + 1;
                     model := cpu_model cpu;
                     speed := digits_of mhz ++ " MHz";
                     times := {| user := tu ++ "%";
                                 system := ts ++ "%";
                                 idle := ti ++ "%";
                                 rawTotal := of_Z T;
                                 rawUser := Some (of_Z u);
                                 rawSystem := Some (of_Z s);
                                 rawIdle := Some (of_Z i) |} |}
           /\ toFixed (js_mul (js_div (of_Z u) (of_Z T)) (of_Z 100)) 1 = Some tu
           /\ toFixed (js_mul (js_div (of_Z s) (of_Z T)) (of_Z 100)) 1 = Some ts
           /\ toFixed (js_mul (js_div (of_Z i) (of_Z T)) (of_Z 100)) 1 = Some ti
           /\ (0 < T ->
               exists nu ns ni,
                 tu = fixed_text nu 1 /\ nearest_tenth nu u T
                 /\ ts = fixed_text ns 1 /\ nearest_tenth ns s T
                 /\ ti = fixed_text ni 1 /\ nearest_tenth ni i T))
  /\ option_map (map (fun m => (user (times m), system (times m),
                                idle (times m))))
       (getCPUInfo (sample_host no_disk sample_interfaces))
     = Some [("20.0%", "10.0%", "70.0%")].
Proof.
  split; [|split; [|split]].
  - intros h Hall. apply (map_cores_total (os_cpus h) 0 Hall).
  - intros h cores j cpu E Hj. apply (map_cores_nth _ 0 cores E j cpu Hj).
  - intros index cpu counters mhz u s i Ht Hw Hs Hm Hu Hsy Hi T.
    destruct (core_metric_integer index cpu counters mhz u s i
                Ht Hw Hs Hm Hu Hsy Hi) as (tu & ts & ti & Eu & Es & Ei & Ec).
    fold T in Eu, Es, Ei, Ec.
    exists tu, ts, ti. split; [exact Ec|].
    split; [exact Eu|]. split; [exact Es|]. split; [exact Ei|].
    intros HT. destruct Hw as (Hnd & Hall & Hsum).
    pose proof (counter_le_total counters _ _ Hall Hu) as Bu.
    pose proof (counter_le_total counters _ _ Hall Hsy) as Bs.
    pose proof (counter_le_total counters _ _ Hall Hi) as Bi.
    fold T in Bu, Bs, Bi, Hsum.
    destruct (percentage_tenth u T Bu ltac:(lia)) as (nu & Enu & _ & Hnu & _).
    destruct (percentage_tenth s T Bs ltac:(lia)) as (ns & Ens & _ & Hns & _).
    destruct (percentage_tenth i T Bi ltac:(lia)) as (ni & Eni & _ & Hni & _).
    exists nu, ns, ni.
    rewrite Eu in Enu. rewrite Es in Ens. rewrite Ei in Eni.
    injection Enu as ->. injection Ens as ->. injection Eni as ->.
    repeat split; assumption.
  - vm_compute. reflexivity.
Qed.

(** A core whose counters are all zero reports ["NaN%"] three times: the
    three percentages are not numbers, let alone numbers that sum to 100. *)
Lemma idle_core_breaks_three_state_claim : ~ three_state_claim.
Proof.
  intros C.
  destruct (C 0%nat idle_cpu (of_Z 0) (of_Z 0) (of_Z 0)
              {| core := 1; model := "Synthetic"; speed := "2400 MHz";
                 times := {| user := "NaN%"; system := "NaN%"; idle := "NaN%";
                             rawTotal := of_Z 0;
                             rawUser := Some (of_Z 0);
                             rawSystem := Some (of_Z 0);
                             rawIdle := Some (of_Z 0) |} |}
              eq_refl)
    as (pu & ps & pi & Hu & _).
  - vm_compute. reflexivity.
  - vm_compute in Hu. discriminate Hu.
Qed.

(** C7, amended. For a core whose counters are exactly the three states
    user, sys and idle, in any order, with non-negative integer counts whose
    sum is positive (and below [2^53]), the three reported percentages are
    numbers and sum to 100 within 0.1. *)
Theorem three_state_percentages (index : nat) (cpu : Cpu) (u s i mhz : Z) :
  Permutation (cpu_times cpu)
              (as_times [("user", u); ("sys", s); ("idle", i)]) ->
  0 <= u -> 0 <= s -> 0 <= i -> 0 < u + s + i < 2 ^ 53 ->
  cpu_speed cpu = of_Z mhz -> 0 <= mhz < 2 ^ 53 ->
  exists (m : CoreMetric) (pu ps pi : Q),
    core_metric index cpu = Some m
    /\ percent_value (user (times m)) = Some pu
    /\ percent_value (system (times m)) = Some ps
    /\ percent_value (idle (times m)) = Some pi
    /\ (Qabs (pu + ps + pi - 100) <= 1 # 10)%Q.
Proof.
  intros Hperm Hu Hs Hi Hsum Hspeed Hmhz.
  destruct (Permutation_map_inv _ _ Hperm) as (counters & Ht & Hp).
  fold (as_times counters) in Ht.
  assert (HT : total_of counters = u + s + i).
  { rewrite <- (total_of_permutation _ _ Hp). cbn. lia. }
  assert (Hw : well_counted counters).
  { split; [|split].
    - apply (Permutation_NoDup (Permutation_map fst Hp)).
      cbn. repeat constructor; cbn; intuition discriminate.
    - apply (Permutation_Forall Hp). repeat constructor; cbn; assumption.
    - rewrite HT. lia. }
  assert (Inu : In ("user", u) counters)
    by (apply (Permutation_in _ Hp); cbn; auto).
  assert (Ins : In ("sys", s) counters)
    by (apply (Permutation_in _ Hp); cbn; auto).
  assert (Ini : In ("idle", i) counters)
    by (apply (Permutation_in _ Hp); cbn; auto).
  destruct (core_metric_integer index cpu counters mhz u s i
              Ht Hw Hspeed Hmhz Inu Ins Ini)
    as (tu & ts & ti & Eu & Es & Ei & Ec).
  rewrite HT in *.
  destruct (percentage_tenth u (u + s + i) ltac:(lia) ltac:(lia))
    as (nu & Enu & Hnu0 & _ & Bu).
  destruct (percentage_tenth s (u + s + i) ltac:(lia) ltac:(lia))
    as (ns & Ens & Hns0 & _ & Bs).
  destruct (percentage_tenth i (u + s + i) ltac:(lia) ltac:(lia))
    as (ni & Eni & Hni0 & _ & Bi).
  rewrite Eu in Enu. rewrite Es in Ens. rewrite Ei in Eni.
  injection Enu as ->. injection Ens as ->. injection Eni as ->.
  eexists. exists (nu # 10)%Q, (ns # 10)%Q, (ni # 10)%Q.
  split; [exact Ec|]. cbn [times user system idle].
  split; [exact (percent_value_fixed nu 1 (or_introl eq_refl) Hnu0)|].
  split; [exact (percent_value_fixed ns 1 (or_introl eq_refl) Hns0)|].
  split; [exact (percent_value_fixed ni 1 (or_introl eq_refl) Hni0)|].
  apply (three_percentages_sum nu ns ni
           (inject_Z u / inject_Z (u + s + i))
           (inject_Z s / inject_Z (u + s + i))
           (inject_Z i / inject_Z (u + s + i))); try assumption.
  assert (Qt : (0 < inject_Z (u + s + i))%Q) by (rewrite <- (Zlt_Qlt 0); lia).
  rewrite !inject_Z_plus in *. field. lra.
Qed.

Lemma three_state_percentages_witness :
  exists (m : CoreMetric) (pu ps pi : Q),
    core_metric 0 sample_cpu = Some m
    /\ percent_value (user (times m)) = Some pu
    /\ percent_value (system (times m)) = Some ps
    /\ percent_value (idle (times m)) = Some pi
    /\ (Qabs (pu + ps + pi - 100) <= 1 # 10)%Q.
Proof.
  apply (three_state_percentages 0 sample_cpu 200 100 700 2400).
  - apply Permutation_refl.
  - lia.
  - lia.
  - lia.
  - split; [lia | reflexivity].
  - reflexivity.
  - split; [lia | reflexivity].
Defined.

(** The degraded disk record has percentages ["0%"] and ["0%"]: they sum to
    0, not to 100. *)
Lemma degraded_disk_breaks_usage_claim : ~ usage_claim.
Proof.
  intros C.
  destruct (C (sample_host no_disk sample_interfaces) disk_unavailable
              (or_intror eq_refl))
    as (_ & pu & pf & Hu & Hf & Hsum).
  vm_compute in Hu, Hf.
  injection Hu as <-. injection Hf as <-.
  vm_compute in Hsum. apply Hsum. reflexivity.
Qed.

(** C3, amended. The memory record, and the disk record when
    [disk.check] resolves, built from integer byte counts with
    [0 <= free <= total] and [0 < total < 2^53], have
    [usedRaw + freeRaw = totalRaw] and two percentages that sum to 100
    within 0.01.  The degraded disk record has [usedRaw + freeRaw =
    totalRaw] as well (all three are 0), and its two percentages are both
    0. *)
Theorem usage_records_add_up (h : Host) (t f : Z) :
  0 <= f <= t -> 0 < t < 2 ^ 53 ->
  (os_totalmem h = of_Z t -> os_freemem h = of_Z f ->
   exists um, getMemoryInfo h = Some um /\ usage_invariant um)
  /\ (forall avail,
         disk_check h "/"
         = Resolved {| disk_available := avail; disk_free := of_Z f;
                       disk_total := of_Z t |} ->
         exists um, getDiskInfo h = Some um /\ usage_invariant um)
  /\ (forall err,
         disk_check h "/" = Rejected err ->
         exists um,
           getDiskInfo h = Some um
           /\ js_add (usedRaw um) (freeRaw um) = totalRaw um
           /\ percent_value (usedPercentage um) = Some 0%Q
           /\ percent_value (freePercentage um) = Some 0%Q).
Proof.
  intros Hf Ht.
  destruct (usage_integer t f Hf Ht) as (um & Eum & Hinv & _).
  split; [|split].
  - intros Etot Efree. exists um. unfold getMemoryInfo.
    rewrite Etot, Efree. auto.
  - intros avail Ed. exists um. unfold getDiskInfo. rewrite Ed. auto.
  - intros err Ed. exists disk_unavailable. unfold getDiskInfo. rewrite Ed.
    repeat split; reflexivity.
Qed.

Lemma usage_records_add_up_witness :
  exists um,
    getMemoryInfo (sample_host some_disk sample_interfaces) = Some um
    /\ usage_invariant um.
Proof.
  refine (proj1 (usage_records_add_up
                   (sample_host some_disk sample_interfaces)
                   17179869184 4294967296 _ _) _ _).
  - lia.
  - split; [lia | reflexivity].
  - reflexivity.
  - reflexivity.
Defined.

Lemma formatBytes_scales_witness :
  formatBytes (of_Z 1536) = Some "1.50 KB".
Proof.
  destruct (proj1 formatBytes_scales 1536) as (E & _).
  - split; [lia | reflexivity].
  - rewrite E. vm_compute. reflexivity.
Defined.

Lemma formatUptime_floors_witness :
  formatUptime (dyadic 180123 (-1)) = Some "1d 1h 1m 1s".
Proof.
  destruct (proj1 formatUptime_floors 180123 (-1)) as (_ & E & _).
  - split; [lia | reflexivity].
  - lia.
  - rewrite E. vm_compute. reflexivity.
Defined.

Lemma cpu_percentages_witness :
  exists nu ns ni,
    option_map (fun m => (user (times m), system (times m), idle (times m)))
               (core_metric 0 sample_cpu)
    = Some (fixed_text nu 1 ++ "%", fixed_text ns 1 ++ "%",
            fixed_text ni 1 ++ "%")
    /\ nearest_tenth nu 200 1000
    /\ nearest_tenth ns 100 1000
    /\ nearest_tenth ni 700 1000.
Proof.
  destruct (proj1 (proj2 (proj2 cpu_percentages)) 0%nat sample_cpu
              [("user", 200); ("sys", 100); ("idle", 700)] 2400 200 100 700)
    as (tu & ts & ti & Ec & _ & _ & _ & Hn).
  - reflexivity.
  - split; [|split].
    + repeat constructor; cbn; intuition discriminate.
    + repeat constructor; cbn; lia.
    + reflexivity.
  - reflexivity.
  - split; [lia | reflexivity].
  - cbn; auto.
  - cbn; auto.
  - cbn; auto.
  - destruct (Hn eq_refl) as (nu & ns & ni & -> & Hu & -> & Hs & -> & Hi).
    exists nu, ns, ni. rewrite Ec. cbn [option_map times user system idle].
    auto.
Defined.

(** ** Private address selection *)

Lemma last_cons_default {A} (x : A) (l : list A) (d d' : A) :
  last (x :: l) d = last (x :: l) d'.
Proof.
  revert x; induction l as [|y l IH]; intros x; [reflexivity|].
  change (last (y :: l) d = last (y :: l) d'). apply IH.
Qed.

Lemma last_app_default {A} (l1 l2 : list A) (d : A) :
  last (l1 ++ l2)%list d = last l2 (last l1 d).
Proof.
  revert d; induction l1 as [|x l1 IH]; intros d; [reflexivity|].
  destruct l2 as [|y l2].
  - rewrite app_nil_r. reflexivity.
  - transitivity (last (l1 ++ y :: l2)%list d).
    + destruct l1; reflexivity.
    + rewrite IH. apply last_cons_default.
Qed.

Lemma addresses_fold (l : list Iface) (acc : string) :
  fold_left
    (fun privateIP iface =>
       if String.eqb (family iface) "IPv4" && negb (internal iface)
       then address iface else privateIP) l acc
  = last (map address (filter wanted l)) acc.
Proof.
  revert acc.
  induction l as [|i l IH]; intros acc; simpl; [reflexivity|].
  rewrite IH. unfold wanted at 2.
  destruct (String.eqb (family i) "IPv4" && negb (internal i)); simpl.
  - destruct (map address (filter wanted l)); [reflexivity|].
    apply last_cons_default.
  - reflexivity.
Qed.

Lemma interfaces_fold (table : list (string * list Iface)) (acc : string) :
  fold_left
    (fun privateIP (entry : string * list Iface) =>
       fold_left
         (fun privateIP iface =>
            if String.eqb (family iface) "IPv4" && negb (internal iface)
            then address iface else privateIP)
         (snd entry) privateIP) table acc
  = last (map address (filter wanted (List.concat (map snd table)))) acc.
Proof.
  revert acc.
  induction table as [|[name addrs] table IH]; intros acc; simpl;
    [reflexivity|].
  rewrite IH, addresses_fold, filter_app, map_app, last_app_default.
  reflexivity.
Qed.

Lemma getPrivateIP_candidates (h : Host) :
  getPrivateIP h = last (map address (candidates h)) "Not found".
Proof. apply interfaces_fold. Qed.

(** C8. Among the non-loopback IPv4 addresses the host reports, taken in
    enumeration order (interface by interface, address by address), the
    selection returns the last one. *)
Theorem private_address_is_last_candidate (h : Host) (earlier : list Iface)
  (chosen : Iface) :
  candidates h = (earlier ++ [chosen])%list ->
  getPrivateIP h = address chosen.
Proof.
  intros E. rewrite getPrivateIP_candidates, E, map_app, last_app_default.
  reflexivity.
Qed.

Lemma private_address_is_last_candidate_witness :
  candidates (sample_host no_disk sample_interfaces)
  = ([{| address := "192.168.1.20"; family := "IPv4"; internal := false |}]
       ++ [{| address := "10.0.0.7"; family := "IPv4"; internal := false |}])%list
  /\ getPrivateIP (sample_host no_disk sample_interfaces) = "10.0.0.7".
Proof.
  split; [reflexivity|].
  apply (private_address_is_last_candidate
           (sample_host no_disk sample_interfaces)
           [{| address := "192.168.1.20"; family := "IPv4";
               internal := false |}]
           {| address := "10.0.0.7"; family := "IPv4"; internal := false |}).
  reflexivity.
Defined.

(** C10. A host without any non-loopback IPv4 address gets the text
    ["Not found"]. *)
Theorem private_address_not_found (h : Host) :
  candidates h = [] -> getPrivateIP h = "Not found".
Proof.
  intros E. rewrite getPrivateIP_candidates, E. reflexivity.
Qed.

Lemma private_address_not_found_witness :
  candidates (sample_host no_disk
                [("lo", [{| address := "127.0.0.1"; family := "IPv4";
                            internal := true |}]);
                 ("eth0", [{| address := "fe80::1"; family := "IPv6";
                              internal := false |}])]) = []
  /\ getPrivateIP (sample_host no_disk
                     [("lo", [{| address := "127.0.0.1"; family := "IPv4";
                                 internal := true |}]);
                      ("eth0", [{| address := "fe80::1"; family := "IPv6";
                                   internal := false |}])]) = "Not found".
Proof.
  split; [reflexivity|].
  apply private_address_not_found. reflexivity.
Defined.

(** ** Control endpoints *)

(** The claim as the specification words it fails: the text of the 500
    response is a fixed sentence, whatever made the command fail. *)
Lemma restart_does_not_forward_cause :
  ~ forwards_cause post_system_restart "sudo shutdown -r now".
Proof.
  intros F.
  destruct (F (fun _ => Some "sudo: a password is required")
              "sudo: a password is required" eq_refl)
    as [_ [text [Htext Hin]]].
  vm_compute in Htext. injection Htext as <-.
  vm_compute in Hin. discriminate Hin.
Qed.

(** C6, amended. A control request whose command succeeds is answered 200
    with a fixed acknowledgment; one whose command fails is answered 500 with
    a fixed error text that does not depend on the cause, and the cause goes
    to the server's console only. *)
Theorem control_endpoints_respond (exec : string -> option string) :
  (exec "sudo shutdown -r now" = None ->
   post_system_restart exec
   = {| response := {| status := 200;
                       body := [("message", "System is restarting")] |};
        console := [] |}) /\
  (forall cause, exec "sudo shutdown -r now" = Some cause ->
   post_system_restart exec
   = {| response := {| status := 500;
                       body := [("error", "Failed to restart system")] |};
        console := ["Restart error: " ++ cause] |}) /\
  (exec "sudo shutdown -h now" = None ->
   post_system_shutdown exec
   = {| response := {| status := 200;
                       body := [("message", "System is shutting down")] |};
        console := [] |}) /\
  (forall cause, exec "sudo shutdown -h now" = Some cause ->
   post_system_shutdown exec
   = {| response := {| status := 500;
                       body := [("error", "Failed to shutdown system")] |};
        console := ["Shutdown error: " ++ cause] |}).
Proof.
  unfold post_system_restart, post_system_shutdown.
  repeat apply conj; intros;
    match goal with
    | H : exec _ = _ |- _ => rewrite H; reflexivity
    end.
Qed.

Lemma control_endpoints_respond_witness :
  post_system_restart (fun _ => None)
  = {| response := {| status := 200;
                      body := [("message", "System is restarting")] |};
       console := [] |} /\
  post_system_shutdown (fun _ => Some "Command failed")
  = {| response := {| status := 500;
                      body := [("error", "Failed to shutdown system")] |};
       console := ["Shutdown error: Command failed"] |}.
Proof.
  split.
  - apply (proj1 (control_endpoints_respond (fun _ => None))). reflexivity.
  - apply (proj2 (proj2 (proj2
             (control_endpoints_respond (fun _ => Some "Command failed"))))
             "Command failed").
    reflexivity.
Defined.

(** ** Degraded disk record *)

(** C4. When [disk.check] rejects, the snapshot is still produced: its disk
    record is the sentinel record (["N/A"] sizes, zero raw values, ["0%"]
    percentages) and every other field is what the sampler computes for this
    host. *)
Theorem snapshot_survives_disk_failure (h : Host) (err : string)
  (cpuInfo : list CoreMetric) (memInfo : UsageMetric) (up : string) :
  disk_check h "/" = Rejected err ->
  getCPUInfo h = Some cpuInfo ->
  getMemoryInfo h = Some memInfo ->
  formatUptime (os_uptime h) = Some up ->
  getSystemInfo h
  = Some {| os := {| platform := os_platform h; type := os_type h;
                     release := os_release h; arch := os_arch h;
                     hostname := os_hostname h |};
            cpu := cpuInfo;
            memory := memInfo;
            disk := {| total := "N/A"; free := "N/A"; used := "N/A";
                       usedPercentage := "0%"; freePercentage := "0%";
                       totalRaw := of_Z 0; freeRaw := of_Z 0;
                       usedRaw := of_Z 0 |};
            network := {| privateIP := getPrivateIP h;
                          net_hostname := os_hostname h;
                          interfaces := os_networkInterfaces h |};
            uptime := up |}.
Proof.
  intros Hdisk Hcpu Hmem Hup.
  unfold getSystemInfo, getDiskInfo.
  rewrite Hdisk, Hcpu, Hmem, Hup. reflexivity.
Qed.

Lemma snapshot_survives_disk_failure_witness :
  exists s,
    getSystemInfo (sample_host no_disk sample_interfaces) = Some s /\
    disk s = disk_unavailable /\
    Some (memory s) = getMemoryInfo (sample_host some_disk sample_interfaces) /\
    Some (cpu s) = getCPUInfo (sample_host some_disk sample_interfaces) /\
    uptime s = "1d 1h 1m 1s".
Proof.
  eexists. split.
  - apply (snapshot_survives_disk_failure
             (sample_host no_disk sample_interfaces) "ENOENT").
    + reflexivity.
    + vm_compute. reflexivity.
    + vm_compute. reflexivity.
    + vm_compute. reflexivity.
  - vm_compute. repeat split; reflexivity.
Defined.

(** ** Observer sessions *)

Section SessionProperties.

Variable host_at : nat -> Host.

Lemma elapse_last (ms : nat) (s : Session) :
  elapse host_at (S ms) s = millisecond host_at (elapse host_at ms s).
Proof.
  revert s; induction ms as [|ms IH]; intros s; [reflexivity|].
  change (elapse host_at (S (S ms)) s)
    with (elapse host_at (S ms) (millisecond host_at s)).
  rewrite IH. reflexivity.
Qed.

(** While the socket stays open, the session after [ms] milliseconds is
    known exactly. *)
Lemma attached_after (t0 ms : nat) :
  elapse host_at ms (on_connection host_at OPEN t0)
  = {| readyState := OPEN;
       interval := Some (period - ms mod period)%nat;
       now := (t0 + ms)%nat;
       delivered := first_push host_at t0 :: ticks host_at t0 (ms / period) |}.
Proof.
  induction ms as [|ms IH].
  - simpl. rewrite Nat.add_0_r. reflexivity.
  - rewrite elapse_last, IH. unfold millisecond, period in *.
    pose proof (Nat.div_mod_eq ms 1000) as Hms.
    pose proof (Nat.mod_upper_bound ms 1000 ltac:(discriminate)) as Hlt.
    pose proof (Nat.div_mod_eq (S ms) 1000) as HSms.
    pose proof (Nat.mod_upper_bound (S ms) 1000 ltac:(discriminate)) as HSlt.
    cbn [interval readyState now delivered].
    destruct (1000 - ms mod 1000)%nat as [|[|rest]] eqn:Hleft.
    + lia.
    + assert (Hq : (S ms / 1000 = S (ms / 1000))%nat) by nia.
      assert (Hr : (S ms mod 1000 = 0)%nat) by nia.
      rewrite Hq, Hr.
      unfold on_interval, send_specs. cbn [is_open readyState interval now delivered].
      f_equal.
      * f_equal. lia.
      * change (ticks host_at t0 (S (ms / 1000)))
          with (ticks host_at t0 (ms / 1000) ++
                  [{| at_ms := t0 + S (ms / 1000) * period;
                      payload := getSystemInfo
                                   (host_at (t0 + S (ms / 1000) * period)) |}])%list.
        unfold period.
        replace (t0 + S (ms / 1000) * 1000)%nat with (S (t0 + ms)) by nia.
        reflexivity.
    + assert (Hq : (S ms / 1000 = ms / 1000)%nat) by nia.
      assert (Hr : (S ms mod 1000 = S (ms mod 1000))%nat) by nia.
      rewrite Hq, Hr. f_equal.
      * f_equal. lia.
      * lia.
Qed.

Lemma millisecond_detached (s : Session) :
  detached s ->
  detached (millisecond host_at s)
  /\ delivered (millisecond host_at s) = delivered s.
Proof.
  unfold detached, millisecond, on_interval, send_specs.
  intros [Hnone | Hclosed].
  - rewrite Hnone. cbn. auto.
  - destruct (interval s) as [[|[|rest]]|]; cbn; rewrite ?Hclosed; cbn; auto.
Qed.

Lemma elapse_detached (ms : nat) (s : Session) :
  detached s ->
  detached (elapse host_at ms s)
  /\ delivered (elapse host_at ms s) = delivered s.
Proof.
  revert s; induction ms as [|ms IH]; intros s Hs; [auto|].
  destruct (millisecond_detached s Hs) as [Hd He].
  destruct (IH _ Hd) as [Hd' He'].
  simpl. split; [assumption | congruence].
Qed.

Lemma step_detached (s : Session) (ev : Event) :
  detached s ->
  detached (step host_at s ev) /\ delivered (step host_at s ev) = delivered s.
Proof.
  intros Hs. destruct ev as [ms| |]; simpl.
  - apply elapse_detached, Hs.
  - split; [left|]; reflexivity.
  - split; [left|]; reflexivity.
Qed.

(** Nothing is pushed on a detached session, whatever happens next. *)
Lemma run_detached (evs : list Event) (s : Session) :
  detached s -> delivered (run host_at s evs) = delivered s.
Proof.
  revert s; induction evs as [|ev evs IH]; intros s Hs; [reflexivity|].
  destruct (step_detached s ev Hs) as [Hd He].
  change (run host_at (s) (ev :: evs))
    with (run host_at (step host_at s ev) evs).
  rewrite (IH _ Hd). exact He.
Qed.

(** A socket that is not open when the handler makes its first send stays
    silent: the timer runs, and nothing is pushed. *)
Lemma unopened_after (ws : ReadyState) (t0 ms : nat) :
  is_open ws = false ->
  elapse host_at ms (on_connection host_at ws t0)
  = {| readyState := ws;
       interval := Some (period - ms mod period)%nat;
       now := (t0 + ms)%nat;
       delivered := [] |}.
Proof.
  intros Hws. induction ms as [|ms IH].
  - unfold on_connection, send_specs. cbn [readyState]. rewrite Hws.
    simpl. rewrite Nat.add_0_r. reflexivity.
  - rewrite elapse_last, IH. unfold millisecond, period in *.
    pose proof (Nat.div_mod_eq ms 1000) as Hms.
    pose proof (Nat.mod_upper_bound ms 1000 ltac:(discriminate)) as Hlt.
    pose proof (Nat.div_mod_eq (S ms) 1000) as HSms.
    pose proof (Nat.mod_upper_bound (S ms) 1000 ltac:(discriminate)) as HSlt.
    cbn [interval readyState now delivered].
    destruct (1000 - ms mod 1000)%nat as [|[|rest]] eqn:Hleft.
    + lia.
    + assert (Hr : (S ms mod 1000 = 0)%nat) by nia.
      rewrite Hr. unfold on_interval.
      cbn [is_open readyState interval now delivered]. rewrite Hws.
      cbn [readyState now delivered]. f_equal. lia.
    + assert (Hr : (S ms mod 1000 = S (ms mod 1000))%nat) by nia.
      rewrite Hr. f_equal.
      * f_equal. lia.
      * lia.
Qed.

(** The session [ms] milliseconds after the handler ran, for a socket in
    any state. *)
Lemma connected_after (ws : ReadyState) (t0 ms : nat) :
  elapse host_at ms (on_connection host_at ws t0)
  = {| readyState := ws;
       interval := Some (period - ms mod period)%nat;
       now := (t0 + ms)%nat;
       delivered :=
         if is_open ws
         then first_push host_at t0 :: ticks host_at t0 (ms / period)
         else [] |}.
Proof.
  destruct ws; try (apply unopened_after; reflexivity).
  apply attached_after.
Qed.

Lemma ticks_length (t0 k : nat) : List.length (ticks host_at t0 k) = k.
Proof.
  induction k as [|k IH]; [reflexivity|].
  cbn [ticks]. rewrite length_app, IH. simpl. lia.
Qed.

(** C5, amended. The handler arms the timer in every case.  When the socket
    is open as the handler makes its first send, attaching pushes one
    snapshot at once, before the timer exists, and while the session stays
    attached there is one more push at each multiple of 1000 ms, so
    [1 + ms / 1000] pushes after [ms] milliseconds (one only before the
    first period is over).  When the socket is not open then (it closed
    while the first snapshot was sampled), nothing is pushed, at once or
    later.  In both cases, once the peer has closed or the transport has
    failed, no further push occurs, whatever events follow. *)
Theorem session_lifecycle (ws : ReadyState) (t0 ms : nat)
  (evs : list Event) :
  let attached := on_connection host_at ws t0 in
  let later := elapse host_at ms attached in
  delivered attached = (if is_open ws then [first_push host_at t0] else [])
  /\ interval attached = Some 1000%nat
  /\ delivered later
     = (if is_open ws
        then first_push host_at t0 :: ticks host_at t0 (ms / 1000)
        else [])
  /\ List.length (delivered later)
     = (if is_open ws then 1 + ms / 1000 else 0)%nat
  /\ delivered (run host_at (on_close later) evs) = delivered later
  /\ delivered (run host_at (on_error later) evs) = delivered later.
Proof.
  intros attached later.
  assert (Hlater : delivered later
                   = if is_open ws
                     then first_push host_at t0
                            :: ticks host_at t0 (ms / 1000)
                     else []).
  { unfold later, attached. rewrite connected_after. reflexivity. }
  repeat apply conj.
  - unfold attached, on_connection, send_specs. cbn [readyState delivered].
    destruct (is_open ws); reflexivity.
  - reflexivity.
  - exact Hlater.
  - rewrite Hlater. destruct (is_open ws); [|reflexivity].
    simpl. rewrite ticks_length. reflexivity.
  - rewrite run_detached; [reflexivity | left; reflexivity].
  - rewrite run_detached; [reflexivity | left; reflexivity].
Qed.

End SessionProperties.

(** A socket that has closed by the time the handler makes its first send
    gets no delivery at all, where the specification promises one at
    once. *)
Lemma closed_socket_breaks_lifecycle_claim : ~ lifecycle_claim.
Proof.
  intros C.
  specialize (C (fun _ => sample_host no_disk sample_interfaces) CLOSED
                0%nat 0%nat).
  discriminate C.
Qed.

(** * Further properties

    Properties of the code beside the ones above: the edge cases of the
    formatting and of the sampler, the sessions under any run of events, and
    the page with its scripts. *)

(** ** More on [formatBytes] *)

Lemma scale_loop_index (gas : nat) (size : number) (j : nat) :
  (j <= List.length units - 1)%nat ->
  (snd (scale_loop gas size j) <= List.length units - 1)%nat.
Proof.
  revert size j. induction gas as [|gas IH]; intros size j Hj; [exact Hj|].
  cbn [scale_loop].
  destruct (js_ge size (of_Z 1024)); cbn [andb]; [|exact Hj].
  destruct (Nat.ltb_spec j (List.length units - 1)) as [L|L]; [|exact Hj].
  apply IH. lia.
Qed.

(** X1. Whatever number it is given (NaN, an infinity, a negative number
    or one beyond [1e21] included), the loop of [formatBytes] is over after
    at most [units.length - 1] divisions: more turns would change nothing,
    and the index it ends on is an index of [units].  The result is the
    [toFixed(2)] text of the scaled size followed by a space and that unit,
    one of the five and never ["undefined"]; it is outside the model
    exactly where that [toFixed] is. *)
Theorem formatBytes_unit_is_listed (bytes : number) (gas : nat) :
  (List.length units <= gas)%nat ->
  scale_loop gas bytes 0 = scale_loop (List.length units) bytes 0
  /\ (snd (scale_loop gas bytes 0) <= List.length units - 1)%nat
  /\ In (nth (snd (scale_loop gas bytes 0)) units "undefined") units
  /\ formatBytes bytes
     = option_map
         (fun digits =>
            digits ++ " "
            ++ nth (snd (scale_loop gas bytes 0)) units "undefined")
         (toFixed (fst (scale_loop gas bytes 0)) 2).
Proof.
  intros Hgas.
  assert (Egas : scale_loop gas bytes 0
                 = scale_loop (List.length units) bytes 0).
  { replace gas with (List.length units + (gas - List.length units))%nat
      by lia.
    apply scale_loop_enough. }
  split; [exact Egas|]. rewrite Egas.
  pose proof (scale_loop_index (List.length units) bytes 0 ltac:(cbn; lia))
    as Hidx.
  unfold formatBytes.
  destruct (scale_loop (List.length units) bytes 0) as [size k].
  cbn [fst snd] in *.
  split; [exact Hidx|]. split; [apply nth_In; cbn in *; lia|].
  destruct (toFixed size 2); reflexivity.
Qed.

Lemma formatBytes_unit_is_listed_witness :
  scale_loop 9 (S754_infinity false) 0
  = scale_loop (List.length units) (S754_infinity false) 0
  /\ (snd (scale_loop 9 (S754_infinity false) 0)
      <= List.length units - 1)%nat
  /\ In (nth (snd (scale_loop 9 (S754_infinity false) 0)) units "undefined")
        units
  /\ formatBytes (S754_infinity false)
     = option_map
         (fun digits =>
            digits ++ " "
            ++ nth (snd (scale_loop 9 (S754_infinity false) 0)) units
                   "undefined")
         (toFixed (fst (scale_loop 9 (S754_infinity false) 0)) 2).
Proof.
  apply (formatBytes_unit_is_listed (S754_infinity false) 9).
  cbn. lia.
Defined.

(** ** The displayed size *)

(** X2. The number [formatBytes] displays for an integer byte count below
    [2^53] is at least 1.00 in every unit above B, and at most 1024.00 in
    every unit below TB; in B it is the byte count itself.  The upper bound
    is reached: 1048575 bytes are displayed as 1024.00 KB, since the
    comparison with 1024 is made before [toFixed] rounds. *)
Theorem formatBytes_display_range :
  (forall b : Z,
      0 <= b < 2 ^ 53 ->
      exists (n : Z) (unit : string),
        formatBytes (of_Z b) = Some (fixed_text n 2 ++ " " ++ unit)
        /\ In unit units
        /\ 0 <= n
        /\ (unit <> "B" -> 100 <= n)
        /\ (unit <> "TB" -> n <= 102400)
        /\ (unit = "B" -> n = 100 * b))
  /\ formatBytes (of_Z 1048575) = Some "1024.00 KB".
Proof.
  split; [|vm_compute; reflexivity].
  intros b Hb.
  destruct (formatBytes_integer b Hb) as (E & Hin & Hup & Hlo & _ & _).
  cbv zeta in E.
  eexists _, _. split; [exact E|]. split; [exact Hin|].
  change (2 ^ 53) with 9007199254740992 in Hb.
  unfold unit_index in *.
  destruct (Z.ltb_spec b 1024) as [L0|L0];
    [|destruct (Z.ltb_spec b (1024 ^ 2)) as [L1|L1];
      [|destruct (Z.ltb_spec b (1024 ^ 3)) as [L2|L2];
        [|destruct (Z.ltb_spec b (1024 ^ 4)) as [L3|L3]]]];
    cbn [nth units Z.of_nat Pos.of_succ_nat Pos.succ] in *;
    match goal with
    | |- context [(200 * b + ?K) / (2 * ?K)] =>
        let K' := eval vm_compute in K in
        change K with K' in *;
        let D := eval vm_compute in (2 * K') in
        change (2 * K') with D in *;
        assert (D1 : D * ((200 * b + K') / D) <= 200 * b + K')
          by (apply Z.mul_div_le; lia);
        assert (D2 : 200 * b + K' < D * ((200 * b + K') / D) + D)
          by (pose proof (Z.mod_pos_bound (200 * b + K') D ltac:(lia));
              pose proof (Z.div_mod (200 * b + K') D ltac:(lia)); lia);
        set (n := (200 * b + K') / D) in *; clearbody n
    end;
    change (1024 ^ 2) with 1048576 in *;
    change (1024 ^ 3) with 1073741824 in *;
    change (1024 ^ 4) with 1099511627776 in *;
    repeat apply conj; intros; try lia; try congruence.
Qed.

Lemma formatBytes_display_range_witness :
  exists (n : Z) (unit : string),
    formatBytes (of_Z 1536) = Some (fixed_text n 2 ++ " " ++ unit)
    /\ In unit units
    /\ 0 <= n
    /\ (unit <> "B" -> 100 <= n)
    /\ (unit <> "TB" -> n <= 102400)
    /\ (unit = "B" -> n = 100 * 1536).
Proof.
  apply (proj1 formatBytes_display_range 1536).
  split; [lia | reflexivity].
Defined.

Lemma exists_last_or_nil {A} (l : list A) :
  l = [] \/ exists l' a, l = (l' ++ [a])%list.
Proof.
  destruct l as [|x l]; [left; reflexivity|right].
  destruct (@exists_last A (x :: l)) as (l' & a & E); [discriminate|].
  exists l', a. exact E.
Qed.

(** ** More on the private address *)

(** X3. The selected address is the text ["Not found"] or the address of an
    interface entry of the table that is IPv4 and not internal: no IPv6 and
    no loopback entry is ever selected. *)
Theorem private_address_comes_from_table (h : Host) :
  getPrivateIP h = "Not found"
  \/ exists name addrs iface,
       In (name, addrs) (os_networkInterfaces h)
       /\ In iface addrs
       /\ family iface = "IPv4" /\ internal iface = false
       /\ getPrivateIP h = address iface.
Proof.
  rewrite getPrivateIP_candidates.
  destruct (exists_last_or_nil (candidates h)) as [E|(cs & c & E)];
    [left; rewrite E; reflexivity|].
  right.
  assert (Hin : In c (candidates h)).
  { rewrite E. apply in_or_app. right. left. reflexivity. }
  unfold candidates in Hin. apply filter_In in Hin as [Hin Hw].
  apply in_concat in Hin as (addrs & Haddrs & Hc).
  apply in_map_iff in Haddrs as ([name addrs'] & <- & Hentry).
  unfold wanted in Hw. apply andb_true_iff in Hw as [Hf Hi].
  apply String.eqb_eq in Hf. apply negb_true_iff in Hi.
  exists name, addrs', c. repeat split; try assumption.
  rewrite E, map_app, last_app_default. reflexivity.
Qed.

Lemma candidates_app (h h1 h2 : Host) :
  os_networkInterfaces h
  = (os_networkInterfaces h1 ++ os_networkInterfaces h2)%list ->
  candidates h = (candidates h1 ++ candidates h2)%list.
Proof.
  intros E. unfold candidates.
  rewrite E, map_app, concat_app, filter_app. reflexivity.
Qed.

(** X4. Interfaces listed later take precedence.  When the table of a host
    is the table of [h1] followed by the table of [h2], the selected address
    is the one selected for [h2] as soon as [h2] has a non-loopback IPv4
    address, and the one selected for [h1] otherwise: entries that are
    internal or not IPv4 never change the selection. *)
Theorem private_address_of_joined_tables (h h1 h2 : Host) :
  os_networkInterfaces h
  = (os_networkInterfaces h1 ++ os_networkInterfaces h2)%list ->
  getPrivateIP h
  = match candidates h2 with
    | [] => getPrivateIP h1
    | _ :: _ => getPrivateIP h2
    end.
Proof.
  intros E. rewrite !getPrivateIP_candidates.
  rewrite (candidates_app h h1 h2 E), map_app, last_app_default.
  destruct (candidates h2) as [|c cs]; [reflexivity|].
  cbn [map]. apply last_cons_default.
Qed.

Lemma private_address_of_joined_tables_witness :
  getPrivateIP (sample_host no_disk sample_interfaces)
  = match candidates
            (sample_host no_disk
               [("wlan0", [{| address := "10.0.0.7"; family := "IPv4";
                              internal := false |}])]) with
    | [] =>
        getPrivateIP
          (sample_host no_disk
             [("lo", [{| address := "127.0.0.1"; family := "IPv4";
                         internal := true |};
                      {| address := "::1"; family := "IPv6";
                         internal := true |}]);
              ("eth0", [{| address := "192.168.1.20"; family := "IPv4";
                           internal := false |};
                        {| address := "fe80::1"; family := "IPv6";
                           internal := false |}])])
    | _ :: _ =>
        getPrivateIP
          (sample_host no_disk
             [("wlan0", [{| address := "10.0.0.7"; family := "IPv4";
                            internal := false |}])])
    end.
Proof.
  apply (private_address_of_joined_tables
           (sample_host no_disk sample_interfaces)).
  reflexivity.
Defined.

(** ** More on the core records *)

Lemma core_metric_fields (index : nat) (cpu : Cpu) (m : CoreMetric) :
  core_metric index cpu = Some m ->
  core m = Z.of_nat index + 1
  /\ model m = cpu_model cpu
  /\ rawUser (times m) = property "user" (cpu_times cpu)
  /\ rawSystem (times m) = property "sys" (cpu_times cpu)
  /\ rawIdle (times m) = property "idle" (cpu_times cpu)
  /\ (exists t,
        percentage (to_number (property "user" (cpu_times cpu)))
                   (rawTotal (times m)) 1 = Some t
        /\ user (times m) = t ++ "%")
  /\ (exists t,
        percentage (to_number (property "sys" (cpu_times cpu)))
                   (rawTotal (times m)) 1 = Some t
        /\ system (times m) = t ++ "%")
  /\ (exists t,
        percentage (to_number (property "idle" (cpu_times cpu)))
                   (rawTotal (times m)) 1 = Some t
        /\ idle (times m) = t ++ "%").
Proof.
  unfold core_metric. intros H.
  destruct (percentage (to_number (property "user" (cpu_times cpu))) _ 1)
    as [tu|] eqn:Eu; [|discriminate H].
  destruct (percentage (to_number (property "sys" (cpu_times cpu))) _ 1)
    as [ts|] eqn:Es; [|discriminate H].
  destruct (percentage (to_number (property "idle" (cpu_times cpu))) _ 1)
    as [ti|] eqn:Ei; [|discriminate H].
  destruct (toString (cpu_speed cpu)) as [mhz|]; [|discriminate H].
  injection H as <-. cbn.
  repeat split; try reflexivity; eexists; (split; [eassumption|reflexivity]).
Qed.

Lemma map_cores_numbering (cpus : list Cpu) (k : nat)
  (cores : list CoreMetric) :
  map_cores k cpus = Some cores ->
  map core cores = map (fun j => Z.of_nat j + 1) (seq k (List.length cpus))
  /\ map model cores = map cpu_model cpus.
Proof.
  revert k cores. induction cpus as [|cpu cpus IH]; intros k cores H.
  - injection H as <-. split; reflexivity.
  - cbn [map_cores] in H.
    destruct (core_metric k cpu) as [c|] eqn:Ec; [|discriminate H].
    destruct (map_cores (S k) cpus) as [cs|] eqn:Ecs; [|discriminate H].
    injection H as <-.
    destruct (IH _ _ Ecs) as [IH1 IH2].
    destruct (core_metric_fields _ _ _ Ec) as (Hc & Hm & _).
    cbn [map List.length seq]. rewrite IH1, IH2, Hc, Hm.
    split; reflexivity.
Qed.

(** X5. The records [getCPUInfo] returns are numbered 1, 2, ..., n in the
    order of [os.cpus()], without gap or repetition, and carry the model
    names in that order. *)
Theorem cores_are_numbered_in_order (h : Host) (cores : list CoreMetric) :
  getCPUInfo h = Some cores ->
  map core cores = map Z.of_nat (seq 1 (List.length (os_cpus h)))
  /\ NoDup (map core cores)
  /\ map model cores = map cpu_model (os_cpus h).
Proof.
  intros H. destruct (map_cores_numbering _ _ _ H) as [Hn Hm].
  assert (E : map core cores
              = map Z.of_nat (seq 1 (List.length (os_cpus h)))).
  { rewrite Hn, <- seq_shift, map_map. apply map_ext.
    intros j. lia. }
  repeat split; [exact E | | exact Hm].
  rewrite E. apply Finite.Injective_map_NoDup; [|apply seq_NoDup].
  intros a b. apply Nat2Z.inj.
Qed.

Lemma cores_are_numbered_in_order_witness :
  map core [{| core := 1; model := "Synthetic"; speed := "2400 MHz";
               times := {| user := "20.0%"; system := "10.0%";
                           idle := "70.0%"; rawTotal := of_Z 1000;
                           rawUser := Some (of_Z 200);
                           rawSystem := Some (of_Z 100);
                           rawIdle := Some (of_Z 700) |} |}]
  = map Z.of_nat
        (seq 1 (List.length (os_cpus (sample_host no_disk []))))
  /\ NoDup (map core [{| core := 1; model := "Synthetic";
                         speed := "2400 MHz";
               times := {| user := "20.0%"; system := "10.0%";
                           idle := "70.0%"; rawTotal := of_Z 1000;
                           rawUser := Some (of_Z 200);
                           rawSystem := Some (of_Z 100);
                           rawIdle := Some (of_Z 700) |} |}])
  /\ map model [{| core := 1; model := "Synthetic"; speed := "2400 MHz";
               times := {| user := "20.0%"; system := "10.0%";
                           idle := "70.0%"; rawTotal := of_Z 1000;
                           rawUser := Some (of_Z 200);
                           rawSystem := Some (of_Z 100);
                           rawIdle := Some (of_Z 700) |} |}]
     = map cpu_model (os_cpus (sample_host no_disk [])).
Proof.
  apply (cores_are_numbered_in_order (sample_host no_disk [])).
  vm_compute. reflexivity.
Defined.

Lemma percentage_of_undefined (total_ : number) (f : nat) :
  percentage (to_number None) total_ f = Some "NaN".
Proof. destruct total_ as [| [|] | | ]; reflexivity. Qed.

(** X6. A counter that is missing from the [times] object of a core is not
    reported as an error: its percentage is the text ["NaN%"] and its raw
    value is [undefined], while the record is built as for any other
    core. *)
Theorem missing_counter_gives_NaN (index : nat) (cpu : Cpu) (m : CoreMetric) :
  core_metric index cpu = Some m ->
  (property "user" (cpu_times cpu) = None ->
   user (times m) = "NaN%" /\ rawUser (times m) = None)
  /\ (property "sys" (cpu_times cpu) = None ->
      system (times m) = "NaN%" /\ rawSystem (times m) = None)
  /\ (property "idle" (cpu_times cpu) = None ->
      idle (times m) = "NaN%" /\ rawIdle (times m) = None).
Proof.
  intros H.
  destruct (core_metric_fields _ _ _ H)
    as (_ & _ & Ru & Rs & Ri & (tu & Pu & Tu) & (ts & Ps & Ts)
        & (ti & Pi & Ti)).
  repeat apply conj; intros Hk; (split; [|congruence]).
  - rewrite Hk, percentage_of_undefined in Pu. injection Pu as <-. exact Tu.
  - rewrite Hk, percentage_of_undefined in Ps. injection Ps as <-. exact Ts.
  - rewrite Hk, percentage_of_undefined in Pi. injection Pi as <-. exact Ti.
Qed.

Lemma missing_counter_gives_NaN_witness :
  exists m : CoreMetric,
    core_metric 0 {| cpu_model := "Synthetic"; cpu_speed := of_Z 2400;
                     cpu_times := [("user", of_Z 200); ("sys", of_Z 100)] |}
    = Some m
    /\ idle (times m) = "NaN%" /\ rawIdle (times m) = None.
Proof.
  assert (H : exists m : CoreMetric,
             core_metric 0 {| cpu_model := "Synthetic";
                              cpu_speed := of_Z 2400;
                              cpu_times := [("user", of_Z 200);
                                            ("sys", of_Z 100)] |}
             = Some m)
    by (vm_compute; eexists; reflexivity).
  destruct H as [m E]. exists m. split; [exact E|].
  apply (proj2 (proj2 (missing_counter_gives_NaN _ _ m E))).
  reflexivity.
Defined.

(** ** Cores with more than three states *)






(** ** The whole snapshot *)

Lemma formatUptime_some (M e : Z) :
  0 <= M < 2 ^ 53 -> -948 <= e <= 0 ->
  exists text, formatUptime (dyadic M e) = Some text.
Proof.
  intros HM He.
  set (T := M / 2 ^ (- e)).
  assert (Hpe : 0 < 2 ^ (- e)) by (apply Z.pow_pos_nonneg; lia).
  assert (HT : 0 <= T < 2 ^ 53).
  { subst T. split; [apply Z.div_pos; lia|].
    apply Z.div_lt_upper_bound; [lia|]. nia. }
  pose proof (Z.mod_pos_bound T 86400 ltac:(lia)) as B1.
  pose proof (Z.mod_pos_bound T 3600 ltac:(lia)) as B2.
  pose proof (Z.mod_pos_bound T 60 ltac:(lia)) as B3.
  pose proof (Z.div_mod (T mod 86400) 3600 ltac:(lia)) as E2.
  pose proof (Z.mod_pos_bound (T mod 86400) 3600 ltac:(lia)) as B4.
  pose proof (Z.div_mod (T mod 3600) 60 ltac:(lia)) as E3.
  pose proof (Z.mod_pos_bound (T mod 3600) 60 ltac:(lia)) as B5.
  assert (HD : 0 <= T / 86400 < 2 ^ 53).
  { split; [apply Z.div_pos; lia|].
    apply Z.div_lt_upper_bound; lia. }
  change (2 ^ 53) with 9007199254740992 in *.
  unfold formatUptime. rewrite seconds_86400.
  rewrite !js_rem_dyadic by lia.
  rewrite !floor_div_dyadic, Math_floor_dyadic;
    try lia;
    try (split; [apply Z.mod_pos_bound; nia|];
         eapply Z.le_lt_trans; [apply Z.mod_le; nia|lia]).
  rewrite !mod_div_scale by lia. fold T.
  rewrite !toString_integer by lia.
  eexists. reflexivity.
Qed.

Lemma core_metric_some (cpu : Cpu) (index : nat) :
  integer_cpu cpu -> exists m, core_metric index cpu = Some m.
Proof.
  intros (counters & mhz & u & s & i & Ht & Hw & Hs & Hm & Iu & Is & Ii).
  destruct (core_metric_integer index cpu counters mhz u s i
              Ht Hw Hs Hm Iu Is Ii) as (tu & ts & ti & _ & _ & _ & E).
  eexists. exact E.
Qed.

Lemma usage_some (total_ free_ : number) :
  integer_usage total_ free_ ->
  exists um, usage total_ free_ = Some um /\ usage_invariant um.
Proof.
  intros (t & f & Hf & Ht & -> & ->).
  destruct (usage_integer t f Hf Ht) as (um & E & Hinv & _).
  exists um. split; assumption.
Qed.

(** X8. On a host with the readings an operating system gives (integer
    counters, clock speeds and byte counts below [2^53], free memory within
    the total, an uptime below [2^53] seconds, the disk measured or not),
    sampling never fails: [getSystemInfo] returns a snapshot with one record
    per core, memory and disk records in which used and free add up to the
    total (the disk record being the sentinel when the disk is not
    measured), and the host name and interface table of the host. *)
Theorem snapshot_is_always_built (h : Host) :
  integer_host h ->
  exists snap : Snapshot,
    getSystemInfo h = Some snap
    /\ List.length (cpu snap) = List.length (os_cpus h)
    /\ js_add (usedRaw (memory snap)) (freeRaw (memory snap))
       = totalRaw (memory snap)
    /\ js_add (usedRaw (disk snap)) (freeRaw (disk snap))
       = totalRaw (disk snap)
    /\ hostname (os snap) = os_hostname h
    /\ privateIP (network snap) = getPrivateIP h
    /\ interfaces (network snap) = os_networkInterfaces h.
Proof.
  intros (Hcpus & Hmem & Hdisk & M & e & HM & He & Hup).
  assert (Hcores : exists cores,
             getCPUInfo h = Some cores
             /\ List.length cores = List.length (os_cpus h)).
  { apply map_cores_total. intros j c Hj.
    apply core_metric_some.
    rewrite Forall_forall in Hcpus. apply Hcpus.
    eapply nth_error_In. exact Hj. }
  destruct Hcores as (cores & Ecores & Hlen).
  destruct (usage_some _ _ Hmem) as (mem & Emem & Imem & _).
  assert (Hd : exists d, getDiskInfo h = Some d
                         /\ js_add (usedRaw d) (freeRaw d) = totalRaw d).
  { unfold getDiskInfo.
    destruct (disk_check h "/") as [info|err].
    - destruct (usage_some _ _ Hdisk) as (d & Ed & Id & _).
      exists d. split; assumption.
    - exists disk_unavailable. split; reflexivity. }
  destruct Hd as (d & Ed & Id).
  destruct (formatUptime_some M e HM He) as (up & Eup).
  rewrite <- Hup in Eup.
  unfold getSystemInfo. unfold getMemoryInfo in *.
  rewrite Ecores, Emem, Ed, Eup.
  eexists. split; [reflexivity|].
  cbn. repeat split; assumption.
Qed.

Lemma snapshot_is_always_built_witness :
  exists snap : Snapshot,
    getSystemInfo (sample_host some_disk sample_interfaces) = Some snap
    /\ List.length (cpu snap)
       = List.length (os_cpus (sample_host some_disk sample_interfaces))
    /\ js_add (usedRaw (memory snap)) (freeRaw (memory snap))
       = totalRaw (memory snap)
    /\ js_add (usedRaw (disk snap)) (freeRaw (disk snap))
       = totalRaw (disk snap)
    /\ hostname (os snap)
       = os_hostname (sample_host some_disk sample_interfaces)
    /\ privateIP (network snap)
       = getPrivateIP (sample_host some_disk sample_interfaces)
    /\ interfaces (network snap)
       = os_networkInterfaces (sample_host some_disk sample_interfaces).
Proof.
  apply (snapshot_is_always_built (sample_host some_disk sample_interfaces)).
  split; [|split; [|split]].
  - constructor; [|constructor].
    exists [("user", 200); ("sys", 100); ("idle", 700)], 2400, 200, 100, 700.
    repeat split; try reflexivity; try lia; cbn; auto.
    + repeat constructor; cbn; intuition discriminate.
    + repeat constructor; cbn; lia.
  - exists 17179869184, 4294967296.
    repeat split; try reflexivity; lia.
  - exists 500000000000, 350000000000.
    repeat split; try reflexivity; lia.
  - exists 90061, 0. repeat split; try reflexivity; lia.
Defined.

(** ** Sessions under any run of events *)

Section MoreSessionProperties.

Variable host_at : nat -> Host.

Lemma elapse_add (a b : nat) (s : Session) :
  elapse host_at (a + b) s = elapse host_at b (elapse host_at a s).
Proof.
  revert s; induction a as [|a IH]; intros s; [reflexivity|].
  cbn [Nat.add elapse]. apply IH.
Qed.

Lemma millisecond_now (s : Session) :
  now (millisecond host_at s) = S (now s).
Proof.
  unfold millisecond, on_interval, send_specs.
  destruct (interval s) as [[|[|rest]]|]; cbn;
    destruct (is_open (readyState s)); reflexivity.
Qed.

Lemma elapse_now (ms : nat) (s : Session) :
  now (elapse host_at ms s) = (now s + ms)%nat.
Proof.
  revert s; induction ms as [|ms IH]; intros s; [cbn; lia|].
  cbn [elapse]. rewrite IH, millisecond_now. lia.
Qed.

Lemma run_now (evs : list Event) (s : Session) :
  now (run host_at s evs) = (now s + elapsed_ms evs)%nat.
Proof.
  revert s; induction evs as [|ev evs IH]; intros s; [cbn; lia|].
  change (run host_at s (ev :: evs))
    with (run host_at (step host_at s ev) evs).
  rewrite IH. destruct ev as [ms| |]; cbn [step elapsed_ms].
  - rewrite elapse_now. lia.
  - reflexivity.
  - reflexivity.
Qed.

(** A session whose timer is cleared and whose socket is not open stays
    so. *)
Lemma millisecond_over (s : Session) :
  interval s = None -> is_open (readyState s) = false ->
  interval (millisecond host_at s) = None
  /\ is_open (readyState (millisecond host_at s)) = false.
Proof.
  intros Hi Hr. unfold millisecond. rewrite Hi. cbn. auto.
Qed.

Lemma elapse_over (ms : nat) (s : Session) :
  interval s = None -> is_open (readyState s) = false ->
  interval (elapse host_at ms s) = None
  /\ is_open (readyState (elapse host_at ms s)) = false.
Proof.
  revert s; induction ms as [|ms IH]; intros s Hi Hr; [auto|].
  destruct (millisecond_over s Hi Hr) as [Hi' Hr'].
  cbn [elapse]. apply IH; assumption.
Qed.

Lemma run_over (evs : list Event) (s : Session) :
  interval s = None -> is_open (readyState s) = false ->
  interval (run host_at s evs) = None
  /\ is_open (readyState (run host_at s evs)) = false.
Proof.
  revert s; induction evs as [|ev evs IH]; intros s Hi Hr; [auto|].
  change (run host_at s (ev :: evs))
    with (run host_at (step host_at s ev) evs).
  destruct ev as [ms| |]; cbn [step].
  - destruct (elapse_over ms s Hi Hr). apply IH; assumption.
  - apply IH; reflexivity.
  - apply IH; reflexivity.
Qed.

Lemma run_connected (ws : ReadyState) (evs : list Event) (t0 ms : nat) :
  let s := run host_at (elapse host_at ms (on_connection host_at ws t0))
               evs in
  delivered s
  = (if is_open ws
     then first_push host_at t0
            :: ticks host_at t0 ((ms + attached_ms evs) / period)
     else [])
  /\ if existsb ends_session evs
     then interval s = None /\ is_open (readyState s) = false
     else interval s = Some (period - (ms + attached_ms evs) mod period)%nat
          /\ readyState s = ws.
Proof.
  revert ms; induction evs as [|ev evs IH]; intros ms.
  - cbn [run fold_left attached_ms existsb]. rewrite connected_after.
    rewrite Nat.add_0_r. cbn. auto.
  - cbv zeta.
    change (run host_at ?s (ev :: evs))
      with (run host_at (step host_at s ev) evs).
    destruct ev as [m| |].
    + cbn [step attached_ms existsb ends_session orb].
      rewrite <- elapse_add, Nat.add_assoc. apply IH.
    + cbn [step attached_ms existsb ends_session orb].
      rewrite Nat.add_0_r. split.
      * rewrite run_detached by (left; reflexivity).
        cbn [on_close delivered]. rewrite connected_after. reflexivity.
      * apply run_over; reflexivity.
    + cbn [step attached_ms existsb ends_session orb].
      rewrite Nat.add_0_r. split.
      * rewrite run_detached by (left; reflexivity).
        cbn [on_error delivered]. rewrite connected_after. reflexivity.
      * apply run_over; reflexivity.
Qed.

Lemma ticks_times (t0 k : nat) :
  map at_ms (ticks host_at t0 k)
  = map (fun j => t0 + j * period)%nat (seq 1 k).
Proof.
  induction k as [|k IH]; [reflexivity|].
  cbn [ticks]. rewrite map_app, IH, seq_S, map_app. reflexivity.
Qed.

Lemma ticks_sampled (t0 k : nat) :
  Forall (fun d => payload d = getSystemInfo (host_at (at_ms d)))
         (ticks host_at t0 k).
Proof.
  induction k as [|k IH]; [constructor|].
  cbn [ticks]. apply Forall_app. split; [exact IH|].
  constructor; [reflexivity|constructor].
Qed.

(** X9. Whatever the order of the events after a connection (time passing
    in any number of pieces, closes and errors, repeated or not), what has
    been pushed depends on two things only: whether the socket is open as
    the handler makes its first send, and the time [a] that passed before
    the first close or error event.  On an open socket the pushes are those
    of the instants [t0], [t0 + 1000], ..., [t0 + (a / 1000) * 1000], in
    that order; on a socket that is not open there is none.  Each push
    carries the snapshot sampled at its own instant, and the clock of the
    session has advanced by all the time that passed. *)
Theorem pushes_depend_on_attached_time (ws : ReadyState) (t0 : nat)
  (evs : list Event) :
  let s := run host_at (on_connection host_at ws t0) evs in
  let k := (attached_ms evs / 1000)%nat in
  delivered s
  = (if is_open ws then first_push host_at t0 :: ticks host_at t0 k else [])
  /\ map at_ms (delivered s)
     = (if is_open ws
        then map (fun j => t0 + j * 1000)%nat (seq 0 (S k))
        else [])
  /\ Forall (fun d => payload d = getSystemInfo (host_at (at_ms d)))
            (delivered s)
  /\ now s = (t0 + elapsed_ms evs)%nat.
Proof.
  intros s k.
  assert (E : delivered s
              = if is_open ws
                then first_push host_at t0 :: ticks host_at t0 k
                else []).
  { exact (proj1 (run_connected ws evs t0 0)). }
  repeat split.
  - exact E.
  - rewrite E. destruct (is_open ws); [|reflexivity].
    cbn [map seq]. rewrite ticks_times.
    unfold first_push, period. cbn [at_ms]. f_equal. lia.
  - rewrite E. destruct (is_open ws); [|constructor].
    constructor; [reflexivity|apply ticks_sampled].
  - unfold s. rewrite run_now.
    unfold on_connection, send_specs. cbn [readyState].
    destruct (is_open ws); reflexivity.
Qed.

(** X10. The handler arms the timer whatever the state of the socket, and
    only a close or error event that reaches its listeners clears it.  Until
    such an event the timer stays armed, due at the next multiple of
    1000 ms since the connection, and the socket is in the state the
    handler found it in: for a socket that had closed before the listeners
    were registered, the timer keeps firing without sending.  Once a close
    or error event has occurred, the session has no timer and its socket is
    not open, whatever events follow: the timer is never armed again. *)
Theorem timer_is_cleared_for_good (ws : ReadyState) (t0 : nat)
  (evs : list Event) :
  let s := run host_at (on_connection host_at ws t0) evs in
  if existsb ends_session evs
  then interval s = None /\ is_open (readyState s) = false
  else interval s = Some (1000 - attached_ms evs mod 1000)%nat
       /\ readyState s = ws.
Proof.
  exact (proj2 (run_connected ws evs t0 0)).
Qed.

End MoreSessionProperties.

(** ** The usage figure of the page *)

Lemma complements_all : forallb complements (seq 0 1001) = true.
Proof. vm_compute. reflexivity. Qed.

Lemma usage_figure_tenths (n : Z) :
  0 <= n <= 1000 ->
  usage_figure (fixed_text n 1 ++ "%") 1 = Some (fixed_text (1000 - n) 1)
  /\ usage_figure (fixed_text n 1 ++ "%") 2
     = Some (fixed_text (10 * (1000 - n)) 2).
Proof.
  intros Hn.
  pose proof complements_all as H. rewrite forallb_forall in H.
  specialize (H (Z.to_nat n)).
  assert (Hin : In (Z.to_nat n) (seq 0 1001)) by (apply in_seq; lia).
  specialize (H Hin). unfold complements in H.
  rewrite Z2Nat.id in H by lia.
  destruct (usage_figure (fixed_text n 1 ++ "%") 1) as [t1|];
    [|discriminate H].
  destruct (usage_figure (fixed_text n 1 ++ "%") 2) as [t2|];
    [|discriminate H].
  apply andb_true_iff in H as [H1 H2].
  apply String.eqb_eq in H1, H2. subst. split; reflexivity.
Qed.

Lemma tenth_in_range (c T n : Z) :
  0 <= c <= T -> 0 < T ->
  (inject_Z n - (1 # 2) - (1 # 1000000000)
   <= 1000 * (inject_Z c / inject_Z T))%Q ->
  n <= 1000.
Proof.
  intros Hc HT B.
  assert (Qt : (0 < inject_Z T)%Q) by (rewrite <- (Zlt_Qlt 0); lia).
  assert (Hr : (inject_Z c / inject_Z T <= 1)%Q).
  { apply Qle_shift_div_r; [exact Qt|].
    rewrite Qmult_1_l, <- Zle_Qle. lia. }
  set (r := (inject_Z c / inject_Z T)%Q) in *. clearbody r.
  assert (Hlt : (inject_Z n < inject_Z 1001)%Q).
  { change (inject_Z 1001) with (1001 # 1)%Q. lra. }
  rewrite <- Zlt_Qlt in Hlt. lia.
Qed.

(** ** Plain texts *)

Lemma plain_app (a b : string) : plain (a ++ b) = plain a && plain b.
Proof.
  induction a as [|c a IH]; [reflexivity|].
  cbn [append plain]. rewrite IH. apply andb_assoc.
Qed.

Lemma plain_string_of_uint (d : Decimal.uint) :
  plain (NilEmpty.string_of_uint d) = true.
Proof.
  induction d as [|d IH|d IH|d IH|d IH|d IH|d IH|d IH|d IH|d IH|d IH];
    cbn [NilEmpty.string_of_uint plain]; rewrite ?IH; reflexivity.
Qed.

Lemma plain_digits_of (n : Z) : plain (digits_of n) = true.
Proof. apply plain_string_of_uint. Qed.

Lemma plain_zeros (k : nat) : plain (zeros k) = true.
Proof. induction k as [|k IH]; [reflexivity|]. cbn [zeros plain]. rewrite IH. reflexivity. Qed.

Lemma plain_fixed_text (n : Z) (f : nat) : plain (fixed_text n f) = true.
Proof.
  destruct f as [|f]; [apply plain_digits_of|].
  unfold fixed_text, pad_left.
  rewrite !plain_app, !plain_digits_of, plain_zeros. reflexivity.
Qed.

Lemma plain_unit (unit : string) : In unit units -> plain unit = true.
Proof.
  intros H. cbn in H.
  repeat (destruct H as [<- | H]; [reflexivity|]). contradiction.
Qed.

Lemma formatBytes_plain (b : Z) :
  0 <= b < 2 ^ 53 ->
  exists t, formatBytes (of_Z b) = Some t /\ plain t = true.
Proof.
  intros Hb.
  destruct (formatBytes_integer b Hb) as (E & Hin & _).
  cbv zeta in E. eexists. split; [exact E|].
  rewrite !plain_app, plain_fixed_text, (plain_unit _ Hin). reflexivity.
Qed.

Lemma percentage_plain (c T : Z) (t : string) :
  0 <= c <= T -> T < 2 ^ 53 ->
  percentage (of_Z c) (of_Z T) 1 = Some t -> plain (t ++ "%") = true.
Proof.
  intros Hc HT E. destruct (Z.eq_dec T 0) as [E0|E0].
  - assert (c = 0) by lia. subst c T.
    assert (t = "NaN") by (vm_compute in E; congruence). subst t. reflexivity.
  - destruct (percentage_tenth c T Hc ltac:(lia)) as (n & En & _).
    assert (t = fixed_text n 1) by congruence. subst t.
    rewrite plain_app, plain_fixed_text. reflexivity.
Qed.

Lemma usage_plain (total_ free_ : number) :
  integer_usage total_ free_ ->
  exists um,
    usage total_ free_ = Some um
    /\ js_add (usedRaw um) (freeRaw um) = totalRaw um
    /\ plain (total um) = true /\ plain (used um) = true
    /\ plain (free um) = true /\ plain (usedPercentage um) = true.
Proof.
  intros (t & f & Hf & Ht & -> & ->).
  destruct (usage_integer t f Hf Ht) as (um & E & (Hraw & _) & _).
  exists um. split; [exact E|]. split; [exact Hraw|].
  unfold usage in E.
  assert (Hsub : js_sub (of_Z t) (of_Z f) = of_Z (t - f)).
  { rewrite !of_Z_dyadic by lia. apply js_sub_integers; lia. }
  rewrite Hsub in E.
  destruct (formatBytes_plain t ltac:(lia)) as (bt & Et & Pt).
  destruct (formatBytes_plain f ltac:(lia)) as (bf & Ef & Pf).
  destruct (formatBytes_plain (t - f) ltac:(lia)) as (bu & Eu & Pu).
  destruct (percentage_integer (t - f) t 2 ltac:(lia) Ht ltac:(auto))
    as (nu & Enu & _).
  destruct (percentage_integer f t 2 ltac:(lia) Ht ltac:(auto))
    as (nf & Enf & _).
  rewrite Et, Ef, Eu, Enu, Enf in E.
  assert (Eum : um = {| total := bt; free := bf; used := bu;
                        usedPercentage := fixed_text nu 2 ++ "%";
                        freePercentage := fixed_text nf 2 ++ "%";
                        totalRaw := of_Z t; freeRaw := of_Z f;
                        usedRaw := of_Z (t - f) |}) by congruence.
  rewrite Eum. cbv [total used free usedPercentage].
  rewrite plain_app, plain_fixed_text. auto.
Qed.

Lemma formatUptime_plain (M e : Z) :
  0 <= M < 2 ^ 53 -> -948 <= e <= 0 ->
  exists t, formatUptime (dyadic M e) = Some t /\ plain t = true.
Proof.
  intros HM He.
  set (T := M / 2 ^ (- e)).
  assert (Hpe : 0 < 2 ^ (- e)) by (apply Z.pow_pos_nonneg; lia).
  assert (HT : 0 <= T < 2 ^ 53).
  { subst T. split; [apply Z.div_pos; lia|].
    apply Z.div_lt_upper_bound; [lia|]. nia. }
  pose proof (Z.mod_pos_bound T 86400 ltac:(lia)) as B1.
  pose proof (Z.mod_pos_bound T 3600 ltac:(lia)) as B2.
  pose proof (Z.mod_pos_bound T 60 ltac:(lia)) as B3.
  pose proof (Z.div_mod (T mod 86400) 3600 ltac:(lia)) as E2.
  pose proof (Z.mod_pos_bound (T mod 86400) 3600 ltac:(lia)) as B4.
  pose proof (Z.div_mod (T mod 3600) 60 ltac:(lia)) as E3.
  pose proof (Z.mod_pos_bound (T mod 3600) 60 ltac:(lia)) as B5.
  assert (HD : 0 <= T / 86400 < 2 ^ 53).
  { split; [apply Z.div_pos; lia|].
    apply Z.div_lt_upper_bound; lia. }
  change (2 ^ 53) with 9007199254740992 in *.
  unfold formatUptime. rewrite seconds_86400.
  rewrite !js_rem_dyadic by lia.
  rewrite !floor_div_dyadic, Math_floor_dyadic;
    try lia;
    try (split; [apply Z.mod_pos_bound; nia|];
         eapply Z.le_lt_trans; [apply Z.mod_le; nia|lia]).
  rewrite !mod_div_scale by lia. fold T.
  rewrite !toString_integer by lia.
  eexists. split; [reflexivity|].
  rewrite !plain_app, !plain_digits_of. reflexivity.
Qed.

(** ** The control buttons *)

(** X12. What the user of the page is told about a control request.  Declining
    the question sends nothing.  When the request is answered and the command
    succeeded, the alert shows the acknowledgment of the server.  When the
    command failed, the 500 response is read like any other: the alert shows
    the text ["undefined"], neither the error text of the response nor the
    cause, for both buttons and every cause. *)
Theorem control_buttons_report (action : string)
  (exec : string -> option string) :
  action = "restart" \/ action = "shutdown" ->
  confirmAction action false Answered exec
  = Some {| asked := if String.eqb action "restart"
                     then "Are you sure you want to restart the system?"
                     else "Are you sure you want to shut down the system?";
            alerted := None; served := None |}
  /\ (exec (command_of action) = None ->
      exists d, confirmAction action true Answered exec = Some d
                /\ alerted d
                   = Some (if String.eqb action "restart"
                           then "System is restarting"
                           else "System is shutting down")
                /\ option_map (fun h => status (response h)) (served d)
                   = Some 200)
  /\ (forall cause, exec (command_of action) = Some cause ->
      exists d, confirmAction action true Answered exec = Some d
                /\ alerted d = Some "undefined"
                /\ option_map (fun h => status (response h)) (served d)
                   = Some 500).
Proof.
  intros [-> | ->]; (split; [reflexivity|]); split.
  - cbn. unfold post_system_restart. intros ->. eexists.
    repeat split; reflexivity.
  - intros cause. cbn. unfold post_system_restart. intros ->. eexists.
    repeat split; reflexivity.
  - cbn. unfold post_system_shutdown. intros ->. eexists.
    repeat split; reflexivity.
  - intros cause. cbn. unfold post_system_shutdown. intros ->. eexists.
    repeat split; reflexivity.
Qed.

Lemma control_buttons_report_witness :
  confirmAction "shutdown" false Answered (fun _ => Some "Command failed")
  = Some {| asked := "Are you sure you want to shut down the system?";
            alerted := None; served := None |}
  /\ exists d,
       confirmAction "shutdown" true Answered (fun _ => Some "Command failed")
       = Some d
       /\ alerted d = Some "undefined"
       /\ option_map (fun h => status (response h)) (served d) = Some 500.
Proof.
  destruct (control_buttons_report "shutdown" (fun _ => Some "Command failed")
              (or_intror eq_refl)) as (H1 & _ & H3).
  split; [exact H1|].
  apply (H3 "Command failed"). reflexivity.
Defined.

(** ** Arithmetic of the carousel *)

Lemma of_Z_3 : of_Z 3 = S754_finite false 6755399441055744 (-51).
Proof. reflexivity. Qed.

(** Rounding the quotient by three up to an integer gives the exact
    integer: the division never rounds to an integer it does not reach. *)
Lemma ceil_third (n : Z) :
  0 <= n < 2 ^ 50 ->
  Math_ceil (js_div (of_Z n) (of_Z 3)) = of_Z ((n + 2) / 3).
Proof.
  intros Hn.
  destruct (Z.eq_dec n 0) as [->|Hnz]; [reflexivity|].
  assert (Hn53 : 0 < n < 2 ^ 53).
  { change (2 ^ 50) with 1125899906842624 in Hn.
    change (2 ^ 53) with 9007199254740992. lia. }
  rewrite (of_Z_dyadic n), (dyadic_integer n), of_Z_3 by lia.
  pose proof (integer_mantissa53 n Hn53) as Hm.
  assert (Hd : 1 <= Zdigits2 n <= 50).
  { split; [pose proof (Zdigits2_pos n ltac:(lia)); lia|].
    apply Zdigits2_le; lia. }
  set (d := Zdigits2 n) in *.
  assert (H3 : mantissa53 6755399441055744) by (unfold mantissa53; lia).
  rewrite js_div_normal by (assumption || lia).
  cbn [xorb]. unfold nearest.
  assert (Hpd : 0 < 2 ^ (53 - d)) by (apply Z.pow_pos_nonneg; lia).
  rewrite Z2Pos.id in * by nia.
  set (N := n * 2 ^ (53 - d) * 2 ^ 53).
  set (D := Z.pos 6755399441055744).
  unfold mantissa53 in Hm.
  assert (Hq : 2 ^ 52 <= N / D < 2 ^ 54).
  { split.
    - apply Z.div_le_lower_bound; [lia|]. subst N D. nia.
    - apply Z.div_lt_upper_bound; [lia|]. subst N D. nia. }
  assert (Hnq : 0 <= Zdigits2 (N / D) - 53 <= 1).
  { assert (Zdigits2 (N / D) <= 54) by (apply Zdigits2_le; lia).
    assert (53 <= Zdigits2 (N / D)).
    { apply Zdigits2_ge; [lia|lia|]. change (2 ^ (53 - 1)) with (2 ^ 52). lia. }
    lia. }
  set (nq := Zdigits2 (N / D) - 53) in *.
  set (A := 55 - d - nq).
  replace (d - 53 - -51 - 53 + nq) with (- A) by (subst A; lia).
  assert (HA : 4 <= A <= 54) by (subst A; lia).
  set (P := 2 ^ (51 + nq)). set (W := 2 ^ A).
  assert (HP : 0 < P) by (apply Z.pow_pos_nonneg; lia).
  assert (HW : 16 <= W).
  { change 16 with (2 ^ 4). apply Z.pow_le_mono_r; lia. }
  assert (EN : N = n * W * P).
  { subst N W P. rewrite <- !Z.mul_assoc, <- !Z.pow_add_r by lia.
    f_equal. f_equal. subst A. lia. }
  assert (ED : D * 2 ^ nq = 3 * P).
  { subst D P. rewrite Z.pow_add_r by lia.
    change (Z.pos 6755399441055744) with (3 * 2 ^ 51). ring. }
  rewrite ED.
  set (m1 := rne N (3 * P)).
  set (q := n / 3). set (r := n mod 3).
  assert (Enr : n = 3 * q + r) by (apply Z.div_mod; lia).
  assert (Hr : 0 <= r < 3) by (apply Z.mod_pos_bound; lia).
  assert (Hq0 : 0 <= q) by (apply Z.div_pos; lia).
  assert (Hm1 : 2 ^ 52 <= m1 <= 2 ^ 53).
  { pose proof (rne_floor_ceil N (3 * P) ltac:(lia)) as [L U].
    fold m1 in L, U. rewrite <- ED in L, U.
    pose proof (Zdigits2_bounds (N / D) ltac:(lia)) as [Ld Ud].
    replace (Zdigits2 (N / D) - 1) with (52 + nq) in Ld by (subst nq; lia).
    replace (Zdigits2 (N / D)) with (53 + nq) in Ud by (subst nq; lia).
    rewrite Z.pow_add_r in Ld, Ud by lia.
    assert (Hpn : 0 < 2 ^ nq) by (apply Z.pow_pos_nonneg; lia).
    pose proof (Z.div_mod N D ltac:(lia)).
    pose proof (Z.mod_pos_bound N D ltac:(lia)).
    split.
    - assert (2 ^ 52 <= N / (D * 2 ^ nq)); [|lia].
      apply Z.div_le_lower_bound; [nia|]. nia.
    - assert (N / (D * 2 ^ nq) < 2 ^ 53); [|lia].
      apply Z.div_lt_upper_bound; [nia|]. nia. }
  assert (EW : W = 2 ^ A) by reflexivity.
  assert (Em1 : m1 = rne N (3 * P)) by reflexivity.
  clearbody m1 q r W P N.
  assert (HC : - (- m1 / W) = (n + 2) / 3).
  { destruct (Z.eq_dec r 0) as [Er|Er].
    - assert (EN' : N = q * W * (3 * P)).
      { rewrite EN, Enr, Er. ring. }
      assert (Em : m1 = q * W).
      { rewrite Em1, rne_exact; [|lia|].
        - rewrite EN'. apply Z.div_mul. lia.
        - rewrite EN'. apply Z.mod_mul. lia. }
      rewrite Em. replace (- (q * W)) with (- q * W) by ring.
      rewrite Z.div_mul by lia.
      replace (n + 2) with (2 + q * 3) by lia.
      rewrite Z.div_add by lia. change (2 / 3) with 0. lia.
    - assert (Hr1 : 0 <= W * r - 3) by nia.
      assert (Hr2 : W <= W * (3 - r)) by nia.
      assert (Hlo : q * W + 1 <= m1).
      { rewrite Em1. apply rne_ge; [lia|].
        replace N with ((q * W + 1) * (3 * P) + P * (W * r - 3))
          by (rewrite EN, Enr; ring).
        pose proof (Z.mul_nonneg_nonneg P (W * r - 3) ltac:(lia) Hr1). lia. }
      assert (Hhi : m1 < (q + 1) * W).
      { rewrite Em1. apply rne_lt; [lia|].
        replace ((q + 1) * W * (3 * P) - N) with (P * (W * (3 - r)))
          by (rewrite EN, Enr; ring).
        assert (P * W <= P * (W * (3 - r)))
          by (apply Z.mul_le_mono_nonneg_l; lia).
        assert (P * 16 <= P * W) by (apply Z.mul_le_mono_nonneg_l; lia).
        lia. }
      rewrite (div_between (- m1) W (- (q + 1))) by lia.
      replace (n + 2) with ((2 + r) + q * 3) by lia.
      rewrite Z.div_add by lia.
      assert (E2 : (2 + r) / 3 = 1) by (apply div_between; lia).
      lia. }
  change (2 ^ 52) with 4503599627370496 in Hm1.
  change (2 ^ 53) with 9007199254740992 in *.
  destruct (Z.ltb_spec m1 9007199254740992) as [C|C].
  - cbn [Math_ceil cond_Zopp].
    destruct (Z.leb_spec 0 (- A)); [lia|].
    rewrite Z2Pos.id by lia. rewrite Z.opp_involutive, <- EW.
    rewrite HC. unfold of_Z. destruct ((n + 2) / 3); reflexivity.
  - assert (E : m1 = 9007199254740992) by lia.
    cbn [Math_ceil cond_Zopp].
    destruct (Z.leb_spec 0 (- A + 1)); [lia|].
    replace (- (- A + 1)) with (A - 1) by lia.
    assert (E2 : - Z.pos (Z.to_pos (2 ^ 52)) / 2 ^ (A - 1) = - m1 / W).
    { rewrite E, EW.
      assert (Hpa : 0 < 2 ^ (A - 1)) by (apply Z.pow_pos_nonneg; lia).
      transitivity (2 * - 4503599627370496 / (2 * 2 ^ (A - 1))).
      - rewrite Z.div_mul_cancel_l by lia. reflexivity.
      - f_equal. rewrite <- Z.pow_succ_r by lia. f_equal. lia. }
    rewrite E2, HC. unfold of_Z. destruct ((n + 2) / 3); reflexivity.
Qed.

Lemma of_Z_shape (a : Z) :
  0 <= a < 2 ^ 53 ->
  (a = 0 /\ of_Z a = S754_zero false)
  \/ (0 < a
      /\ of_Z a
         = S754_finite false (Z.to_pos (a * 2 ^ (53 - Zdigits2 a)))
                       (Zdigits2 a - 53)).
Proof.
  intros Ha. destruct (Z.eq_dec a 0) as [->|Hnz].
  - left. split; reflexivity.
  - right. split; [lia|].
    rewrite of_Z_dyadic by lia. apply dyadic_integer. lia.
Qed.

(** Integers compare as their numbers do. *)
Lemma SFltb_integers (a b : Z) :
  0 <= a < 2 ^ 53 -> 0 <= b < 2 ^ 53 ->
  SFltb (of_Z a) (of_Z b) = (a <? b).
Proof.
  intros Ha Hb.
  destruct (of_Z_shape a Ha) as [[-> ->] | [Ha0 ->]];
    destruct (of_Z_shape b Hb) as [[-> ->] | [Hb0 ->]].
  - reflexivity.
  - cbn. symmetry. apply Z.ltb_lt. lia.
  - cbn. symmetry. apply Z.ltb_ge. lia.
  - pose proof (Zdigits2_bounds a Ha0) as [La Ua].
    pose proof (Zdigits2_bounds b Hb0) as [Lb Ub].
    pose proof (Zdigits2_le a 53 ltac:(lia) Ha) as Da.
    pose proof (Zdigits2_le b 53 ltac:(lia) Hb) as Db.
    pose proof (Zdigits2_pos a Ha0) as Pa.
    pose proof (Zdigits2_pos b Hb0) as Pb.
    set (da := Zdigits2 a) in *. set (db := Zdigits2 b) in *.
    unfold SFltb, SFcompare.
    destruct (Z.compare_spec (da - 53) (db - 53)) as [E|L|G].
    + assert (Ed : da = db) by lia. rewrite <- Ed.
      assert (Hp : 0 < 2 ^ (53 - da)) by (apply Z.pow_pos_nonneg; lia).
      change (Pos.compare_cont Eq ?x ?y) with (Pos.compare x y).
      rewrite Pos2Z.inj_compare, !Z2Pos.id by nia.
      destruct (Z.compare_spec (a * 2 ^ (53 - da)) (b * 2 ^ (53 - da)))
        as [E1|L1|G1]; symmetry.
      * apply Z.ltb_ge. nia.
      * apply Z.ltb_lt. nia.
      * apply Z.ltb_ge. nia.
    + symmetry. apply Z.ltb_lt.
      assert (2 ^ da <= 2 ^ (db - 1)) by (apply Z.pow_le_mono_r; lia). lia.
    + symmetry. apply Z.ltb_ge.
      assert (2 ^ db <= 2 ^ (da - 1)) by (apply Z.pow_le_mono_r; lia). lia.
Qed.

Lemma Math_min_integers (a b : Z) :
  0 <= a < 2 ^ 53 -> 0 <= b < 2 ^ 53 ->
  Math_min (of_Z a) (of_Z b) = of_Z (Z.min a b).
Proof.
  intros Ha Hb. pose proof (SFltb_integers b a Hb Ha) as H.
  destruct (Z.ltb_spec b a) as [L|L].
  - rewrite Z.min_r by lia.
    destruct (of_Z_shape a Ha) as [[Ea Sa] | [Ha0 Sa]];
      destruct (of_Z_shape b Hb) as [[Eb Sb] | [Hb0 Sb]];
      try lia; rewrite Sa, Sb in *; cbn [Math_min]; rewrite H; reflexivity.
  - rewrite Z.min_l by lia.
    destruct (of_Z_shape a Ha) as [[Ea Sa] | [Ha0 Sa]];
      destruct (of_Z_shape b Hb) as [[Eb Sb] | [Hb0 Sb]];
      try lia; rewrite Sa, Sb in *; cbn [Math_min]; rewrite ?H; reflexivity.
Qed.

Lemma Math_max_integers (a b : Z) :
  0 <= a < 2 ^ 53 -> 0 <= b < 2 ^ 53 ->
  Math_max (of_Z a) (of_Z b) = of_Z (Z.max a b).
Proof.
  intros Ha Hb. pose proof (SFltb_integers a b Ha Hb) as H.
  destruct (Z.ltb_spec a b) as [L|L].
  - rewrite Z.max_r by lia.
    destruct (of_Z_shape a Ha) as [[Ea Sa] | [Ha0 Sa]];
      destruct (of_Z_shape b Hb) as [[Eb Sb] | [Hb0 Sb]];
      try lia; rewrite Sa, Sb in *; cbn [Math_max]; rewrite H; reflexivity.
  - rewrite Z.max_l by lia.
    destruct (of_Z_shape a Ha) as [[Ea Sa] | [Ha0 Sa]];
      destruct (of_Z_shape b Hb) as [[Eb Sb] | [Hb0 Sb]];
      try lia; rewrite Sa, Sb in *; cbn [Math_max]; rewrite ?H; reflexivity.
Qed.

Lemma js_add_one (p : Z) :
  0 <= p -> p + 1 < 2 ^ 53 -> js_add (of_Z p) (of_Z 1) = of_Z (p + 1).
Proof.
  intros Hp Hlt.
  rewrite (of_Z_dyadic p), (of_Z_dyadic 1), (of_Z_dyadic (p + 1))
    by (change (2 ^ 53) with 9007199254740992 in *; lia).
  apply js_add_integers; lia.
Qed.

Lemma js_sub_one (p : Z) :
  1 <= p < 2 ^ 53 -> js_sub (of_Z p) (of_Z 1) = of_Z (p - 1).
Proof.
  intros Hp.
  rewrite (of_Z_dyadic p), (of_Z_dyadic 1), (of_Z_dyadic (p - 1))
    by (change (2 ^ 53) with 9007199254740992 in *; lia).
  apply js_sub_integers; lia.
Qed.

(** Adding [-1] is subtracting [1]. *)
Lemma js_add_minus_one (p : Z) :
  1 <= p < 2 ^ 53 -> js_add (of_Z p) (of_Z (-1)) = of_Z (p - 1).
Proof.
  intros Hp. rewrite <- js_sub_one by lia.
  destruct (of_Z_shape p ltac:(lia)) as [[E _] | [_ ->]]; [lia|].
  reflexivity.
Qed.

Lemma array_length_integer (K : Z) :
  0 <= K < 2 ^ 32 -> array_length (of_Z K) = Some (Z.to_nat K).
Proof.
  intros HK.
  assert (HK53 : 0 <= K < 2 ^ 53).
  { change (2 ^ 32) with 4294967296 in HK.
    change (2 ^ 53) with 9007199254740992. lia. }
  destruct (of_Z_shape K HK53) as [[-> ->] | [HK0 ->]]; [reflexivity|].
  pose proof (Zdigits2_le K 53 ltac:(lia) ltac:(lia)) as Hd.
  set (d := Zdigits2 K) in *.
  assert (Hp : 0 < 2 ^ (53 - d)) by (apply Z.pow_pos_nonneg; lia).
  cbn [array_length]. unfold integer_value. rewrite Z2Pos.id by nia.
  assert (Hv : (if 0 <=? d - 53
                then Some (cond_Zopp false (K * 2 ^ (53 - d) * 2 ^ (d - 53)))
                else if K * 2 ^ (53 - d) mod 2 ^ (- (d - 53)) =? 0
                     then Some (cond_Zopp false
                                  (K * 2 ^ (53 - d) / 2 ^ (- (d - 53))))
                     else None) = Some K).
  { destruct (Z.leb_spec 0 (d - 53)).
    - replace d with 53 by lia. cbn. f_equal; lia.
    - replace (- (d - 53)) with (53 - d) by lia.
      rewrite Z.mod_mul, Z.div_mul by lia. reflexivity. }
  rewrite Hv.
  destruct (Z.ltb_spec K (2 ^ 32)) as [C|C]; [reflexivity|lia].
Qed.


Lemma indicator_count_pages (n : nat) :
  Z.of_nat n < 2 ^ 32 ->
  indicator_count n = Some (Z.to_nat ((Z.of_nat n + 2) / 3)).
Proof.
  intros Hn. change (2 ^ 32) with 4294967296 in Hn.
  assert (H50 : 2 ^ 50 = 1125899906842624) by reflexivity.
  assert (H32 : 2 ^ 32 = 4294967296) by reflexivity.
  assert (HQ : 0 <= (Z.of_nat n + 2) / 3 <= Z.of_nat n).
  { split; [apply Z.div_pos; lia|].
    destruct (Z.eq_dec (Z.of_nat n) 0) as [->|]; [reflexivity|].
    apply Z.div_le_upper_bound; lia. }
  unfold indicator_count. rewrite ceil_third by lia.
  apply array_length_integer. lia.
Qed.

(** ** The page and its scripts *)

Lemma change_first_element (p : Node -> bool) (g : Node -> Change Node)
  (tag id : string) (classes : list string) (st : list (string * string))
  (children : list Node) :
  change_first p g (Element tag id classes st children)
  = if p (Element tag id classes st children)
    then Some (g (Element tag id classes st children))
    else option_map (map_change (Element tag id classes st))
                    (change_among p g children).
Proof.
  cbn [change_first].
  destruct (p (Element tag id classes st children)); [reflexivity|].
  f_equal. induction children as [|x l IH]; [reflexivity|].
  cbn [change_among]. rewrite <- IH. reflexivity.
Qed.

Lemma change_first_text (s : Step) (g : Node -> Change Node) (t : string) :
  change_first (matches s) g (TextNode t) = None.
Proof. destruct s; reflexivity. Qed.

Lemma change_among_text (s : Step) (g : Node -> Change Node) (t : string) :
  change_among (matches s) g (text t) = None.
Proof.
  destruct t as [|a t]; [reflexivity|].
  cbn [text change_among]. rewrite change_first_text. reflexivity.
Qed.

#[local] Arguments change_first : simpl never.
#[local] Arguments text : simpl never.

Ltac walk :=
  repeat first
    [ rewrite change_first_element
    | rewrite change_first_text
    | rewrite change_among_text
    | progress cbn ].

Lemma core_card_outside (s : Step) (g : Node -> Change Node)
  (c : CoreMetric) (n : Node) :
  outside_cards s -> core_card c = Some n ->
  change_first (matches s) g n = None.
Proof.
  intros Hs Hc. unfold core_card in Hc.
  destruct (plain_core c); [|discriminate Hc].
  destruct (usage_figure (idle (times c)) 2) as [u|]; [|discriminate Hc].
  injection Hc as <-.
  destruct Hs as [-> | [-> | ->]]; unfold card_of, el; walk; reflexivity.
Qed.

Lemma core_cards_outside (s : Step) (g : Node -> Change Node)
  (cores : list CoreMetric) (cards : list Node) :
  outside_cards s -> core_cards cores = Some cards ->
  change_among (matches s) g cards = None.
Proof.
  intros Hs. revert cards. induction cores as [|c cores IH]; intros cards H.
  - injection H as <-. reflexivity.
  - cbn [core_cards] in H.
    destruct (core_card c) as [n|] eqn:En; [|discriminate H].
    destruct (core_cards cores) as [ns|]; [|discriminate H].
    injection H as <-. cbn [change_among].
    rewrite (core_card_outside s g c n Hs En), (IH ns eq_refl). reflexivity.
Qed.

Lemma dots_outside (s : Step) (g : Node -> Change Node) (a k : nat) :
  outside_cards s ->
  change_among (matches s) g (map indicator_dot (seq a k)) = None.
Proof.
  intros Hs. revert a. induction k as [|k IH]; intros a; [reflexivity|].
  cbn [seq map change_among]. rewrite IH.
  unfold indicator_dot, el.
  destruct Hs as [-> | [-> | ->]]; destruct (Nat.eqb a 0); walk; reflexivity.
Qed.

Ltac outside := unfold outside_cards; auto.

Lemma cpu_section_outside (s : Step) (g : Node -> Change Node)
  (cores : list CoreMetric) (cards : list Node) (dots : nat) :
  outside_cards s -> core_cards cores = Some cards ->
  change_first (matches s) g (cpu_section cards dots) = None.
Proof.
  intros Hs Hc. unfold cpu_section, el.
  pose proof (core_cards_outside s g cores cards Hs Hc) as E1.
  pose proof (dots_outside s g 0 dots Hs) as E2.
  destruct Hs as [-> | [-> | ->]];
    repeat first
      [ rewrite change_first_element
      | rewrite change_first_text
      | rewrite E1
      | rewrite E2
      | progress cbn ];
    reflexivity.
Qed.

Lemma memory_section_used (s : Snapshot) (mu mf t : string) :
  change_first (matches (ById "memory-used")) (into [] (textContent t))
               (memory_section s mu mf)
  = Some (Changed (memory_section s t mf)).
Proof. unfold memory_section, el. walk. reflexivity. Qed.

Lemma memory_section_free (s : Snapshot) (mu mf t : string) :
  change_first (matches (ById "memory-free")) (into [] (textContent t))
               (memory_section s mu mf)
  = Some (Changed (memory_section s mu t)).
Proof. unfold memory_section, el. walk. reflexivity. Qed.

Lemma memory_section_fill (g : Node -> Change Node) (s : Snapshot)
  (mu mf : string) :
  change_first (matches (ByClass "memory-fill")) g (memory_section s mu mf)
  = None.
Proof. unfold memory_section, el. walk. reflexivity. Qed.

Lemma disk_section_fill (g : Node -> Change Node) (s : Snapshot) :
  change_first (matches (ByClass "memory-fill")) g (disk_section s) = None.
Proof. unfold disk_section, el. walk. reflexivity. Qed.

Lemma network_section_fill (g : Node -> Change Node) (s : Snapshot) :
  change_first (matches (ByClass "memory-fill")) g (network_section s) = None.
Proof. unfold network_section, el. walk. reflexivity. Qed.

Lemma system_section_fill (g : Node -> Change Node) (s : Snapshot) :
  change_first (matches (ByClass "memory-fill")) g (system_section s) = None.
Proof. unfold system_section, el. walk. reflexivity. Qed.

#[local] Arguments into : simpl never.
#[local] Arguments cpu_section : simpl never.
#[local] Arguments memory_section : simpl never.
#[local] Arguments disk_section : simpl never.
#[local] Arguments network_section : simpl never.
#[local] Arguments system_section : simpl never.

Lemma memory_used_is_set (s : Snapshot) (cores : list CoreMetric)
  (cards : list Node) (dots : nat) (mu mf t : string) :
  core_cards cores = Some cards ->
  on (ById "memory-used") [] (textContent t) (page s cards dots mu mf)
  = Done (page s cards dots t mf).
Proof.
  intros Hc. unfold on, page, el.
  repeat first
    [ rewrite change_first_element
    | rewrite change_first_text
    | rewrite (cpu_section_outside _ _ cores cards) by (outside || assumption)
    | rewrite memory_section_used
    | progress cbn ].
  reflexivity.
Qed.

Lemma memory_free_is_set (s : Snapshot) (cores : list CoreMetric)
  (cards : list Node) (dots : nat) (mu mf t : string) :
  core_cards cores = Some cards ->
  on (ById "memory-free") [] (textContent t) (page s cards dots mu mf)
  = Done (page s cards dots mu t).
Proof.
  intros Hc. unfold on, page, el.
  repeat first
    [ rewrite change_first_element
    | rewrite change_first_text
    | rewrite (cpu_section_outside _ _ cores cards) by (outside || assumption)
    | rewrite memory_section_free
    | progress cbn ].
  reflexivity.
Qed.

Lemma memory_fill_is_missing (f : Node -> Change Node) (s : Snapshot)
  (cores : list CoreMetric) (cards : list Node) (dots : nat)
  (mu mf : string) :
  core_cards cores = Some cards ->
  on (ByClass "memory-fill") [] f (page s cards dots mu mf)
  = Thrown (page s cards dots mu mf).
Proof.
  intros Hc. unfold on, page, el.
  repeat first
    [ rewrite change_first_element
    | rewrite change_first_text
    | rewrite (cpu_section_outside _ _ cores cards) by (outside || assumption)
    | rewrite memory_section_fill
    | rewrite disk_section_fill
    | rewrite network_section_fill
    | rewrite system_section_fill
    | progress cbn ].
  reflexivity.
Qed.

Lemma updateUI_on_page (s specs : Snapshot) (cores : list CoreMetric)
  (cards : list Node) (dots : nat) (mu mf : string) :
  core_cards cores = Some cards ->
  updateUI specs (page s cards dots mu mf)
  = Thrown (page s cards dots (used (memory specs)) (free (memory specs))).
Proof.
  intros Hc. unfold updateUI, and_then.
  rewrite (memory_used_is_set s cores cards dots mu mf _ Hc).
  rewrite (memory_free_is_set s cores cards dots _ mf _ Hc).
  rewrite (memory_fill_is_missing _ s cores cards dots _ _ Hc).
  reflexivity.
Qed.

(** The pages [render] builds are those of snapshots whose spliced texts
    are all plain. *)
Lemma render_only_plain (initialSpecs : Snapshot) (doc : list Node) :
  render initialSpecs = Some doc ->
  plain_page initialSpecs = true
  /\ Forall (fun c => plain_core c = true) (cpu initialSpecs).
Proof.
  unfold render. intros H.
  destruct (plain_page initialSpecs); [|discriminate H].
  split; [reflexivity|].
  destruct (core_cards (cpu initialSpecs)) as [cards|] eqn:Ec;
    [|discriminate H].
  clear H. revert cards Ec.
  induction (cpu initialSpecs) as [|c l IH]; intros cards Ec; constructor.
  - cbn [core_cards] in Ec. unfold core_card in Ec.
    destruct (plain_core c); [reflexivity|discriminate Ec].
  - cbn [core_cards] in Ec.
    destruct (core_card c); [|discriminate Ec].
    destruct (core_cards l) as [rest|]; [|discriminate Ec].
    apply (IH rest). reflexivity.
Qed.

(** X13. On the page the server renders for a snapshot whose texts are
    plain (the template splices them in unescaped, and [render] covers no
    other snapshot), [updateUI] never gets past the
    memory bar.  The page has no element of class [memory-fill] (the bars
    are of class [usage-fill]), so the third statement of [updateUI] throws
    on [null]: the two memory texts have been replaced, and nothing else is.
    However many snapshots are received, the document is the page as it
    was rendered, with the used and free memory texts of the latest one:
    the CPU cards, the disk figures and the uptime remain those of the
    first rendering. *)
Theorem page_only_follows_memory (initialSpecs : Snapshot)
  (doc : list Node) (received : list Snapshot) (latest : Snapshot) :
  render initialSpecs = Some doc ->
  exists (cards : list Node) (dots : nat),
    doc = page initialSpecs cards dots
               (used (memory initialSpecs)) (free (memory initialSpecs))
    /\ updateUI latest doc
       = Thrown (page initialSpecs cards dots
                      (used (memory latest)) (free (memory latest)))
    /\ fold_left onmessage (received ++ [latest])%list (Some doc)
       = Some (page initialSpecs cards dots
                    (used (memory latest)) (free (memory latest))).
Proof.
  unfold render. intros H.
  destruct (plain_page initialSpecs); [|discriminate H].
  destruct (core_cards (cpu initialSpecs)) as [cards|] eqn:Ec;
    [|discriminate H].
  destruct (indicator_count (List.length (cpu initialSpecs))) as [dots|];
    [|discriminate H].
  injection H as <-. exists cards, dots.
  split; [reflexivity|]. split.
  - apply (updateUI_on_page _ _ _ _ _ _ _ Ec).
  - rewrite fold_left_app. cbn [fold_left].
    assert (Hrun : forall l mu mf,
               exists mu' mf',
                 fold_left onmessage l
                           (Some (page initialSpecs cards dots mu mf))
                 = Some (page initialSpecs cards dots mu' mf')).
    { induction l as [|x l IH]; intros mu mf.
      - exists mu, mf. reflexivity.
      - cbn [fold_left onmessage].
        rewrite (updateUI_on_page _ _ _ _ _ _ _ Ec). apply IH. }
    destruct (Hrun received (used (memory initialSpecs))
                   (free (memory initialSpecs))) as (mu' & mf' & ->).
    cbn [onmessage]. rewrite (updateUI_on_page _ _ _ _ _ _ _ Ec).
    reflexivity.
Qed.

(** ** Cards and dots of the page *)

Lemma count_element (p : Node -> bool) (tag id : string)
  (classes : list string) (st : list (string * string))
  (children : list Node) :
  count p (Element tag id classes st children)
  = ((if p (Element tag id classes st children) then 1 else 0)
     + count_among p children)%nat.
Proof.
  cbn [count]. f_equal.
  induction children as [|x l IH]; [reflexivity|].
  cbn [count_among]. rewrite <- IH. reflexivity.
Qed.

Lemma count_text (s : Step) (t : string) :
  count_among (matches s) (text t) = 0%nat.
Proof. destruct t; destruct s; reflexivity. Qed.

Lemma count_text_node (s : Step) (t : string) :
  count (matches s) (TextNode t) = 0%nat.
Proof. destruct s; reflexivity. Qed.

#[local] Arguments count : simpl never.

Ltac tally :=
  repeat first
    [ rewrite count_element
    | rewrite count_text
    | rewrite count_text_node
    | progress cbn ].

Lemma core_card_count (c : CoreMetric) (n : Node) :
  core_card c = Some n ->
  count (matches (ByClass "cpu-core-card")) n = 1%nat
  /\ count (matches (ByClass "indicator-dot")) n = 0%nat.
Proof.
  intros Hc. unfold core_card in Hc.
  destruct (plain_core c); [|discriminate Hc].
  destruct (usage_figure (idle (times c)) 2) as [u|]; [|discriminate Hc].
  injection Hc as <-. unfold card_of, el. split; tally; reflexivity.
Qed.

Lemma core_cards_count (cores : list CoreMetric) (cards : list Node) :
  core_cards cores = Some cards ->
  count_among (matches (ByClass "cpu-core-card")) cards = List.length cores
  /\ count_among (matches (ByClass "indicator-dot")) cards = 0%nat.
Proof.
  revert cards. induction cores as [|c cores IH]; intros cards H.
  - injection H as <-. split; reflexivity.
  - cbn [core_cards] in H.
    destruct (core_card c) as [n|] eqn:En; [|discriminate H].
    destruct (core_cards cores) as [ns|]; [|discriminate H].
    injection H as <-. cbn [count_among List.length].
    destruct (core_card_count c n En) as [-> ->].
    destruct (IH ns eq_refl) as [-> ->]. split; reflexivity.
Qed.

Lemma dots_count (a k : nat) :
  count_among (matches (ByClass "cpu-core-card"))
              (map indicator_dot (seq a k)) = 0%nat
  /\ count_among (matches (ByClass "indicator-dot"))
                 (map indicator_dot (seq a k)) = k.
Proof.
  revert a. induction k as [|k IH]; intros a; [split; reflexivity|].
  cbn [seq map count_among]. destruct (IH (S a)) as [-> ->].
  unfold indicator_dot, el.
  destruct (Nat.eqb a 0); split; tally; reflexivity.
Qed.

Lemma page_counts (s : Snapshot) (cores : list CoreMetric)
  (cards : list Node) (dots : nat) (mu mf : string) :
  core_cards cores = Some cards ->
  count_among (matches (ByClass "cpu-core-card")) (page s cards dots mu mf)
  = List.length cores
  /\ count_among (matches (ByClass "indicator-dot"))
                 (page s cards dots mu mf) = dots.
Proof.
  intros Hc.
  destruct (core_cards_count cores cards Hc) as [C1 C2].
  destruct (dots_count 0 dots) as [D1 D2].
  unfold page, cpu_section, memory_section, disk_section, network_section,
    system_section, el.
  split.
  - repeat first
      [ rewrite count_element | rewrite count_text | rewrite count_text_node
      | rewrite C1 | rewrite D1
      | progress cbn ].
    lia.
  - repeat first
      [ rewrite count_element | rewrite count_text | rewrite count_text_node
      | rewrite C2 | rewrite D2
      | progress cbn ].
    lia.
Qed.

(** ** What the cards show *)

Lemma first_in_element (p : Node -> bool) (tag id : string)
  (classes : list string) (st : list (string * string))
  (children : list Node) :
  first_in p (Element tag id classes st children)
  = if p (Element tag id classes st children)
    then Some (Element tag id classes st children)
    else first_among p children.
Proof.
  cbn [first_in].
  destruct (p (Element tag id classes st children)); [reflexivity|].
  induction children as [|x l IH]; [reflexivity|].
  cbn [first_among]. rewrite <- IH. reflexivity.
Qed.

Lemma first_in_text (s : Step) (t : string) :
  first_in (matches s) (TextNode t) = None.
Proof. destruct s; reflexivity. Qed.

Lemma first_among_text (s : Step) (t : string) :
  first_among (matches s) (text t) = None.
Proof. destruct t; destruct s; reflexivity. Qed.

Lemma text_of_element (tag id : string) (classes : list string)
  (st : list (string * string)) (children : list Node) :
  text_of (Element tag id classes st children) = text_among children.
Proof.
  cbn [text_of]. induction children as [|x l IH]; [reflexivity|].
  cbn [text_among]. rewrite <- IH. reflexivity.
Qed.

Lemma append_empty (t : string) : t ++ "" = t.
Proof. induction t as [|c t IH]; [reflexivity|]. cbn. rewrite IH. reflexivity. Qed.

Lemma text_among_text (t : string) : text_among (text t) = t.
Proof.
  destruct t as [|c t]; [reflexivity|].
  cbn [text text_among text_of]. apply append_empty.
Qed.

#[local] Arguments first_in : simpl never.
#[local] Arguments text_of : simpl never.

Ltac look :=
  repeat first
    [ rewrite first_in_element
    | rewrite first_in_text
    | rewrite first_among_text
    | rewrite text_of_element
    | rewrite text_among_text
    | progress cbn ].

Lemma card_of_shows (c : CoreMetric) (u : string) :
  node_id (card_of c u) = "cpu-core-" ++ integer_text (core c)
  /\ shown "metric-value" (card_of c u) = Some ("Usage: " ++ u ++ "%")
  /\ shown "user-percent" (card_of c u) = Some (user (times c))
  /\ shown "system-percent" (card_of c u) = Some (system (times c))
  /\ shown "idle-percent" (card_of c u) = Some (idle (times c)).
Proof.
  unfold shown, card_of, el.
  repeat apply conj; look; rewrite ?append_empty; reflexivity.
Qed.

Lemma core_card_shows (c : CoreMetric) (card : Node) :
  core_card c = Some card -> shows_core c card.
Proof.
  unfold core_card. intros H.
  destruct (plain_core c); [|discriminate H].
  destruct (usage_figure (idle (times c)) 2) as [u|] eqn:Eu;
    [|discriminate H].
  injection H as <-.
  destruct (card_of_shows c u) as (H1 & H2 & H3 & H4 & H5).
  unfold shows_core. repeat split; try assumption.
  exists u. split; [exact Eu|exact H2].
Qed.

Lemma core_cards_show (cores : list CoreMetric) (cards : list Node) :
  core_cards cores = Some cards -> Forall2 shows_core cores cards.
Proof.
  revert cards. induction cores as [|c cores IH]; intros cards H.
  - injection H as <-. constructor.
  - cbn [core_cards] in H.
    destruct (core_card c) as [n|] eqn:En; [|discriminate H].
    destruct (core_cards cores) as [ns|]; [|discriminate H].
    injection H as <-. constructor.
    + apply core_card_shows, En.
    + apply IH. reflexivity.
Qed.

(** The card [core_card] builds for a core with integer counters. *)
Lemma core_card_integer (index : nat) (cpu : Cpu)
  (counters : list (string * Z)) (mhz u s i : Z) :
  cpu_times cpu = as_times counters -> well_counted counters ->
  cpu_speed cpu = of_Z mhz -> 0 <= mhz < 2 ^ 53 ->
  In ("user", u) counters -> In ("sys", s) counters ->
  In ("idle", i) counters ->
  exists (m : CoreMetric) (ti fig : string),
    core_metric index cpu = Some m
    /\ percentage (of_Z i) (of_Z (total_of counters)) 1 = Some ti
    /\ idle (times m) = ti ++ "%"
    /\ usage_figure (ti ++ "%") 2 = Some fig
    /\ core_card m = Some (card_of m fig).
Proof.
  intros Ht Hw Hs Hm Iu Is Ii.
  destruct (core_metric_integer index cpu counters mhz u s i
              Ht Hw Hs Hm Iu Is Ii) as (tu & ts & ti & Eu & Es & Ei & Ec).
  destruct Hw as (Hnd & Hall & Hlt).
  pose proof (counter_le_total counters "user" u Hall Iu) as Hu.
  pose proof (counter_le_total counters "sys" s Hall Is) as Hs'.
  pose proof (counter_le_total counters "idle" i Hall Ii) as Hi.
  pose proof (percentage_plain _ _ _ Hu Hlt Eu) as Pu.
  pose proof (percentage_plain _ _ _ Hs' Hlt Es) as Ps.
  pose proof (percentage_plain _ _ _ Hi Hlt Ei) as Pi.
  assert (Hfig : exists fig, usage_figure (ti ++ "%") 2 = Some fig).
  { destruct (Z.eq_dec (total_of counters) 0) as [E0|E0].
    - rewrite E0 in *. assert (i = 0) by lia. subst i.
      assert (ti = "NaN") by (vm_compute in Ei; congruence). subst ti.
      exists "NaN". reflexivity.
    - destruct (percentage_tenth i (total_of counters) Hi ltac:(lia))
        as (n & En & Hn0 & _ & [Bl _]).
      pose proof (tenth_in_range _ _ _ Hi ltac:(lia) Bl) as Hn.
      assert (Eti : ti = fixed_text n 1) by congruence. subst ti.
      destruct (usage_figure_tenths n ltac:(lia)) as [_ E2].
      eexists. exact E2. }
  destruct Hfig as (fig & Efig).
  eexists. exists ti, fig. split; [exact Ec|].
  split; [exact Ei|]. split; [reflexivity|]. split; [exact Efig|].
  unfold core_card, plain_core. cbn [speed times user system idle].
  rewrite Pu, Ps, Pi, plain_app, plain_digits_of, Efig. reflexivity.
Qed.

(** X11. The usage figure of a core is the complement of the idle figure it
    is shown with, to the last displayed digit.  On a core with integer
    counters and a positive total the idle text is [n / 10] percent with
    [0 <= n <= 1000]; the card the server renders for the core shows that
    idle text, and as its usage the text ["Usage: "] followed by
    [(1000 - n) / 10] written with two decimals and a percent sign; the
    figure [updateUI] computes from the same idle text is that number
    written with one decimal.  Neither the reading of the text by
    [parseFloat] nor the subtraction from 100 shows a rounding error.  The
    card of any core whose idle text is ["NaN%"] shows ["Usage: NaN%"]. *)
Theorem usage_complements_idle :
  (forall (index : nat) (cpu : Cpu) (counters : list (string * Z))
          (mhz u s i : Z),
      cpu_times cpu = as_times counters -> well_counted counters ->
      0 < total_of counters ->
      cpu_speed cpu = of_Z mhz -> 0 <= mhz < 2 ^ 53 ->
      In ("user", u) counters -> In ("sys", s) counters ->
      In ("idle", i) counters ->
      exists (m : CoreMetric) (n : Z) (card : Node),
        core_metric index cpu = Some m
        /\ idle (times m) = fixed_text n 1 ++ "%"
        /\ 0 <= n <= 1000
        /\ core_card m = Some card
        /\ shown "idle-percent" card = Some (fixed_text n 1 ++ "%")
        /\ shown "metric-value" card
           = Some ("Usage: " ++ fixed_text (10 * (1000 - n)) 2 ++ "%")
        /\ usage_figure (idle (times m)) 1
           = Some (fixed_text (1000 - n) 1))
  /\ (forall (m : CoreMetric) (card : Node),
         core_card m = Some card -> idle (times m) = "NaN%" ->
         shown "metric-value" card = Some "Usage: NaN%").
Proof.
  split.
  - intros index cpu counters mhz u s i Ht Hw HT Hspeed Hmhz Inu Ins Ini.
    destruct (core_card_integer index cpu counters mhz u s i
                Ht Hw Hspeed Hmhz Inu Ins Ini)
      as (m & ti & fig & Em & Ei & Eidle & Efig & Ecard).
    destruct Hw as (Hnd & Hall & Hlt).
    pose proof (counter_le_total counters "idle" i Hall Ini) as Hi.
    destruct (percentage_tenth i (total_of counters) Hi ltac:(lia))
      as (n & En & Hn0 & _ & [Bl _]).
    pose proof (tenth_in_range _ _ _ Hi HT Bl) as Hn.
    assert (Eti : ti = fixed_text n 1) by congruence. subst ti.
    destruct (usage_figure_tenths n ltac:(lia)) as [E1 E2].
    assert (fig = fixed_text (10 * (1000 - n)) 2) by congruence. subst fig.
    destruct (card_of_shows m (fixed_text (10 * (1000 - n)) 2))
      as (_ & S2 & _ & _ & S5).
    exists m, n, (card_of m (fixed_text (10 * (1000 - n)) 2)).
    rewrite Eidle in *.
    repeat split; try assumption; lia.
  - intros m card Hcard Hidle.
    destruct (core_card_shows m card Hcard)
      as (_ & (fig & Efig & Hshown) & _).
    rewrite Hidle in Efig.
    assert (fig = "NaN") by (vm_compute in Efig; congruence). subst fig.
    exact Hshown.
Qed.

Lemma usage_complements_idle_witness :
  exists (m : CoreMetric) (n : Z) (card : Node),
    core_metric 0 sample_cpu = Some m
    /\ idle (times m) = fixed_text n 1 ++ "%"
    /\ 0 <= n <= 1000
    /\ core_card m = Some card
    /\ shown "idle-percent" card = Some (fixed_text n 1 ++ "%")
    /\ shown "metric-value" card
       = Some ("Usage: " ++ fixed_text (10 * (1000 - n)) 2 ++ "%")
    /\ usage_figure (idle (times m)) 1 = Some (fixed_text (1000 - n) 1).
Proof.
  apply (proj1 usage_complements_idle 0%nat sample_cpu
           [("user", 200); ("sys", 100); ("idle", 700)] 2400 200 100 700).
  - reflexivity.
  - split; [|split].
    + cbn. repeat constructor; cbn; intuition discriminate.
    + repeat constructor; cbn; lia.
    + reflexivity.
  - reflexivity.
  - reflexivity.
  - split; [lia | reflexivity].
  - cbn; auto.
  - cbn; auto.
  - cbn; auto.
Defined.

(** ** The carousel *)

(** One step of the arrows, on pages numbered from 0. *)
Lemma moveCarousel_integers (doc : list Node) (p : Z) :
  let n := Z.of_nat (count_among (matches (ByClass "cpu-core-card")) doc) in
  n < 2 ^ 50 ->
  let last := Z.max 0 ((n + 2) / 3 - 1) in
  0 <= p <= last ->
  moveCarousel doc (of_Z p) (of_Z 1) = of_Z (Z.min last (p + 1))
  /\ moveCarousel doc (of_Z p) (of_Z (-1)) = of_Z (Z.max 0 (p - 1)).
Proof.
  intros n Hn last Hp.
  unfold moveCarousel, itemsPerPage. fold n.
  assert (Hn0 : 0 <= n) by (unfold n; lia).
  clearbody n.
  rewrite ceil_third by lia.
  assert (HQ : 0 <= (n + 2) / 3 <= n).
  { split; [apply Z.div_pos; lia|].
    destruct (Z.eq_dec n 0) as [->|]; [reflexivity|].
    apply Z.div_le_upper_bound; lia. }
  subst last.
  remember ((n + 2) / 3) as Q eqn:EQ. clear EQ.
  change (2 ^ 50) with 1125899906842624 in Hn.
  assert (H53 : 2 ^ 53 = 9007199254740992) by reflexivity.
  destruct (Z.eq_dec Q 0) as [->|HQ0].
  - assert (p = 0) by lia. subst p. split; reflexivity.
  - rewrite js_sub_one by lia.
    rewrite js_add_one by lia.
    rewrite Math_min_integers, Math_max_integers by lia.
    split; [f_equal; lia|].
    destruct (Z.eq_dec p 0) as [->|Hp0].
    + change (js_add (of_Z 0) (of_Z (-1))) with (of_Z (-1)).
      destruct (of_Z_shape (Q - 1) ltac:(lia)) as [[_ ->] | [_ ->]];
        reflexivity.
    + rewrite js_add_minus_one by lia.
      rewrite Math_min_integers, Math_max_integers by lia.
      f_equal. lia.
Qed.

(** X14. The carousel never leaves the cards.  The page of a snapshot with
    [n] cores and plain texts (the only pages [render] builds) holds [n]
    cards and one dot per page of three cards, the last page holding what
    is left.  Whatever arrows and dots of the page are
    clicked, in whatever order, [currentPage] remains the index of one of
    these pages: an integer [p] with [3 * p < n], so that the page shown
    holds at least one card.  On a page without any card it remains 0. *)
Theorem carousel_stays_on_cards (initialSpecs : Snapshot) (doc : list Node)
  (cs : list Click) :
  render initialSpecs = Some doc ->
  let n := Z.of_nat (List.length (cpu initialSpecs)) in
  n < 2 ^ 32 ->
  Z.of_nat (count_among (matches (ByClass "cpu-core-card")) doc) = n
  /\ Z.of_nat (count_among (matches (ByClass "indicator-dot")) doc)
     = (n + 2) / 3
  /\ (Forall (on_page doc) cs ->
      exists p : Z,
        fold_left (click doc) cs (of_Z 0) = of_Z p
        /\ 0 <= p
        /\ (0 < n -> 3 * p < n)
        /\ (n = 0 -> p = 0)).
Proof.
  intros Hr n Hn. unfold render in Hr.
  destruct (plain_page initialSpecs); [|discriminate Hr].
  destruct (core_cards (cpu initialSpecs)) as [cards|] eqn:Ec;
    [|discriminate Hr].
  rewrite indicator_count_pages in Hr by exact Hn.
  injection Hr as <-.
  destruct (page_counts initialSpecs (cpu initialSpecs) cards
              (Z.to_nat ((n + 2) / 3))
              (used (memory initialSpecs)) (free (memory initialSpecs)) Ec)
    as [C D].
  fold n.
  set (doc := page initialSpecs cards (Z.to_nat ((n + 2) / 3))
                   (used (memory initialSpecs))
                   (free (memory initialSpecs))) in *.
  change (2 ^ 32) with 4294967296 in Hn.
  assert (H50 : 2 ^ 50 = 1125899906842624) by reflexivity.
  assert (Hn0 : 0 <= n) by (unfold n; lia).
  assert (HQ : 0 <= (n + 2) / 3 <= n).
  { split; [apply Z.div_pos; lia|].
    destruct (Z.eq_dec n 0) as [->|]; [reflexivity|].
    apply Z.div_le_upper_bound; lia. }
  pose proof (Z.div_mod (n + 2) 3 ltac:(lia)) as Hdm.
  pose proof (Z.mod_pos_bound (n + 2) 3 ltac:(lia)) as Hmb.
  assert (En : Z.of_nat (count_among (matches (ByClass "cpu-core-card")) doc)
               = n) by (rewrite C; reflexivity).
  assert (Ed : Z.of_nat (count_among (matches (ByClass "indicator-dot")) doc)
               = (n + 2) / 3) by (rewrite D; apply Z2Nat.id; lia).
  split; [exact En|]. split; [exact Ed|].
  set (last := Z.max 0 ((n + 2) / 3 - 1)).
  assert (Inv : forall cs0 p0,
             Forall (on_page doc) cs0 -> 0 <= p0 <= last ->
             exists p, fold_left (click doc) cs0 (of_Z p0) = of_Z p
                       /\ 0 <= p <= last).
  { induction cs0 as [|c cs0 IH]; intros p0 Hall Hp0.
    - exists p0. split; [reflexivity|exact Hp0].
    - inversion Hall as [|? ? Hc Hall']; subst.
      cbn [fold_left].
      pose proof (moveCarousel_integers doc p0) as Hstep.
      cbv zeta in Hstep. rewrite En in Hstep.
      destruct (Hstep ltac:(lia) Hp0) as [Enext Eprev].
      destruct c as [| |i]; cbn [click goToPage].
      + rewrite Eprev. apply IH; [exact Hall'|]. fold last. lia.
      + rewrite Enext. apply IH; [exact Hall'|]. fold last. lia.
      + apply IH; [exact Hall'|]. cbn [on_page] in Hc.
        unfold last. lia. }
  intros Hall.
  destruct (Inv cs 0 Hall ltac:(unfold last; lia)) as (p & Ep & Hp).
  exists p. split; [exact Ep|]. unfold last in Hp.
  repeat split; try lia.
Qed.

(** ** The sample pages *)

Lemma sample_specs_sampled :
  getSystemInfo (sample_host some_disk sample_interfaces) = Some sample_specs.
Proof. vm_compute. reflexivity. Qed.

Lemma sample_page_rendered : exists doc, render sample_specs = Some doc.
Proof. vm_compute. eexists. reflexivity. Defined.

Lemma seven_core_specs_sampled :
  getSystemInfo seven_core_host = Some seven_core_specs.
Proof. vm_compute. reflexivity. Qed.

Lemma seven_core_page_rendered :
  exists doc, render seven_core_specs = Some doc.
Proof. vm_compute. eexists. reflexivity. Defined.

Lemma page_only_follows_memory_witness :
  exists (doc cards : list Node) (dots : nat),
    render sample_specs = Some doc
    /\ doc = page sample_specs cards dots "12.00 GB" "4.00 GB"
    /\ updateUI later_specs doc
       = Thrown (page sample_specs cards dots "14.00 GB" "2.00 GB")
    /\ fold_left onmessage [sample_specs; later_specs] (Some doc)
       = Some (page sample_specs cards dots "14.00 GB" "2.00 GB").
Proof.
  destruct sample_page_rendered as [doc E].
  destruct (page_only_follows_memory sample_specs doc [sample_specs]
              later_specs E) as (cards & dots & H1 & H2 & H3).
  exists doc, cards, dots. repeat split; assumption.
Defined.

Lemma carousel_stays_on_cards_witness :
  exists doc : list Node,
    render seven_core_specs = Some doc
    /\ Z.of_nat (count_among (matches (ByClass "cpu-core-card")) doc) = 7
    /\ Z.of_nat (count_among (matches (ByClass "indicator-dot")) doc) = 3
    /\ Forall (on_page doc) [Next; Next; Next; Dot 1; Previous; Dot 2; Next]
    /\ exists p : Z,
         fold_left (click doc)
           [Next; Next; Next; Dot 1; Previous; Dot 2; Next] (of_Z 0)
         = of_Z p
         /\ 0 <= p
         /\ (0 < 7 -> 3 * p < 7)
         /\ (7 = 0 -> p = 0).
Proof.
  destruct seven_core_page_rendered as [doc E].
  destruct (carousel_stays_on_cards seven_core_specs doc
              [Next; Next; Next; Dot 1; Previous; Dot 2; Next] E)
    as (C & D & P); [reflexivity|].
  change (Z.of_nat (List.length (cpu seven_core_specs))) with 7 in C, D, P.
  change ((7 + 2) / 3) with 3 in D.
  assert (Hall : Forall (on_page doc)
                   [Next; Next; Next; Dot 1; Previous; Dot 2; Next]).
  { repeat constructor; cbn [on_page]; lia. }
  exists doc. split; [exact E|]. split; [exact C|]. split; [exact D|].
  split; [exact Hall|]. exact (P Hall).
Defined.

(** ** The page route *)

Lemma zero_counters (counters : list (string * Z)) :
  Forall (fun kv => 0 <= snd kv) counters -> total_of counters < 2 ^ 53 ->
  Forall (fun kv : string * number => snd kv = of_Z 0) (as_times counters) ->
  total_of counters = 0.
Proof.
  induction 1 as [|kv l Hkv Hl IH]; intros Hlt Hz; [reflexivity|].
  pose proof (total_of_nonneg l Hl) as Hn.
  change (total_of (kv :: l)) with (snd kv + total_of l) in *.
  cbn [as_times map] in Hz. inversion Hz as [|? ? Hz1 Hz2]; subst.
  cbn [snd] in Hz1.
  rewrite (IH ltac:(lia) Hz2).
  destruct (of_Z_shape (snd kv) ltac:(lia)) as [[E _] | [_ E]]; [lia|].
  rewrite E in Hz1. discriminate Hz1.
Qed.

Lemma core_cards_of_integer_cpus (cpus : list Cpu) (k : nat) :
  Forall integer_cpu cpus ->
  exists (cores : list CoreMetric) (cards : list Node),
    map_cores k cpus = Some cores /\ core_cards cores = Some cards
    /\ List.length cores = List.length cpus
    /\ Forall2 (fun cpu card =>
                  zero_core cpu ->
                  shown "metric-value" card = Some "Usage: NaN%")
               cpus cards.
Proof.
  intros Hall. revert k.
  induction Hall as [|cpu cpus Hcpu _ IH]; intros k.
  - exists [], []. repeat split. constructor.
  - destruct Hcpu
      as (counters & mhz & u & s & i & Ht & Hw & Hs & Hm & Iu & Is & Ii).
    destruct (core_card_integer k cpu counters mhz u s i
                Ht Hw Hs Hm Iu Is Ii)
      as (m & ti & fig & Em & Ei & Eidle & Efig & Ecard).
    destruct (IH (S k)) as (cores & cards & Ecores & Ecards & Hlen & Hz).
    exists (m :: cores), (card_of m fig :: cards).
    cbn [map_cores core_cards List.length].
    rewrite Em, Ecores, Ecard, Ecards, Hlen.
    repeat split. constructor; [|exact Hz].
    intros Hzero. unfold zero_core in Hzero. rewrite Ht in Hzero.
    destruct Hw as (_ & Hnn & Hlt).
    rewrite (zero_counters counters Hnn Hlt Hzero) in Ei.
    pose proof (counter_le_total counters "idle" i Hnn Ii) as Hi.
    rewrite (zero_counters counters Hnn Hlt Hzero) in Hi.
    assert (i = 0) by lia. subst i.
    assert (ti = "NaN") by (vm_compute in Ei; congruence). subst ti.
    assert (fig = "NaN") by (vm_compute in Efig; congruence). subst fig.
    destruct (card_of_shows m "NaN") as (_ & S2 & _). exact S2.
Qed.

Lemma cpu_container_holds_cards (s : Snapshot) (cards : list Node)
  (dots : nat) (mu mf : string) :
  option_map child_nodes
    (first_among (matches (ById "cpuContainer")) (page s cards dots mu mf))
  = Some cards.
Proof. unfold page, cpu_section, el. look. reflexivity. Qed.

(** X15. The page route always answers on a host with the readings an
    operating system gives and plain texts.  The snapshot is sampled and
    the page is rendered; the children of [#cpuContainer] are the cards of
    the cores of the snapshot, one per core of the host and in their order,
    each showing the figures of its core: its id, the usage computed from
    its idle text, and its user, system and idle percentages.  The card of
    a core whose counters are all zero shows ["Usage: NaN%"].  The page
    holds no other card, and one dot per page of three cards. *)
Theorem page_is_always_rendered (h : Host) :
  integer_host h -> plain_host h ->
  Z.of_nat (List.length (os_cpus h)) < 2 ^ 32 ->
  exists (initialSpecs : Snapshot) (doc cards : list Node),
    getSystemInfo h = Some initialSpecs
    /\ get_root h = Some doc
    /\ List.length (cpu initialSpecs) = List.length (os_cpus h)
    /\ option_map child_nodes
         (first_among (matches (ById "cpuContainer")) doc) = Some cards
    /\ Forall2 shows_core (cpu initialSpecs) cards
    /\ Forall2 (fun cpu card =>
                  zero_core cpu ->
                  shown "metric-value" card = Some "Usage: NaN%")
               (os_cpus h) cards
    /\ count_among (matches (ByClass "cpu-core-card")) doc
       = List.length (os_cpus h)
    /\ Z.of_nat (count_among (matches (ByClass "indicator-dot")) doc)
       = (Z.of_nat (List.length (os_cpus h)) + 2) / 3.
Proof.
  intros Hh (Pty & Prel & Parch & Phost & Pip) Hn.
  pose proof Hh as (Hcpus & Hmem & Hdisk & M & e & HM & He & Hup).
  destruct (core_cards_of_integer_cpus (os_cpus h) 0 Hcpus)
    as (cores & cards & Ecores & Ecards & Hlen & Hzero).
  destruct (usage_plain _ _ Hmem) as (mem & Emem & _ & Pm1 & Pm2 & Pm3 & Pm4).
  assert (Hd : exists d,
             getDiskInfo h = Some d
             /\ plain (total d) = true /\ plain (used d) = true
             /\ plain (free d) = true /\ plain (usedPercentage d) = true).
  { unfold getDiskInfo.
    destruct (disk_check h "/") as [info|err].
    - destruct (usage_plain _ _ Hdisk) as (d & Ed & _ & P).
      exists d. split; [exact Ed|exact P].
    - eexists. split; [reflexivity|]. repeat split. }
  destruct Hd as (d & Ed & Pd1 & Pd2 & Pd3 & Pd4).
  destruct (formatUptime_plain M e HM He) as (up & Eup & Pup).
  rewrite <- Hup in Eup.
  assert (Es : exists s,
             getSystemInfo h = Some s /\ cpu s = cores
             /\ plain_page s = true).
  { unfold getSystemInfo, getCPUInfo, getMemoryInfo.
    rewrite Ecores, Emem, Ed, Eup. eexists.
    split; [reflexivity|]. split; [reflexivity|].
    unfold plain_page.
    cbn [memory disk network os uptime privateIP net_hostname
         type release arch].
    rewrite Pm1, Pm2, Pm3, Pm4, Pd1, Pd2, Pd3, Pd4, Pip, Phost, Pty, Prel,
      Parch, Pup.
    reflexivity. }
  destruct Es as (s & Es & Ecpu & Pp).
  assert (HQ : 0 <= (Z.of_nat (List.length (os_cpus h)) + 2) / 3)
    by (apply Z.div_pos; lia).
  exists s. unfold get_root. rewrite Es. unfold render.
  rewrite Pp, Ecpu, Ecards, Hlen, indicator_count_pages by exact Hn.
  eexists. exists cards.
  split; [reflexivity|]. split; [reflexivity|]. split; [reflexivity|].
  split; [apply cpu_container_holds_cards|].
  split; [apply core_cards_show; exact Ecards|].
  split; [exact Hzero|].
  destruct (page_counts s cores cards
              (Z.to_nat ((Z.of_nat (List.length (os_cpus h)) + 2) / 3))
              (used (memory s)) (free (memory s)) Ecards) as [C D].
  rewrite C, D, Hlen. split; [reflexivity|]. apply Z2Nat.id. exact HQ.
Qed.

Lemma page_is_always_rendered_witness :
  exists (initialSpecs : Snapshot) (doc cards : list Node),
    getSystemInfo booting_host = Some initialSpecs
    /\ get_root booting_host = Some doc
    /\ List.length (cpu initialSpecs) = List.length (os_cpus booting_host)
    /\ option_map child_nodes
         (first_among (matches (ById "cpuContainer")) doc) = Some cards
    /\ Forall2 shows_core (cpu initialSpecs) cards
    /\ Forall2 (fun cpu card =>
                  zero_core cpu ->
                  shown "metric-value" card = Some "Usage: NaN%")
               (os_cpus booting_host) cards
    /\ count_among (matches (ByClass "cpu-core-card")) doc
       = List.length (os_cpus booting_host)
    /\ Z.of_nat (count_among (matches (ByClass "indicator-dot")) doc)
       = (Z.of_nat (List.length (os_cpus booting_host)) + 2) / 3.
Proof.
  apply (page_is_always_rendered booting_host).
  - split; [|split; [|split]].
    + constructor; [|constructor; [|constructor]].
      * exists [("user", 200); ("sys", 100); ("idle", 700)],
          2400, 200, 100, 700.
        repeat split; try reflexivity; try lia; cbn; auto.
        -- repeat constructor; cbn; intuition discriminate.
        -- repeat constructor; cbn; lia.
      * exists [("user", 0); ("sys", 0); ("idle", 0)], 2400, 0, 0, 0.
        repeat split; try reflexivity; try lia; cbn; auto.
        -- repeat constructor; cbn; intuition discriminate.
        -- repeat constructor; cbn; lia.
    + exists 17179869184, 4294967296.
      repeat split; try reflexivity; lia.
    + exists 500000000000, 350000000000.
      repeat split; try reflexivity; lia.
    + exists 90061, 0. repeat split; try reflexivity; lia.
  - repeat split.
  - reflexivity.
Defined.
